(** * bitcoin_scraper: fetch / parse / store pipeline and keyword search

    A shallow embedding of [bitcoin_scraper.py].  The class
    [BitcoinPrivateKeyScraper] becomes a record of instance attributes
    threaded through its methods; the outside world (network, clock, random
    generator, HTML parser, disk faults) is an explicit environment of
    oracles, so that every method is a total, executable function.

    Characters are code points below 256 ([ascii]); text is [string].

    Boundaries of the model:
    - a Python float is the rational it stands for, and float arithmetic
      rounds to nearest, ties to even, at 53 bits ([Float]); the exponent
      range is not bounded;
    - a file is the table pandas reads from it or writes to it; the
      re-typing of cells by a CSV round trip is not represented;
    - an interrupt can strike during a sleep or a request, not inside a
      [finally] block or a file operation;
    - the file at [output_file] is kept apart from the other files a search
      writes; an export whose path is [output_file] replaces the dataset;
    - [re] is modelled for patterns of ordinary characters and [.]; for any
      other pattern the search that [re] performs, or its error, is an
      oracle of the environment, as are the text pandas gives a missing
      cell and what [read_csv] makes of a file holding JSON;
    - the progress bar is left out;
    - a request is one call of [session.get]: what the session's adapter
      does inside that call, its own retries included ([_create_session]),
      is part of the outcome of the call;
    - [main] starts from the parsed arguments; the banner and the help text
      are not represented. *)

From Stdlib Require Import List String Ascii Bool Arith ZArith QArith Lia.
From Stdlib Require Import DecimalString DecimalNat Lqa Qround.
Import ListNotations.

Local Open Scope string_scope.
Local Open Scope list_scope.
Local Open Scope nat_scope.

(* ===================================================================== *)
(** * Part I: definitions                                                 *)
(* ===================================================================== *)

(** ** Float: the arithmetic of Python floats

    A float is the rational it stands for.  [round] is the IEEE 754 binary64
    rounding of a rational, to nearest with ties to even, at 53 significant
    bits; overflow and subnormal numbers, far from the sums of this program,
    are not represented. *)

Module Float.

(** Round to the nearest integer, a tie to the even one. *)
Definition rint (q : Q) : Z :=
  let f := Qfloor q in
  match Qcompare (q - inject_Z f) (1 # 2) with
  | Lt => f
  | Gt => (f + 1)%Z
  | Eq => if Z.even f then f else (f + 1)%Z
  end.

(** [floor (log2 x)], for [0 < x]. *)
Definition exponent (x : Q) : Z :=
  if Qle_bool 1 x then Z.log2 (Qfloor x)
  else (- Z.log2_up (Qceiling (/ x)))%Z.

(** A positive rational, rounded to 53 significant bits. *)
Definition round_pos (x : Q) : Q :=
  let e := exponent x in
  if (e <=? 52)%Z then
    let m := (2 ^ (52 - e))%Z in
    Qred (Qmake (rint (x * inject_Z m)) (Z.to_pos m))
  else
    let k := (2 ^ (e - 52))%Z in
    inject_Z (rint (x / inject_Z k) * k).

Definition round (x : Q) : Q :=
  match Qcompare x 0 with
  | Eq => 0
  | Gt => round_pos x
  | Lt => - round_pos (- x)
  end.

(** [a + b], [a - b] and [a * b] on floats. *)
Definition add (a b : Q) : Q := round (a + b).
Definition sub (a b : Q) : Q := round (a - b).
Definition mul (a b : Q) : Q := round (a * b).

End Float.

(** ** Text: the [str] methods the scraper calls *)

Module Text.

Definition chars : string -> list ascii := list_ascii_of_string.
Definition of_chars : list ascii -> string := string_of_list_ascii.

Definition code (c : ascii) : nat := nat_of_ascii c.

Definition between (lo hi : nat) (c : ascii) : bool :=
  (lo <=? code c) && (code c <=? hi).

(** [str.isspace] on one character, for code points below 256. *)
Definition isspace (c : ascii) : bool :=
  between 9 13 c || between 28 32 c || (code c =? 133) || (code c =? 160).

(** [str.lower] on one character: A-Z, and the Latin-1 capitals
    U+00C0..U+00DE except the multiplication sign U+00D7. *)
Definition is_upper (c : ascii) : bool :=
  between 65 90 c || (between 192 222 c && negb (code c =? 215)).

Definition is_lower (c : ascii) : bool :=
  between 97 122 c || (between 224 254 c && negb (code c =? 247)).

Definition lower_char (c : ascii) : ascii :=
  if is_upper c then ascii_of_nat (code c + 32) else c.

Definition upper_char (c : ascii) : ascii :=
  if is_lower c then ascii_of_nat (code c - 32) else c.

Definition lower (s : string) : string := of_chars (map lower_char (chars s)).

Fixpoint lstrip_chars (l : list ascii) : list ascii :=
  match l with
  | c :: t => if isspace c then lstrip_chars t else l
  | [] => []
  end.

Definition rstrip_chars (l : list ascii) : list ascii :=
  rev (lstrip_chars (rev l)).

(** [s.strip()] *)
Definition strip (s : string) : string :=
  of_chars (rstrip_chars (lstrip_chars (chars s))).

Fixpoint starts_with (p l : list ascii) : bool :=
  match p, l with
  | [], _ => true
  | a :: p', b :: l' => Ascii.eqb a b && starts_with p' l'
  | _ :: _, [] => false
  end.

Fixpoint contains_chars (p l : list ascii) : bool :=
  starts_with p l ||
  match l with
  | [] => false
  | _ :: t => contains_chars p t
  end.

(** [needle in hay] *)
Definition contains (needle hay : string) : bool :=
  contains_chars (chars needle) (chars hay).

(** [str(n)] for a non-negative integer. *)
Definition str_of_nat (n : nat) : string :=
  NilEmpty.string_of_uint (Nat.to_uint n).

Definition LF : ascii := ascii_of_nat 10.

End Text.

(** ** Re: the fragment of Python's [re] the scraper relies on

    A backtracking matcher in continuation-passing style.  A position is the
    remaining input together with a flag telling whether it is the start of
    the subject, which [^] needs. *)

Module Re.
Import Text.

Inductive regex : Type :=
| Eps
| Lit (c : ascii)                        (* an ordinary character *)
| Dot                                    (* .   (no DOTALL)       *)
| Class (ranges : list (ascii * ascii))  (* [a-z0-9]              *)
| Bol                                    (* ^   (no MULTILINE)    *)
| Eol                                    (* $   (no MULTILINE)    *)
| Cat (r1 r2 : regex)
| Alt (r1 r2 : regex)
| Rep (r : regex) (lo hi : nat).         (* r{lo,hi}              *)

Definition pos : Type := bool * list ascii.

Definition in_ranges (rs : list (ascii * ascii)) (c : ascii) : bool :=
  existsb (fun r => between (code (fst r)) (code (snd r)) c) rs.

(** One-character tests; [ic] is the IGNORECASE flag. *)
Definition lit_ok (ic : bool) (c x : ascii) : bool :=
  if ic then Ascii.eqb (lower_char c) (lower_char x) else Ascii.eqb c x.

Definition class_ok (ic : bool) (rs : list (ascii * ascii)) (x : ascii) : bool :=
  in_ranges rs x ||
  (ic && (in_ranges rs (lower_char x) || in_ranges rs (upper_char x))).

Definition dot_ok (x : ascii) : bool := negb (Ascii.eqb x LF).

Definition one (ok : ascii -> bool) (p : pos) (k : pos -> bool) : bool :=
  match snd p with
  | x :: t => ok x && k (false, t)
  | [] => false
  end.

(** [$] holds at the end of the subject and just before a final newline. *)
Definition at_eol (l : list ascii) : bool :=
  match l with
  | [] => true
  | [x] => Ascii.eqb x LF
  | _ => false
  end.

Fixpoint run (ic : bool) (r : regex) (p : pos) (k : pos -> bool) : bool :=
  match r with
  | Eps => k p
  | Lit c => one (lit_ok ic c) p k
  | Dot => one dot_ok p k
  | Class rs => one (class_ok ic rs) p k
  | Bol => fst p && k p
  | Eol => at_eol (snd p) && k p
  | Cat r1 r2 => run ic r1 p (fun q => run ic r2 q k)
  | Alt r1 r2 => run ic r1 p k || run ic r2 p k
  | Rep r0 lo hi =>
      (fix rep (hi lo : nat) (p : pos) {struct hi} : bool :=
         match hi with
         | 0 => (lo =? 0) && k p
         | S hi' =>
             ((lo =? 0) && k p) ||
             run ic r0 p (fun q => rep hi' (pred lo) q)
         end) hi lo p
  end.

(** [re.match(r, s)]: a match anchored at the start of [s]. *)
Definition re_match (ic : bool) (r : regex) (s : string) : bool :=
  run ic r (true, chars s) (fun _ => true).

(** [re.search(r, s)]: a match starting at any offset of [s]. *)
Fixpoint search_from (ic : bool) (r : regex) (bos : bool) (l : list ascii) : bool :=
  run ic r (bos, l) (fun _ => true) ||
  match l with
  | [] => false
  | _ :: t => search_from ic r false t
  end.

Definition re_search (ic : bool) (r : regex) (s : string) : bool :=
  search_from ic r true (chars s).

Fixpoint lit_chars (l : list ascii) : regex :=
  match l with
  | [] => Eps
  | [c] => Lit c
  | c :: t => Cat (Lit c) (lit_chars t)
  end.

Definition lit (s : string) : regex := lit_chars (chars s).

(** *** Compiling a keyword the way [Series.str.contains] does

    [str.contains(pat, case=False)] leaves [regex=True], so the keyword is
    handed to [re.compile(pat, flags=re.IGNORECASE)].  The model covers the
    patterns built from ordinary characters and [.]; a leading repetition
    operator is the error "nothing to repeat"; every other use of a
    metacharacter is outside the modelled fragment, and for such a pattern
    the search that [re] itself performs is taken from the environment
    ([Foreign]). *)

Inductive compiled : Type :=
| Compiled (r : regex)
| ReError            (* re.error *)
| Unmodelled
| Foreign (search : string -> bool).

Definition is_meta (c : ascii) : bool :=
  existsb (Ascii.eqb c) (chars ".^$*+?{}[]\|()").

Definition is_repeat (c : ascii) : bool :=
  existsb (Ascii.eqb c) (chars "*+?").

Fixpoint compile_atoms (l : list ascii) : option regex :=
  match l with
  | [] => Some Eps
  | c :: t =>
      let atom :=
        if Ascii.eqb c "."%char then Some Dot
        else if is_meta c then None
        else Some (Lit c) in
      match atom, compile_atoms t with
      | Some a, Some r => Some (Cat a r)
      | _, _ => None
      end
  end.

Definition re_compile (pat : string) : compiled :=
  match chars pat with
  | c :: _ =>
      if is_repeat c then ReError
      else match compile_atoms (chars pat) with
           | Some r => Compiled r
           | None => Unmodelled
           end
  | [] => Compiled Eps
  end.

End Re.

(** ** The address check of [_parse_page]

    [r'^(bc1|[13])[a-zA-HJ-NP-Z0-9]{25,90}$'] *)

Definition ch (s : string) : ascii :=
  match s with
  | String c _ => c
  | EmptyString => Ascii.zero
  end.

Definition address_alphabet : list (ascii * ascii) :=
  [(ch "a", ch "z"); (ch "A", ch "H"); (ch "J", ch "N"); (ch "P", ch "Z");
   (ch "0", ch "9")].

Definition address_re : Re.regex :=
  Re.Cat Re.Bol
    (Re.Cat (Re.Alt (Re.lit "bc1") (Re.Class [(ch "1", ch "1"); (ch "3", ch "3")]))
       (Re.Cat (Re.Rep (Re.Class address_alphabet) 25 90) Re.Eol)).

(** [re.match(r'^(bc1|[13])[a-zA-HJ-NP-Z0-9]{25,90}$', address)] *)
Definition address_matches (address : string) : bool :=
  Re.re_match false address_re address.

(** ** Dom: the part of a BeautifulSoup tree the scraper walks

    A tag keeps its list-valued attributes ([class], [rel], which bs4 splits
    into tokens) apart from the plain ones ([href]). *)

Module Dom.

#[warnings="-register-all"] Inductive node : Type :=
| Text (s : string)
| Tag (name : string)
      (multi : list (string * list string))
      (single : list (string * string))
      (children : list node).

Definition tag_name (n : node) : option string :=
  match n with
  | Tag name _ _ _ => Some name
  | Text _ => None
  end.

Definition is_tag (name : string) (n : node) : bool :=
  match n with
  | Tag name' _ _ _ => String.eqb name name'
  | Text _ => false
  end.

Fixpoint lookup {V : Type} (key : string) (l : list (string * V)) : option V :=
  match l with
  | [] => None
  | (k, v) :: t => if String.eqb key k then Some v else lookup key t
  end.

(** All nodes below [n], in document order. *)
Fixpoint descendants (n : node) : list node :=
  match n with
  | Text _ => []
  | Tag _ _ _ children =>
      (fix below (l : list node) : list node :=
         match l with
         | [] => []
         | c :: t => c :: descendants c ++ below t
         end) children
  end.

(** [n.find_all(name)] *)
Definition find_all (name : string) (n : node) : list node :=
  filter (is_tag name) (descendants n).

(** [n.find(name)] *)
Definition find (name : string) (n : node) : option node :=
  hd_error (find_all name n).

(** A list-valued attribute matches a wanted string when one of its tokens
    is that string, or when its tokens joined by spaces are. *)
Definition has_token (key want : string) (n : node) : bool :=
  match n with
  | Tag _ multi _ _ =>
      match lookup key multi with
      | Some tokens =>
          existsb (String.eqb want) tokens
          || String.eqb want (String.concat " " tokens)
      | None => false
      end
  | Text _ => false
  end.

(** [n.find(name, {key: want})] for a list-valued attribute [key]. *)
Definition find_with (name key want : string) (n : node) : option node :=
  hd_error (filter (has_token key want) (find_all name n)).

(** [tag[key]] for a plain attribute; [None] stands for [KeyError]. *)
Definition get_item (key : string) (n : node) : option string :=
  match n with
  | Tag _ _ single _ => lookup key single
  | Text _ => None
  end.

(** [n.text] *)
Fixpoint text (n : node) : string :=
  match n with
  | Text s => s
  | Tag _ _ _ children =>
      (fix join (l : list node) : string :=
         match l with
         | [] => ""
         | c :: t => String.append (text c) (join t)
         end) children
  end.

End Dom.

(** ** Exceptions *)

Inductive exn : Type :=
| KeyboardInterrupt
| SystemExit
| RequestException (msg : string)
| Timeout
| ProxyError
| ConnectionError
| HTTPError (status : nat)
| ValueError (msg : string)
| KeyError (key : string)
| OSError (msg : string)
| EmptyDataError
| ParserError
| re_error
| RuntimeError (msg : string).

(** [isinstance(e, Exception)] *)
Definition is_Exception (e : exn) : bool :=
  match e with
  | KeyboardInterrupt | SystemExit => false
  | _ => true
  end.

(** [isinstance(e, requests.exceptions.RequestException)] *)
Definition is_RequestException (e : exn) : bool :=
  match e with
  | RequestException _ | Timeout | ProxyError | ConnectionError | HTTPError _ => true
  | _ => false
  end.

Definition is_ValueError (e : exn) : bool :=
  match e with
  | ValueError _ => true
  | _ => false
  end.

Definition is_KeyboardInterrupt (e : exn) : bool :=
  match e with
  | KeyboardInterrupt => true
  | _ => false
  end.

(** What reading or writing a file can raise. *)
Inductive io_error : Type :=
| IoOS (msg : string)       (* PermissionError, disk full, ... *)
| IoEmptyData               (* pandas.errors.EmptyDataError *)
| IoParser.                 (* pandas.errors.ParserError *)

Definition exn_of_io (e : io_error) : exn :=
  match e with
  | IoOS msg => OSError msg
  | IoEmptyData => EmptyDataError
  | IoParser => ParserError
  end.

(** ** Data model *)

(** The dict built for one table row. *)
Record record : Type := mkRecord {
  index : string;
  address : string;
  balance : string;
  private_key : string;
  details_url : string;
  timestamp : string
}.

(** A DataFrame cell: a value seen through its string form, or NaN. *)
Definition cell : Type := option string.

Record DataFrame : Type := mkDataFrame {
  columns : list string;
  data : list (list cell)
}.

Definition record_columns : list string :=
  ["index"; "address"; "balance"; "private_key"; "details_url"; "timestamp"].

Definition record_row (r : record) : list cell :=
  [Some (index r); Some (address r); Some (balance r); Some (private_key r);
   Some (details_url r); Some (timestamp r)].

(** [pd.DataFrame(list_of_dicts)] *)
Definition DataFrame_of (rs : list record) : DataFrame :=
  mkDataFrame record_columns (map record_row rs).

(** [len(df)] *)
Definition len (df : DataFrame) : nat := List.length (data df).

Definition join_cell (c : option cell) : cell :=
  match c with
  | Some v => v
  | None => None
  end.

(** Realign one row from the columns [old] to the columns [new]; a column the
    row does not have becomes NaN. *)
Definition reindex (old new : list string) (row : list cell) : list cell :=
  map (fun c => join_cell (Dom.lookup c (combine old row))) new.

Definition union_columns (a b : list string) : list string :=
  a ++ filter (fun c => negb (existsb (String.eqb c) a)) b.

(** [pd.concat([a, b], ignore_index=True)] *)
Definition concat (a b : DataFrame) : DataFrame :=
  let cols := union_columns (columns a) (columns b) in
  mkDataFrame cols
    (map (reindex (columns a) cols) (data a)
     ++ map (reindex (columns b) cols) (data b)).

(** [cell.astype(str)]: a missing cell becomes the text [na] that the
    installed pandas gives it (["nan"] up to pandas 2), or stays missing. *)
Definition astype_str (na : option string) (c : cell) : option string :=
  match c with
  | Some s => Some s
  | None => na
  end.

(** What the path [output_file] holds: a table pandas can read, or bytes on
    which [read_csv] raises. *)
Inductive file : Type :=
| Table (df : DataFrame)
| Unreadable (e : io_error).

(** A failed write either never opened the file, or stopped after some rows. *)
Inductive write_fault : Type :=
| CannotOpen (e : io_error)
| Truncated (e : io_error) (kept : nat).

Inductive export : Type :=
| CsvExport (df : DataFrame)
| JsonExport (rows : list (list (string * cell))).

Record response : Type := mkResponse {
  status_code : nat;
  text : string
}.

Inductive get_outcome : Type :=
| Responded (r : response)
| GetRaised (e : exn).

Inductive level : Type := INFO | WARNING | ERROR.

Inductive message : Type :=
| UsingProxy (p : string)
| AttemptFailed (attempt limit : nat) (e : exn) (wait : Q)
| TableNotFound
| NoRowsFound
| InvalidAddress (a : string)
| SavedRecords (n : nat) (path : string)
| SaveFailed (e : exn)
| Starting
| ReachedMaxPages (limit : Z)
| TestModeComplete
| FailedToRetrieve (page : nat)
| ThreeEmptyPages
| NoMorePages
| InterruptedByUser
| CriticalError (e : exn)
| ScrapingComplete (total : nat)
| Searching (keyword : string)
| DatabaseNotFound
| NoMatchingRecords
| ResultsSaved (path : string)
| FoundRecords (n : nat)
| SearchFailed (e : exn).

Inductive event : Type :=
| Sleep (seconds : Q)
| Get (url user_agent : string) (proxies : option string)
| ReadCsv (path : string)
| WriteCsv (path : string)
| WriteJson (path : string)
| Print (line : string)
| PrintResults (df : DataFrame)
| SessionClose.

(** ** The environment: everything the program does not decide

    Every consultation of an oracle is numbered by the [tick] of the state at
    that moment. *)

Record env : Type := mkEnv {
  BeautifulSoup : string -> Dom.node;           (* the html.parser tree  *)
  urljoin : string -> string -> option string;  (* None: ValueError      *)
  now_isoformat : nat -> string;                (* pd.Timestamp.now()    *)
  user_agent : nat -> string;                   (* USER_AGENTS.random    *)
  random_random : nat -> Q;                     (* random.random()       *)
  session_get : nat -> string -> get_outcome;   (* session.get(url, ...) *)
  sleep_interrupted : nat -> bool;              (* Ctrl-C during a sleep *)
  write_faults : nat -> option write_fault;     (* to_csv / to_json      *)
  re_engine : string -> option (string -> bool);
    (* re.compile(pat, re.IGNORECASE).search for a pattern outside the
       modelled fragment; None: re.error *)
  na_text : option string;
    (* what astype(str) makes of a missing cell *)
  read_json_as_csv : list (list (string * cell)) -> file
    (* what read_csv finds in a file that holds a JSON export *)
}.

(** ** The scraper object and the world it acts on *)

Record state : Type := mkState {
  (* self.* *)
  output_file : string;
  max_pages : option Z;
  test_mode : bool;
  proxy : option string;
  proxies : list string;
  scraped_data : list record;
  proxy_index : nat;
  session_open : bool;
  (* the world *)
  disk : option file;                  (* the file at [output_file], if any *)
  exports : list (string * export);    (* files written by a search         *)
  log : list (level * message);
  trace : list event;
  tick : nat
}.

Definition set_scraped_data (v : list record) (s : state) : state :=
  mkState (output_file s) (max_pages s) (test_mode s) (proxy s) (proxies s)
    v (proxy_index s) (session_open s) (disk s) (exports s) (log s) (trace s) (tick s).

Definition set_proxy_index (v : nat) (s : state) : state :=
  mkState (output_file s) (max_pages s) (test_mode s) (proxy s) (proxies s)
    (scraped_data s) v (session_open s) (disk s) (exports s) (log s) (trace s) (tick s).

Definition set_session_open (v : bool) (s : state) : state :=
  mkState (output_file s) (max_pages s) (test_mode s) (proxy s) (proxies s)
    (scraped_data s) (proxy_index s) v (disk s) (exports s) (log s) (trace s) (tick s).

Definition set_disk (v : option file) (s : state) : state :=
  mkState (output_file s) (max_pages s) (test_mode s) (proxy s) (proxies s)
    (scraped_data s) (proxy_index s) (session_open s) v (exports s) (log s) (trace s) (tick s).

Definition set_exports (v : list (string * export)) (s : state) : state :=
  mkState (output_file s) (max_pages s) (test_mode s) (proxy s) (proxies s)
    (scraped_data s) (proxy_index s) (session_open s) (disk s) v (log s) (trace s) (tick s).

Definition set_log (v : list (level * message)) (s : state) : state :=
  mkState (output_file s) (max_pages s) (test_mode s) (proxy s) (proxies s)
    (scraped_data s) (proxy_index s) (session_open s) (disk s) (exports s) v (trace s) (tick s).

Definition set_trace (v : list event) (s : state) : state :=
  mkState (output_file s) (max_pages s) (test_mode s) (proxy s) (proxies s)
    (scraped_data s) (proxy_index s) (session_open s) (disk s) (exports s) (log s) v (tick s).

Definition set_tick (v : nat) (s : state) : state :=
  mkState (output_file s) (max_pages s) (test_mode s) (proxy s) (proxies s)
    (scraped_data s) (proxy_index s) (session_open s) (disk s) (exports s) (log s) (trace s) v.

(** [BitcoinPrivateKeyScraper(output_file, max_pages, test_mode, proxy)] in a
    world whose disk holds [d]. *)
Definition PROXY_LIST : list string := [""; ""; ""; ""; ""].

Definition __init__ (output_file : string) (max_pages : option Z)
    (test_mode : bool) (proxy : option string) (d : option file) : state :=
  mkState output_file max_pages test_mode proxy PROXY_LIST [] 0 true d [] [] [] 0.

(** ** A state and exception monad *)

Inductive result (A : Type) : Type :=
| Ok (a : A)
| Raise (e : exn).
Arguments Ok {A} a.
Arguments Raise {A} e.

Definition M (A : Type) : Type := state -> result A * state.

Definition ret {A : Type} (a : A) : M A := fun s => (Ok a, s).

Definition raise {A : Type} (e : exn) : M A := fun s => (Raise e, s).

Definition bind {A B : Type} (m : M A) (k : A -> M B) : M B :=
  fun s =>
    match m s with
    | (Ok a, s') => k a s'
    | (Raise e, s') => (Raise e, s')
    end.

Notation "x <- m ;; k" := (bind m (fun x => k))
  (at level 61, m at next level, right associativity).
Notation "m ;;; k" := (bind m (fun _ => k))
  (at level 61, right associativity).

(** [try: m  except <those e with catches e>: handler e] *)
Definition try_except {A : Type} (m : M A) (catches : exn -> bool)
    (handler : exn -> M A) : M A :=
  fun s =>
    match m s with
    | (Ok a, s') => (Ok a, s')
    | (Raise e, s') => if catches e then handler e s' else (Raise e, s')
    end.

(** [try: m  finally: f] *)
Definition try_finally {A : Type} (m : M A) (f : M unit) : M A :=
  fun s =>
    match m s with
    | (r, s') =>
        match f s' with
        | (Ok _, s'') => (r, s'')
        | (Raise e, s'') => (Raise e, s'')
        end
    end.

Definition get_state : M state := fun s => (Ok s, s).

Definition modify (f : state -> state) : M unit := fun s => (Ok tt, f s).

Definition logging (l : level) (m : message) : M unit :=
  modify (fun s => set_log (log s ++ [(l, m)]) s).

Definition emit (e : event) : M unit :=
  modify (fun s => set_trace (trace s ++ [e]) s).

(** Take the next number for an oracle. *)
Definition next_tick : M nat :=
  fun s => (Ok (tick s), set_tick (S (tick s)) s).

Definition do_log (l : level) (m : message) (s : state) : state :=
  set_log (log s ++ [(l, m)]) s.

(** ** Module constants *)

Definition BASE_URL : string := "https://privatekeyfinder.io/private-keys/bitcoin/".
Definition MIN_DELAY : Q := 3.
Definition MAX_DELAY : Q := 7.
Definition RETRY_LIMIT : nat := 5.
Definition SAVE_INTERVAL : nat := 3.

Definition blocking_indicators : list string :=
  ["cloudflare"; "access denied"; "captcha"; "403 forbidden"; "blocked";
   "security check"].

Definition nonempty (s : string) : bool := negb (String.eqb s "").

(** ** The methods of [BitcoinPrivateKeyScraper] *)

Section Scraper.

Variable E : env.

(** [time.sleep(seconds)] *)
Definition time_sleep (seconds : Q) : M unit :=
  k <- next_tick ;;
  emit (Sleep seconds) ;;;
  if sleep_interrupted E k then raise KeyboardInterrupt else ret tt.

(** [random.uniform(a, b)] is [a + (b - a) * self.random()], in floats. *)
Definition uniform (a b x : Q) : Q :=
  Float.add a (Float.mul (Float.sub b a) x).

Definition _get_random_delay : M Q :=
  k <- next_tick ;;
  ret (uniform MIN_DELAY MAX_DELAY (random_random E k)).

Definition _get_user_agent : M string :=
  k <- next_tick ;;
  ret (user_agent E k).

Definition _rotate_proxy : M (option string) :=
  s <- get_state ;;
  match proxies s with
  | [] => ret None
  | _ :: _ =>
      let i := (proxy_index s + 1) mod List.length (proxies s) in
      modify (set_proxy_index i) ;;;
      ret (Some (nth i (proxies s) ""))
  end.

(** [response.raise_for_status()] raises for 4xx and 5xx. *)
Definition is_error_status (r : response) : bool :=
  (400 <=? status_code r) && (status_code r <? 600).

(** [bool(response)] is [response.ok]. *)
Definition response_ok (r : response) : bool := negb (is_error_status r).

Definition is_blocked (r : response) : bool :=
  existsb (fun indicator => Text.contains indicator (Text.lower (text r)))
    blocking_indicators.

(** The caught classes of [_request_with_retry]; [Timeout] and [ProxyError]
    are subclasses of [RequestException]. *)
Definition fetch_catches (e : exn) : bool :=
  is_RequestException e || is_ValueError e.

(** The [proxies] argument of one attempt: [None] stands for [{}]. *)
Definition choose_proxies : M (option string) :=
  s <- get_state ;;
  match proxy s with
  | Some p =>
      if String.eqb p "auto" then
        rotated <- _rotate_proxy ;;
        match rotated with
        | Some q =>
            if nonempty q
            then logging INFO (UsingProxy q) ;;; ret (Some q)
            else ret None
        | None => ret None
        end
      else if nonempty p && negb (String.eqb p "none") then ret (Some p)
      else ret None
  | None => ret None
  end.

(** What one attempt makes of the outcome of [session.get]: the response,
    or the exception raised inside the [try]. *)
Definition classify (o : get_outcome) : exn + response :=
  match o with
  | GetRaised e => inl e
  | Responded r =>
      if is_error_status r then inl (HTTPError (status_code r))
      else if is_blocked r then inl (RequestException "Blocking detected")
      else if negb (Text.contains "table table-striped" (text r))
      then inl (ValueError "Table content missing")
      else inr r
  end.

(** The [try] body of one attempt. *)
Definition attempt_body (url : string) : M response :=
  ua <- _get_user_agent ;;
  chosen <- choose_proxies ;;
  k <- next_tick ;;
  emit (Get url ua chosen) ;;;
  match classify (session_get E k url) with
  | inl e => raise e
  | inr r => ret r
  end.

(** [(2 ** attempt) + random.random()]: an [int] plus a [float]. *)
Definition backoff (attempt : nat) (jitter : Q) : Q :=
  Float.add (inject_Z (2 ^ Z.of_nat attempt)) jitter.

(** The [except] body of one attempt. *)
Definition attempt_failed (attempt : nat) (e : exn) : M unit :=
  k <- next_tick ;;
  let wait := backoff attempt (random_random E k) in
  logging WARNING (AttemptFailed (attempt + 1) RETRY_LIMIT e wait) ;;;
  time_sleep wait.

(** [for attempt in attempts: ...] followed by [return None]. *)
Fixpoint retry_loop (url : string) (attempts : list nat) : M (option response) :=
  match attempts with
  | [] => ret None
  | attempt :: rest =>
      got <- try_except
               (r <- attempt_body url ;; ret (Some r))
               fetch_catches
               (fun e => attempt_failed attempt e ;;; ret None) ;;
      match got with
      | Some r => ret (Some r)
      | None => retry_loop url rest
      end
  end.

Definition _request_with_retry (url : string) : M (option response) :=
  retry_loop url (seq 0 RETRY_LIMIT).

(** [urljoin(BASE_URL, details_link['href']) if details_link else ""] *)
Definition details_url_of (cell5 : Dom.node) : M string :=
  match Dom.find "a" cell5 with
  | Some details_link =>
      match Dom.get_item "href" details_link with
      | Some href =>
          match urljoin E BASE_URL href with
          | Some u => ret u
          | None => raise (ValueError "urljoin")
          end
      | None => raise (KeyError "href")
      end
  | None => ret ""
  end.

Definition cell_text (cols : list Dom.node) (i : nat) : string :=
  Text.strip (Dom.text (nth i cols (Dom.Text ""))).

(** The body of [for row in rows], threading [page_data]. *)
Fixpoint parse_rows (rows : list Dom.node) (page_data : list record)
  : M (list record) :=
  match rows with
  | [] => ret page_data
  | row :: rest =>
      let cols := Dom.find_all "td" row in
      if List.length cols <? 5 then parse_rows rest page_data
      else
        details_url <- details_url_of (nth 4 cols (Dom.Text "")) ;;
        let address := cell_text cols 1 in
        if negb (address_matches address) then
          logging WARNING (InvalidAddress address) ;;;
          parse_rows rest page_data
        else
          k <- next_tick ;;
          let record :=
            mkRecord (cell_text cols 0) address (cell_text cols 2)
              (cell_text cols 3) details_url (now_isoformat E k) in
          parse_rows rest (page_data ++ [record])
  end.

Definition _parse_page (html_content : string) : M (list record) :=
  let soup := BeautifulSoup E html_content in
  match Dom.find_with "table" "class" "table-striped" soup with
  | None => logging ERROR TableNotFound ;;; ret []
  | Some table =>
      match tl (Dom.find_all "tr" table) with
      | [] => logging INFO NoRowsFound ;;; ret []
      | rows => parse_rows rows []
      end
  end.

(** [os.path.exists(self.output_file)] *)
Definition path_exists (s : state) : bool :=
  match disk s with
  | Some _ => true
  | None => false
  end.

(** [pd.read_csv(self.output_file)] *)
Definition read_csv : M DataFrame :=
  s <- get_state ;;
  emit (ReadCsv (output_file s)) ;;;
  match disk s with
  | Some (Table df) => ret df
  | Some (Unreadable e) => raise (exn_of_io e)
  | None => raise (OSError "No such file or directory")
  end.

(** [df.to_csv(self.output_file, index=False)] *)
Definition to_csv (df : DataFrame) : M unit :=
  s <- get_state ;;
  k <- next_tick ;;
  emit (WriteCsv (output_file s)) ;;;
  match write_faults E k with
  | None => modify (set_disk (Some (Table df)))
  | Some (CannotOpen e) => raise (exn_of_io e)
  | Some (Truncated e kept) =>
      modify (set_disk (Some (Table (mkDataFrame (columns df) (firstn kept (data df)))))) ;;;
      raise (exn_of_io e)
  end.

(** The [try] body of [_save_progress]. *)
Definition save_body (force_save : bool) : M unit :=
  s <- get_state ;;
  let df := DataFrame_of (scraped_data s) in
  (if path_exists s then
     existing_df <- read_csv ;;
     let combined_df := concat existing_df df in
     to_csv combined_df
   else to_csv df) ;;;
  if force_save then logging INFO (SavedRecords (len df) (output_file s))
  else ret tt.

Definition _save_progress (force_save : bool) : M unit :=
  s <- get_state ;;
  match scraped_data s with
  | [] => ret tt
  | _ :: _ =>
      try_finally
        (try_except (save_body force_save) is_Exception
           (fun e => logging ERROR (SaveFailed e)))
        (modify (set_scraped_data []))
  end.

End Scraper.

(** ** The pipeline controller: [scrape_database] *)

Inductive stop_reason : Type :=
| MaxPagesReached
| TestModeComplete_
| PageUnavailable
| ThreeConsecutiveEmpty
| NoNextPage.

(** How the [while True] loop was left; [OutOfFuel] is a loop still running
    after the iterations granted to the model. *)
Inductive loop_exit : Type :=
| Stopped (reason : stop_reason)
| Propagated (e : exn)
| OutOfFuel.

Inductive run_result : Type :=
| Returned (total_records : nat)
| Uncaught (e : exn)
| StillRunning.

Section Controller.

Variable E : env.

(** [self.max_pages and page > self.max_pages] *)
Definition limit_reached (max_pages : option Z) (page : nat) : bool :=
  match max_pages with
  | Some m => negb (m =? 0)%Z && (m <? Z.of_nat page)%Z
  | None => false
  end.

Definition page_url (page : nat) : string :=
  if 1 <? page
  then String.append BASE_URL (String.append "?page=" (Text.str_of_nat page))
  else BASE_URL.

(** From the politeness delay to the fetch. *)
Definition fetch_page (page : nat) : M (option response) :=
  delay <- _get_random_delay E ;;
  time_sleep E delay ;;;
  _request_with_retry E (page_url page).

(** [not response]: [None], or a response whose [ok] is false. *)
Definition unavailable (r : option response) : bool :=
  match r with
  | Some resp => negb (response_ok resp)
  | None => true
  end.

(** From the periodic save to the next-page test; [true] means go on. *)
Definition after_page (page : nat) (body : string) : M bool :=
  (if page mod SAVE_INTERVAL =? 0 then _save_progress E false else ret tt) ;;;
  match Dom.find_with "a" "rel" "next" (BeautifulSoup E body) with
  | None => logging INFO NoMorePages ;;; ret false
  | Some _ => ret true
  end.

Fixpoint scrape_loop (fuel page total_records consecutive_empty : nat)
    (s : state) : loop_exit * nat * state :=
  match fuel with
  | 0 => (OutOfFuel, total_records, s)
  | S fuel' =>
      if limit_reached (max_pages s) page then
        (Stopped MaxPagesReached, total_records,
         do_log INFO (ReachedMaxPages (match max_pages s with Some m => m | None => 0%Z end)) s)
      else if test_mode s && (2 <? page) then
        (Stopped TestModeComplete_, total_records, do_log INFO TestModeComplete s)
      else
        match fetch_page page s with
        | (Raise e, s1) => (Propagated e, total_records, s1)
        | (Ok fetched, s1) =>
            match fetched with
            | Some response =>
                if unavailable fetched then
                  (Stopped PageUnavailable, total_records,
                   do_log ERROR (FailedToRetrieve page) s1)
                else
                  match _parse_page E (text response) s1 with
                  | (Raise e, s2) => (Propagated e, total_records, s2)
                  | (Ok page_data, s2) =>
                      let continue (total_records consecutive_empty : nat) (s3 : state) :=
                        match after_page page (text response) s3 with
                        | (Raise e, s4) => (Propagated e, total_records, s4)
                        | (Ok false, s4) => (Stopped NoNextPage, total_records, s4)
                        | (Ok true, s4) =>
                            scrape_loop fuel' (page + 1) total_records consecutive_empty s4
                        end in
                      match page_data with
                      | [] =>
                          if 3 <=? consecutive_empty + 1 then
                            (Stopped ThreeConsecutiveEmpty, total_records,
                             do_log INFO ThreeEmptyPages s2)
                          else continue total_records (consecutive_empty + 1) s2
                      | _ :: _ =>
                          continue (total_records + List.length page_data) 0
                            (set_scraped_data (scraped_data s2 ++ page_data) s2)
                      end
                  end
            | None =>
                (Stopped PageUnavailable, total_records,
                 do_log ERROR (FailedToRetrieve page) s1)
            end
        end
  end.

(** [self.session.close()] *)
Definition session_close : M unit :=
  emit SessionClose ;;; modify (set_session_open false).

(** The [finally] block. *)
Definition cleanup (total_records : nat) : M unit :=
  _save_progress E true ;;;
  logging INFO (ScrapingComplete total_records) ;;;
  session_close.

(** The two [except] clauses: the exception still pending afterwards, and
    the state after the handler's log line. *)
Definition handle_exit (x : loop_exit) (s : state) : option exn * state :=
  match x with
  | Propagated e =>
      if is_KeyboardInterrupt e then (None, do_log INFO InterruptedByUser s)
      else if is_Exception e then (None, do_log ERROR (CriticalError e) s)
      else (Some e, s)
  | _ => (None, s)
  end.

Definition scrape_database (fuel : nat) (s : state) : run_result * state :=
  match scrape_loop fuel 1 0 0 (do_log INFO Starting s) with
  | (OutOfFuel, _, s1) => (StillRunning, s1)
  | (x, total_records, s1) =>
      let (pending, s2) := handle_exit x s1 in
      match cleanup total_records s2 with
      | (Raise e, s3) => (Uncaught e, s3)
      | (Ok _, s3) =>
          match pending with
          | Some e => (Uncaught e, s3)
          | None => (Returned total_records, s3)
          end
      end
  end.

End Controller.

(** ** Search: [search_database] *)

Section Search.

Variable E : env.

(** [row.astype(str).str.contains(keyword, case=False).any()], with the
    keyword already compiled. *)
Definition cell_matches (search : string -> bool) (c : cell) : bool :=
  match astype_str (na_text E) c with
  | Some t => search t
  | None => false
  end.

Definition row_mask (pat : Re.compiled) (row : list cell) : result bool :=
  match pat with
  | Re.Compiled r => Ok (existsb (cell_matches (Re.re_search true r)) row)
  | Re.Foreign search => Ok (existsb (cell_matches search) row)
  | _ => Raise re_error
  end.

(** [df[df.apply(..., axis=1)]] *)
Fixpoint select (pat : Re.compiled) (rows : list (list cell))
  : result (list (list cell)) :=
  match rows with
  | [] => Ok []
  | row :: rest =>
      match row_mask pat row with
      | Raise e => Raise e
      | Ok b =>
          match select pat rest with
          | Raise e => Raise e
          | Ok kept => Ok (if b then row :: kept else kept)
          end
      end
  end.

(** [df.empty] *)
Definition empty (df : DataFrame) : bool :=
  (len df =? 0) || (List.length (columns df) =? 0).

(** [df.to_dict('records')] *)
Definition to_dict (df : DataFrame) : list (list (string * cell)) :=
  map (combine (columns df)) (data df).

Definition console_columns : list string :=
  ["index"; "address"; "balance"; "private_key"; "details_url"].

(** [df[cols]]; a column the frame lacks raises [KeyError]. *)
Definition select_columns (cols : list string) (df : DataFrame) : M DataFrame :=
  match filter (fun c => negb (existsb (String.eqb c) (columns df))) cols with
  | [] => ret (mkDataFrame cols (map (reindex (columns df) cols) (data df)))
  | missing :: _ => raise (KeyError missing)
  end.

(** What [read_csv] finds in a file that holds the export [x]. *)
Definition as_dataset (x : export) : file :=
  match x with
  | CsvExport df => Table df
  | JsonExport rows => read_json_as_csv E rows
  end.

(** The file at [path] now holds [x]; when [path] is [output_file] itself,
    that is the dataset. *)
Definition store_export (path : string) (x : export) : M unit :=
  modify (fun s =>
            if String.eqb path (output_file s)
            then set_disk (Some (as_dataset x)) s
            else set_exports (exports s ++ [(path, x)]) s).

(** Writing an export file, under the disk-fault oracle. *)
Definition write_export (path : string) (ev : event) (whole : export)
    (partial : nat -> export) : M unit :=
  k <- next_tick ;;
  emit ev ;;;
  match write_faults E k with
  | None => store_export path whole
  | Some (CannotOpen e) => raise (exn_of_io e)
  | Some (Truncated e kept) =>
      store_export path (partial kept) ;;;
      raise (exn_of_io e)
  end.

(** The [try] body of [search_database]. *)
Definition search_body (pat : Re.compiled) (keyword output_format : string)
  : M (list (list (string * cell))) :=
  df <- read_csv ;;
  match select pat (data df) with
  | Raise e => raise e
  | Ok kept =>
      let results := mkDataFrame (columns df) kept in
      if empty results then
        logging INFO NoMatchingRecords ;;; ret []
      else
        (if String.eqb output_format "console" then
           emit (Print (String Text.LF "Search Results:")) ;;;
           shown <- select_columns console_columns results ;;
           emit (PrintResults shown)
         else if String.eqb output_format "csv" then
           let output_file :=
             String.append "search_results_" (String.append keyword ".csv") in
           write_export output_file (WriteCsv output_file) (CsvExport results)
             (fun kept => CsvExport (mkDataFrame (columns results) (firstn kept (data results)))) ;;;
           logging INFO (ResultsSaved output_file)
         else if String.eqb output_format "json" then
           let output_file :=
             String.append "search_results_" (String.append keyword ".json") in
           write_export output_file (WriteJson output_file) (JsonExport (to_dict results))
             (fun kept => JsonExport (firstn kept (to_dict results))) ;;;
           logging INFO (ResultsSaved output_file)
         else ret tt) ;;;
        logging INFO (FoundRecords (len results)) ;;;
        ret (to_dict results)
  end.

Definition search_with (pat : Re.compiled) (keyword output_format : string)
  : M (list (list (string * cell))) :=
  logging INFO (Searching keyword) ;;;
  s <- get_state ;;
  if negb (path_exists s) then
    logging ERROR DatabaseNotFound ;;; ret []
  else
    try_except (search_body pat keyword output_format) is_Exception
      (fun e => logging ERROR (SearchFailed e) ;;; ret []).

(** The pattern [str.contains] searches with: the modelled one, or for a
    keyword outside the modelled fragment what [re] makes of it. *)
Definition pattern_of (keyword : string) : Re.compiled :=
  match Re.re_compile keyword with
  | Re.Unmodelled =>
      match re_engine E keyword with
      | Some search => Re.Foreign search
      | None => Re.ReError
      end
  | pat => pat
  end.

(** The result is [Some] for every keyword. *)
Definition search_database (keyword output_format : string) (s : state)
  : option (result (list (list (string * cell))) * state) :=
  Some (search_with (pattern_of keyword) keyword output_format s).

End Search.

(** ** Fixtures: a small site and a stub environment *)

Definition td (s : string) : Dom.node := Dom.Tag "td" [] [] [Dom.Text s].

Definition th (s : string) : Dom.node := Dom.Tag "th" [] [] [Dom.Text s].

Definition tr (cells : list Dom.node) : Dom.node := Dom.Tag "tr" [] [] cells.

(** A fifth cell holding [<a href=...>] or, with [None], a bare [<a>]. *)
Definition link_td (href : option string) : Dom.node :=
  Dom.Tag "td" [] []
    [Dom.Tag "a" []
       match href with
       | Some h => [("href", h)]
       | None => []
       end
       [Dom.Text "Details"]].

Definition header_row : Dom.node :=
  tr [th "#"; th "Address"; th "Balance"; th "Private key"; th "Details"].

Definition key_table (rows : list Dom.node) : Dom.node :=
  Dom.Tag "table" [("class", ["table"; "table-striped"])] [] (header_row :: rows).

Definition next_link : Dom.node :=
  Dom.Tag "a" [("rel", ["next"])] [("href", "?page=2")] [Dom.Text "Next"].

Definition document (children : list Dom.node) : Dom.node :=
  Dom.Tag "[document]" [] [] children.

Definition genesis : string := "1A1zP1eP5QGefi2DMPTfTL5SLmv7DivfNa".

Definition good_row : Dom.node :=
  tr [td "1"; td (String.append " " genesis); td "0 BTC"; td "5HpHag"; link_td (Some "1")].

Definition bad_address_row : Dom.node :=
  tr [td "2"; td "not-an-address"; td "0 BTC"; td "5HpHag"; link_td (Some "2")].

Definition bare_anchor_row : Dom.node :=
  tr [td "3"; td genesis; td "0 BTC"; td "5HpHag"; link_td None].

(** Page bodies of the stub site and the trees the stub parser gives them. *)
Definition body_full : string := "<table class='table table-striped'> full".
Definition body_last : string := "<table class='table table-striped'> last".
Definition body_empty : string := "<table class='table table-striped'> empty".
Definition body_bare : string := "<table class='table table-striped'> bare".

Definition stub_soup (html : string) : Dom.node :=
  if String.eqb html body_full then
    document [key_table [good_row; bad_address_row]; next_link]
  else if String.eqb html body_last then
    document [key_table [good_row]]
  else if String.eqb html body_empty then
    document [key_table []; next_link]
  else if String.eqb html body_bare then
    document [key_table [bare_anchor_row]; next_link]
  else document [].

(** The stub's [re]: it knows one pattern outside the modelled fragment. *)
Definition stub_engine (pat : string) : option (string -> bool) :=
  if String.eqb pat "(satoshi|nakamoto)" then
    Some (fun t => Text.contains "satoshi" (Text.lower t)
                   || Text.contains "nakamoto" (Text.lower t))
  else None.

Definition stub_env (get : nat -> string -> get_outcome)
    (faults : nat -> option write_fault) : env :=
  mkEnv stub_soup
    (fun base href => Some (String.append base href))
    (fun _ => "2024-01-01T00:00:00")
    (fun _ => "Mozilla/5.0")
    (fun _ => 1 # 2)
    get
    (fun _ => false)
    faults
    stub_engine
    (Some "nan")
    (fun _ => Unreadable IoParser).

Definition no_faults : nat -> option write_fault := fun _ => None.

Definition always (body : string) : nat -> string -> get_outcome :=
  fun _ _ => Responded (mkResponse 200 body).

Definition stored (r : record) : state :=
  set_scraped_data [r] (__init__ "bitcoin_keys.csv" None false None None).

Definition sample_record : record :=
  mkRecord "1" genesis "0 BTC" "5HpHag" "https://x/1" "2024-01-01T00:00:00".

(** The error a failed write raises. *)
Definition fault_error (f : write_fault) : io_error :=
  match f with
  | CannotOpen e => e
  | Truncated e _ => e
  end.

Definition read_only_disk : nat -> option write_fault :=
  fun _ => Some (CannotOpen (IoOS "Permission denied")).

Definition old_table : DataFrame :=
  mkDataFrame record_columns
    [[Some "7"; Some "3J98t1WpEZ73CNmQviecrnyiWrnqRhWNLy"; Some "1 BTC";
      Some "KwDiBf"; None; Some "2023-12-31T00:00:00"]].

(** ** The address pattern, as the specification words it *)

(** One of [a-z], [A-H], [J-N], [P-Z], [0-9]. *)
Definition base58_like (c : ascii) : Prop :=
  97 <= Text.code c <= 122 \/ 65 <= Text.code c <= 72 \/
  74 <= Text.code c <= 78 \/ 80 <= Text.code c <= 90 \/
  48 <= Text.code c <= 57.

(** A prefix [bc1], [1] or [3], then 25 to 90 characters of the alphabet. *)
Definition address_pattern (a : string) : Prop :=
  exists prefix body,
    a = (prefix ++ body)%string /\
    (prefix = "bc1" \/ prefix = "1" \/ prefix = "3") /\
    25 <= String.length body <= 90 /\
    Forall base58_like (Text.chars body).

(** ** Vocabulary of the properties *)

(** The rows [_parse_page] iterates over: every [tr] of the table but the
    first. *)
Definition data_rows (E : env) (html : string) : list Dom.node :=
  match Dom.find_with "table" "class" "table-striped" (BeautifulSoup E html) with
  | Some table => tl (Dom.find_all "tr" table)
  | None => []
  end.

Definition has_five_cells (row : Dom.node) : bool :=
  negb (List.length (Dom.find_all "td" row) <? 5).

(** [cols[1].text.strip()] *)
Definition row_address (row : Dom.node) : string :=
  cell_text (Dom.find_all "td" row) 1.

Definition valid_record (r : record) : Prop := address_pattern (address r).

(** The cell of a row under the column [name]. *)
Definition cell_at (cols : list string) (name : string) (row : list cell) : cell :=
  join_cell (Dom.lookup name (combine cols row)).

Definition valid_row (cols : list string) (row : list cell) : Prop :=
  exists a, cell_at cols "address" row = Some a /\ address_pattern a.

(** Every row of the file, if it is a readable table, has a valid address. *)
Definition disk_ok (d : option file) : Prop :=
  match d with
  | Some (Table df) => Forall (valid_row (columns df)) (data df)
  | _ => True
  end.

Definition store_ok (s : state) : Prop :=
  Forall valid_record (scraped_data s) /\ disk_ok (disk s).

(** A computation keeps a relation between the state before and after. *)
Definition keeps {A : Type} (R : state -> state -> Prop) (m : M A) : Prop :=
  forall s, R s (snd (m s)).

(** Only the log, the trace, the tick and the proxy cursor moved. *)
Definition untouched (s s' : state) : Prop :=
  output_file s' = output_file s /\ max_pages s' = max_pages s /\
  test_mode s' = test_mode s /\ proxy s' = proxy s /\ proxies s' = proxies s /\
  scraped_data s' = scraped_data s /\ session_open s' = session_open s /\
  disk s' = disk s /\ exports s' = exports s.

(** The constructor arguments are as they were. *)
Definition same_config (s s' : state) : Prop :=
  output_file s' = output_file s /\ max_pages s' = max_pages s /\
  test_mode s' = test_mode s.

(** A scraper just constructed with the defaults, no file on disk. *)
Definition fresh : state := __init__ "bitcoin_keys.csv" None false None None.

(** The sleeps and the number of requests recorded in a trace. *)
Definition sleeps_of (t : list event) : list Q :=
  flat_map (fun e => match e with Sleep q => [q] | _ => [] end) t.

Definition requests_in (t : list event) : nat :=
  List.length (filter (fun e => match e with Get _ _ _ => true | _ => false end) t).

(** Within one call of [_request_with_retry] entered at tick [t], attempt
    [i] draws its user agent at [t + 4 i], asks [session.get] at
    [t + 4 i + 1] and, when it fails, draws its jitter at [t + 4 i + 2] and
    sleeps at [t + 4 i + 3]. *)
Definition get_tick (t i : nat) : nat := t + 4 * i + 1.
Definition jitter_tick (t i : nat) : nat := t + 4 * i + 2.

(** Attempt [i] ends in an exception that the [except] clause catches. *)
Definition attempt_fails (E : env) (url : string) (t i : nat) : Prop :=
  exists e, classify (session_get E (get_tick t i) url) = inl e /\
            fetch_catches e = true.

(** A site that times out on the first three requests. *)
Definition flaky (body : string) : nat -> string -> get_outcome :=
  fun k _ => if k <? 13 then GetRaised Timeout else Responded (mkResponse 200 body).

Definition down : nat -> string -> get_outcome := fun _ _ => GetRaised ConnectionError.

(** A challenge page served with status 200 in place of the listing. *)
Definition body_challenge : string :=
  "<title>Just a moment...</title> Checking your browser - Cloudflare".

(** Whether the page body holds [<a rel="next">]. *)
Definition has_next (E : env) (body : string) : bool :=
  match Dom.find_with "a" "rel" "next" (BeautifulSoup E body) with
  | Some _ => true
  | None => false
  end.

(** A response the fetcher accepts, whose page yields no record and still
    links to a next page. *)
Definition empty_page_with_next (E : env) (r : response) : Prop :=
  classify (Responded r) = inr r /\
  has_next E (text r) = true /\
  forall s, fst (_parse_page E (text r) s) = Ok [].

(** The claim on the page-count limit, for a limit [m]: whenever the page
    number exceeds [m], the iteration stops on the limit. *)
Definition limit_stops_the_run (E : env) (m : Z) : Prop :=
  forall fuel page total consecutive_empty s,
    max_pages s = Some m ->
    (m < Z.of_nat page)%Z ->
    fst (fst (scrape_loop E (S fuel) page total consecutive_empty s))
      = Stopped MaxPagesReached.

Definition limited (m : Z) : state :=
  __init__ "bitcoin_keys.csv" (Some m) false None None.

(** The number of rows a readable file holds; an absent file holds none. *)
Definition rows_on_disk (d : option file) : nat :=
  match d with
  | Some (Table df) => len df
  | _ => 0
  end.

Definition readable_or_absent (d : option file) : Prop :=
  match d with
  | Some (Unreadable _) => False
  | _ => True
  end.

(** The rows on disk and the records still buffered add up to [n]. *)
Definition accounted (n : nat) (s : state) : Prop :=
  readable_or_absent (disk s) /\
  rows_on_disk (disk s) + List.length (scraped_data s) = n.

Definition interrupted : nat -> string -> get_outcome :=
  fun k _ => if k <? 5 then Responded (mkResponse 200 body_full)
             else GetRaised KeyboardInterrupt.

(** The rows the specification asks of a search: those with a column whose
    string form contains the keyword, case ignored. *)
Definition contains_keyword (keyword : string) (row : list cell) : bool :=
  existsb (fun c => match c with
                    | Some t => Text.contains (Text.lower keyword) (Text.lower t)
                    | None => false
                    end) row.

Definition expected_rows (keyword : string) (df : DataFrame) : list (list cell) :=
  filter (contains_keyword keyword) (data df).


Definition ledger : DataFrame :=
  mkDataFrame record_columns
    [[Some "1"; Some "1A1zP1eP5QGefi2DMPTfTL5SLmv7DivfNa"; Some "0.5 BTC";
      Some "5HpHag"; Some "https://x/?page=1"; Some "2024-01-01T00:00:00"];
     [Some "2"; Some "3J98t1WpEZ73CNmQviecrnyiWrnqRhWNLy"; Some "015 BTC";
      Some "KwDiBf"; None; Some "2024-01-02T00:00:00"]].

Definition with_ledger : state :=
  __init__ "bitcoin_keys.csv" None false None (Some (Table ledger)).



(** ** Further vocabulary *)

(** The state after [k] calls of [_rotate_proxy]. *)
Fixpoint rotate_times (k : nat) (s : state) : state :=
  match k with
  | 0 => s
  | S k' => rotate_times k' (snd (_rotate_proxy s))
  end.

(** A scraper with a pool of three proxies, in rotation mode. *)
Definition pooled : state :=
  set_proxy_index 2
    (mkState "bitcoin_keys.csv" None false (Some "auto")
       ["http://p0"; "http://p1"; "http://p2"] [] 0 true None [] [] [] 0).

(** The trace only grows, and every new event satisfies [P]. *)
Definition grows (P : event -> Prop) (s s' : state) : Prop :=
  exists more, trace s' = trace s ++ more /\ Forall P more.

(** The seconds slept in a list of sleeps. *)
Definition total_seconds (l : list Q) : Q := fold_right Qplus 0%Q l.

(** A scraper given one fixed proxy on the command line. *)
Definition via_proxy (p : string) : state :=
  __init__ "bitcoin_keys.csv" None false (Some p) None.

Definition crashing : nat -> string -> get_outcome :=
  fun _ _ => GetRaised (KeyError "Location").

(** The events a run of [scrape_database] on the scraper [s] may add to the
    trace: sleeps, requests for a listing page that neither the page limit
    nor the test-mode cap excludes, reads and writes of [output_file], and
    the closing of the session. *)
Definition run_event (s : state) (e : event) : Prop :=
  match e with
  | Sleep _ => True
  | Get url _ _ =>
      exists page, 1 <= page /\ url = page_url page /\
                   limit_reached (max_pages s) page = false /\
                   (test_mode s && (2 <? page)) = false
  | ReadCsv path => path = output_file s
  | WriteCsv path => path = output_file s
  | SessionClose => True
  | _ => False
  end.

(** A scraper in test mode. *)
Definition testing : state := __init__ "bitcoin_keys.csv" None true None None.

(** Whether an event is a file operation. *)
Definition touches_file (e : event) : bool :=
  match e with
  | ReadCsv _ | WriteCsv _ | WriteJson _ => true
  | _ => false
  end.

(** ** The command line: [main] *)

(** The namespace that [parser.parse_args()] returns. *)
Module Args.

Record t : Type := mk {
  scrape : bool;
  max_pages : option Z;
  test : bool;
  search : option string;
  output : string;
  format : string;
  proxy : string
}.


End Args.

(** What [main] did: ran the scraper, ran a search, or printed the help
    and the two examples. *)
Inductive main_outcome : Type :=
| Scraped (r : run_result)
| Searched (r : result (list (list (string * cell))))
| HelpPrinted.

(** [BitcoinPrivateKeyScraper(output_file=args.output, ...)] in a world whose
    disk holds [d]. *)
Definition scraper_of (args : Args.t) (d : option file) : state :=
  __init__ (Args.output args) (Args.max_pages args) (Args.test args)
    (Some (Args.proxy args)) d.

(** [main], from the parsed arguments on. *)
Definition main (E : env) (fuel : nat) (args : Args.t) (d : option file)
  : option (main_outcome * state) :=
  let scraper := scraper_of args d in
  if Args.scrape args then
    let (r, s) := scrape_database E fuel scraper in Some (Scraped r, s)
  else
    match Args.search args with
    | Some keyword =>
        if nonempty keyword then
          match search_database E keyword (Args.format args) scraper with
          | Some (r, s) => Some (Searched r, s)
          | None => None
          end
        else Some (HelpPrinted, scraper)
    | None => Some (HelpPrinted, scraper)
    end.


(** The proxy setting and the pool are as they were. *)
Definition same_proxy (s s' : state) : Prop :=
  proxy s' = proxy s /\ proxies s' = proxies s.





(* ===================================================================== *)
(** * Part II: properties                                                 *)
(* ===================================================================== *)

Example address_genesis :
  address_matches "1A1zP1eP5QGefi2DMPTfTL5SLmv7DivfNa" = true.
Proof. reflexivity. Qed.

Example address_short : address_matches "1A1zP1eP5QGefi2DMPTfTL5S" = false.
Proof. reflexivity. Qed.

Example address_letter_O : address_matches "1O1zP1eP5QGefi2DMPTfTL5SLmv7DivfNa" = false.
Proof. reflexivity. Qed.

(** ** Text and the address pattern *)

Import Text.

Lemma chars_append (a b : string) : chars (a ++ b)%string = chars a ++ chars b.
Proof.
  unfold chars. induction a as [|c a IH]; cbn.
  - reflexivity.
  - rewrite IH. reflexivity.
Qed.

Lemma chars_of_chars (l : list ascii) : chars (of_chars l) = l.
Proof. apply list_ascii_of_string_of_list_ascii. Qed.

Lemma of_chars_chars (s : string) : of_chars (chars s) = s.
Proof. apply string_of_list_ascii_of_string. Qed.

Lemma chars_length (s : string) : List.length (chars s) = String.length s.
Proof. induction s as [|c s IH]; cbn; [reflexivity | now rewrite <- IH]. Qed.

Lemma lstrip_head (l : list ascii) :
  match lstrip_chars l with
  | [] => True
  | c :: _ => isspace c = false
  end.
Proof.
  induction l as [|c l IH]; cbn; [exact I|].
  destruct (isspace c) eqn:Hc; [exact IH | exact Hc].
Qed.

Lemma rstrip_last (l body : list ascii) (x : ascii) :
  rstrip_chars l = body ++ [x] -> isspace x = false.
Proof.
  unfold rstrip_chars. intros H.
  pose proof (lstrip_head (rev l)) as Hh.
  apply (f_equal (@rev ascii)) in H.
  rewrite rev_involutive, rev_app_distr in H. cbn in H.
  rewrite H in Hh. exact Hh.
Qed.

Lemma strip_no_final_newline (t a' : string) :
  strip t <> (a' ++ String LF "")%string.
Proof.
  intros H. apply (f_equal chars) in H.
  unfold strip in H. rewrite chars_of_chars, chars_append in H.
  apply rstrip_last in H. discriminate H.
Qed.

Lemma rep_class_spec (rs : list (ascii * ascii)) (k : Re.pos -> bool) :
  forall hi lo b l,
    Re.run false (Re.Rep (Re.Class rs) lo hi) (b, l) k = true <->
    exists body rest,
      l = body ++ rest /\
      lo <= List.length body <= hi /\
      forallb (Re.class_ok false rs) body = true /\
      k (match body with [] => b | _ => false end, rest) = true.
Proof.
  induction hi as [|hi IH]; intros lo b l.
  - cbn. rewrite andb_true_iff, Nat.eqb_eq. split.
    + intros [-> Hk]. exists [], l. cbn. repeat split; auto.
    + intros (body & rest & -> & [Hlo Hhi] & _ & Hk).
      destruct body; [|cbn in Hhi; lia]. cbn in *. split; [lia | exact Hk].
  - change (Re.run false (Re.Rep (Re.Class rs) lo (S hi)) (b, l) k)
      with (((lo =? 0) && k (b, l))
            || Re.one (Re.class_ok false rs) (b, l)
                 (fun q => Re.run false (Re.Rep (Re.Class rs) (pred lo) hi) q k)).
    rewrite orb_true_iff, andb_true_iff, Nat.eqb_eq. split.
    + intros [[-> Hk] | H].
      * exists [], l. cbn. repeat split; auto; lia.
      * unfold Re.one in H. cbn [snd] in H. destruct l as [|x t]; [discriminate|].
        apply andb_true_iff in H. destruct H as [Hx H].
        apply IH in H. destruct H as (body & rest & -> & [Hlo Hhi] & Hall & Hk).
        exists (x :: body), rest. cbn [List.length forallb app].
        rewrite Hx, Hall. repeat split; try lia.
        destruct body; exact Hk.
    + intros (body & rest & -> & [Hlo Hhi] & Hall & Hk).
      destruct body as [|x body].
      * left. cbn in *. split; [lia | exact Hk].
      * right. unfold Re.one. cbn [snd app]. cbn [forallb] in Hall.
        apply andb_true_iff in Hall. destruct Hall as [Hx Hall]. rewrite Hx. cbn [andb].
        apply IH. exists body, rest. cbn [List.length] in *.
        repeat split; try lia; auto.
        destruct body; exact Hk.
Qed.

Lemma class_ok_base58 (c : ascii) :
  Re.class_ok false address_alphabet c = true <-> base58_like c.
Proof.
  unfold Re.class_ok, Re.in_ranges, address_alphabet, base58_like, between.
  cbn [existsb fst snd ch andb orb].
  change (code "a") with 97. change (code "z") with 122.
  change (code "A") with 65. change (code "H") with 72.
  change (code "J") with 74. change (code "N") with 78.
  change (code "P") with 80. change (code "Z") with 90.
  change (code "0") with 48. change (code "9") with 57.
  rewrite orb_false_r.
  repeat rewrite orb_true_iff. repeat rewrite andb_true_iff.
  repeat rewrite Nat.leb_le.
  intuition discriminate.
Qed.

Lemma forallb_base58 (body : list ascii) :
  forallb (Re.class_ok false address_alphabet) body = true <->
  Forall base58_like body.
Proof.
  rewrite forallb_forall, Forall_forall.
  split; intros H c Hc; apply class_ok_base58, H, Hc.
Qed.

Lemma at_eol_cases (l : list ascii) :
  Re.at_eol l = true <-> l = [] \/ l = [LF].
Proof.
  destruct l as [|x [|y l]]; cbn.
  - intuition.
  - rewrite Ascii.eqb_eq. split.
    + intros ->. now right.
    + intros [H|H]; [discriminate | now inversion H].
  - split; [discriminate | intros [H|H]; discriminate].
Qed.

Lemma prefix_spec (k : Re.pos -> bool) (l : list ascii) :
  Re.run false (Re.Alt (Re.lit "bc1") (Re.Class [(ch "1", ch "1"); (ch "3", ch "3")]))
    (true, l) k = true <->
  exists p rest,
    l = p ++ rest /\
    (p = chars "bc1" \/ p = chars "1" \/ p = chars "3") /\
    k (false, rest) = true.
Proof.
  change (Re.run false
            (Re.Alt (Re.lit "bc1") (Re.Class [(ch "1", ch "1"); (ch "3", ch "3")]))
            (true, l) k)
    with (Re.one (Re.lit_ok false "b")
            (true, l)
            (fun q => Re.one (Re.lit_ok false "c") q
                        (fun q' => Re.one (Re.lit_ok false "1") q' k))
          || Re.one (Re.class_ok false [(ch "1", ch "1"); (ch "3", ch "3")]) (true, l) k).
  unfold Re.one, Re.lit_ok. cbn [snd].
  rewrite orb_true_iff. split.
  - intros [H | H].
    + destruct l as [|x1 [|x2 [|x3 l]]]; try discriminate H.
      * destruct (Ascii.eqb "b" x1); discriminate H.
      * destruct (Ascii.eqb "b" x1); [|discriminate H].
        destruct (Ascii.eqb "c" x2); discriminate H.
      * destruct (Ascii.eqb_spec "b" x1) as [<-|]; [|discriminate H].
        destruct (Ascii.eqb_spec "c" x2) as [<-|]; [|discriminate H].
        destruct (Ascii.eqb_spec "1" x3) as [<-|]; [|discriminate H].
        exists (chars "bc1"), l. auto.
    + destruct l as [|x l]; [discriminate H|].
      apply andb_true_iff in H. destruct H as [Hx H].
      unfold Re.class_ok, Re.in_ranges, between in Hx.
      cbn [existsb fst snd ch andb orb] in Hx.
      change (code "1") with 49 in Hx. change (code "3") with 51 in Hx.
      rewrite !orb_false_r in Hx.
      apply orb_true_iff in Hx.
      assert (Hcode : code x = 49 \/ code x = 51).
      { destruct Hx as [Hx|Hx]; apply andb_true_iff in Hx; destruct Hx as [H1 H2];
          apply Nat.leb_le in H1, H2; lia. }
      assert (Hx' : x = "1"%char \/ x = "3"%char).
      { destruct Hcode as [Hc|Hc]; [left|right];
          rewrite <- (ascii_nat_embedding x); unfold code in Hc; rewrite Hc; reflexivity. }
      destruct Hx' as [-> | ->].
      * exists (chars "1"), l. auto.
      * exists (chars "3"), l. auto.
  - intros (p & rest & -> & Hp & Hk).
    destruct Hp as [-> | [-> | ->]].
    + left. cbn [chars list_ascii_of_string app].
      rewrite !Ascii.eqb_refl. exact Hk.
    + right. cbn [chars list_ascii_of_string app].
      rewrite Hk, andb_true_r. reflexivity.
    + right. cbn [chars list_ascii_of_string app].
      rewrite Hk, andb_true_r. reflexivity.
Qed.

Lemma address_chars_spec (a : string) :
  address_matches a = true <->
  exists p body rest,
    chars a = p ++ body ++ rest /\
    (p = chars "bc1" \/ p = chars "1" \/ p = chars "3") /\
    25 <= List.length body <= 90 /\
    Forall base58_like body /\
    (rest = [] \/ rest = [LF]).
Proof.
  unfold address_matches, Re.re_match, address_re.
  change (Re.run false
            (Re.Cat Re.Bol
               (Re.Cat (Re.Alt (Re.lit "bc1") (Re.Class [(ch "1", ch "1"); (ch "3", ch "3")]))
                  (Re.Cat (Re.Rep (Re.Class address_alphabet) 25 90) Re.Eol)))
            (true, chars a) (fun _ => true))
    with (Re.run false
            (Re.Alt (Re.lit "bc1") (Re.Class [(ch "1", ch "1"); (ch "3", ch "3")]))
            (true, chars a)
            (fun q => Re.run false (Re.Rep (Re.Class address_alphabet) 25 90) q
                        (fun q' => Re.at_eol (snd q') && true))).
  rewrite prefix_spec. split.
  - intros (p & l & Heq & Hp & H).
    apply rep_class_spec in H.
    destruct H as (body & rest & -> & Hlen & Hall & Hk).
    cbn [snd] in Hk. rewrite andb_true_r in Hk.
    exists p, body, rest.
    rewrite <- forallb_base58, <- at_eol_cases. auto.
  - intros (p & body & rest & Heq & Hp & Hlen & Hall & Hrest).
    exists p, (body ++ rest). repeat split; auto.
    apply rep_class_spec. exists body, rest. cbn [snd]. rewrite andb_true_r.
    rewrite forallb_base58, at_eol_cases. auto.
Qed.

Lemma forall_chars_of_chars (P : ascii -> Prop) (l : list ascii) :
  Forall P l -> Forall P (chars (of_chars l)).
Proof. now rewrite chars_of_chars. Qed.

(** What the regular expression accepts: the pattern, possibly followed by
    one final newline, which [$] tolerates. *)
Lemma address_matches_spec (a : string) :
  address_matches a = true <->
  address_pattern a \/
  exists a', a = (a' ++ String LF "")%string /\ address_pattern a'.
Proof.
  rewrite address_chars_spec. split.
  - intros (p & body & rest & Heq & Hp & Hlen & Hall & Hrest).
    assert (Hpat : address_pattern (of_chars (p ++ body))).
    { exists (of_chars p), (of_chars body). repeat split.
      - apply (f_equal of_chars) in Heq.
        rewrite <- (of_chars_chars (of_chars p ++ of_chars body)%string).
        now rewrite chars_append, !chars_of_chars.
      - destruct Hp as [-> | [-> | ->]]; auto.
      - rewrite <- chars_length, chars_of_chars. apply Hlen.
      - rewrite <- chars_length, chars_of_chars. apply Hlen.
      - now rewrite chars_of_chars. }
    destruct Hrest as [-> | ->].
    + left. rewrite app_nil_r in Heq. rewrite <- Heq, of_chars_chars in Hpat.
      exact Hpat.
    + right. exists (of_chars (p ++ body)). split; [|exact Hpat].
      rewrite <- (of_chars_chars a), Heq.
      rewrite <- (of_chars_chars (of_chars (p ++ body) ++ String LF "")%string).
      rewrite chars_append, chars_of_chars, app_assoc. reflexivity.
  - intros [Hpat | (a' & -> & Hpat)];
      destruct Hpat as (prefix & body & -> & Hp & Hlen & Hall).
    + exists (chars prefix), (chars body), [].
      rewrite chars_append, app_nil_r, chars_length.
      repeat split; auto; try apply Hlen.
      destruct Hp as [-> | [-> | ->]]; auto.
    + exists (chars prefix), (chars body), [LF].
      rewrite !chars_append, chars_length, app_assoc.
      repeat split; auto; try apply Hlen.
      destruct Hp as [-> | [-> | ->]]; auto.
Qed.

(** On a stripped string the check is exactly the pattern. *)
Lemma address_matches_strip (t : string) :
  address_matches (strip t) = true <-> address_pattern (strip t).
Proof.
  rewrite address_matches_spec. split.
  - intros [H | (a' & Heq & _)]; [exact H|].
    exfalso. exact (strip_no_final_newline t a' Heq).
  - intros H. now left.
Qed.

(** ** Exceptions and the monad *)

Lemma io_errors_are_Exceptions (e : io_error) : is_Exception (exn_of_io e) = true.
Proof. destruct e; reflexivity. Qed.

Ltac open_state s :=
  destruct s as [ofile mp tm px pxs sd pi so d ex lg trc tk]; cbn in *.

Ltac unfold_store :=
  unfold _save_progress, try_finally, try_except, save_body, read_csv, to_csv,
    bind, get_state, path_exists, emit, logging, modify, next_tick, ret, raise;
  cbn.

(** ** The store: [_save_progress] *)

Lemma _save_progress_cases (E : env) (force_save : bool) (s : state) :
  scraped_data s <> [] ->
  let s' := snd (_save_progress E force_save s) in
  fst (_save_progress E force_save s) = Ok tt /\
  scraped_data s' = [] /\
  match disk s with
  | Some (Unreadable e) =>
      disk s' = disk s /\ tick s' = tick s /\
      trace s' = trace s ++ [ReadCsv (output_file s)] /\
      log s' = log s ++ [(ERROR, SaveFailed (exn_of_io e))]
  | d =>
      let old := match d with Some (Table df) => df | _ => mkDataFrame [] [] end in
      let new := match d with
                 | Some _ => concat old (DataFrame_of (scraped_data s))
                 | None => DataFrame_of (scraped_data s)
                 end in
      tick s' = S (tick s) /\
      match write_faults E (tick s) with
      | None =>
          disk s' = Some (Table new) /\
          log s' = log s ++ (if force_save
                             then [(INFO, SavedRecords (List.length (scraped_data s)) (output_file s))]
                             else [])
      | Some f =>
          log s' = log s ++ [(ERROR, SaveFailed (exn_of_io (fault_error f)))] /\
          disk s' = match f with
                    | CannotOpen _ => disk s
                    | Truncated _ kept =>
                        Some (Table (mkDataFrame (columns new) (firstn kept (data new))))
                    end
      end
  end.
Proof.
  intros H. open_state s.
  destruct sd as [|r0 sd]; [congruence|].
  unfold_store.
  destruct d as [[df|e]|]; cbn.
  - destruct (write_faults E tk) as [[e|e k]|]; cbn;
      rewrite ?io_errors_are_Exceptions; cbn.
    + repeat split.
    + repeat split.
    + destruct force_save; cbn; rewrite ?app_nil_r, ?length_map; repeat split.
  - rewrite io_errors_are_Exceptions; cbn. repeat split.
  - destruct (write_faults E tk) as [[e|e k]|]; cbn;
      rewrite ?io_errors_are_Exceptions; cbn.
    + repeat split.
    + repeat split.
    + destruct force_save; cbn; rewrite ?app_nil_r, ?length_map; repeat split.
Qed.



(** C3. Flushing an empty buffer returns at once: the call does not raise
    and the whole state is untouched, so the file is neither read nor
    written and no trace event or log line is added. *)
Theorem flush_of_empty_buffer_is_noop (E : env) (force_save : bool) (s : state) :
  scraped_data s = [] ->
  _save_progress E force_save s = (Ok tt, s) /\
  disk (snd (_save_progress E force_save s)) = disk s /\
  trace (snd (_save_progress E force_save s)) = trace s.
Proof.
  intros H.
  assert (Hrun : _save_progress E force_save s = (Ok tt, s)).
  { unfold _save_progress, bind, get_state. rewrite H. reflexivity. }
  rewrite Hrun. repeat split.
Qed.

Lemma flush_of_empty_buffer_is_noop_witness :
  scraped_data (__init__ "bitcoin_keys.csv" None false None (Some (Table old_table))) = [] /\
  _save_progress (stub_env (always body_full) read_only_disk) true
    (__init__ "bitcoin_keys.csv" None false None (Some (Table old_table)))
  = (Ok tt, __init__ "bitcoin_keys.csv" None false None (Some (Table old_table))).
Proof.
  split; [reflexivity|].
  apply (flush_of_empty_buffer_is_noop
           (stub_env (always body_full) read_only_disk) true
           (__init__ "bitcoin_keys.csv" None false None (Some (Table old_table)))).
  reflexivity.
Defined.



(** C4. A flush of a non-empty buffer never raises and always ends with an
    empty buffer.  When the file cannot be read, or the write fails, the
    error is logged as "Failed to save progress"; when nothing could be
    written (unreadable file, or a file that cannot be opened) the file is
    as before, so the buffered records are gone. *)
Theorem flush_failure_is_logged_and_swallowed
    (E : env) (force_save : bool) (s : state) :
  scraped_data s <> [] ->
  fst (_save_progress E force_save s) = Ok tt /\
  scraped_data (snd (_save_progress E force_save s)) = [] /\
  (forall e,
      disk s = Some (Unreadable e) ->
      log (snd (_save_progress E force_save s))
        = log s ++ [(ERROR, SaveFailed (exn_of_io e))] /\
      disk (snd (_save_progress E force_save s)) = disk s) /\
  (forall f,
      (forall e, disk s <> Some (Unreadable e)) ->
      write_faults E (tick s) = Some f ->
      log (snd (_save_progress E force_save s))
        = log s ++ [(ERROR, SaveFailed (exn_of_io (fault_error f)))] /\
      (forall e, f = CannotOpen e ->
                 disk (snd (_save_progress E force_save s)) = disk s)).
Proof.
  intros Hbuf.
  pose proof (_save_progress_cases E force_save s Hbuf) as (Hok & Hclear & Hcases).
  split; [exact Hok|]. split; [exact Hclear|]. split.
  - intros e Hdisk. rewrite Hdisk in Hcases.
    destruct Hcases as (Hd & _ & _ & Hlog). rewrite Hdisk. split; assumption.
  - intros f Hreadable Hfault.
    destruct (disk s) as [[df|e]|] eqn:Hdisk.
    + rewrite Hfault in Hcases. destruct Hcases as (_ & Hlog & Hd).
      split; [exact Hlog|]. intros e ->. exact Hd.
    + exfalso. apply (Hreadable e). reflexivity.
    + rewrite Hfault in Hcases. destruct Hcases as (_ & Hlog & Hd).
      split; [exact Hlog|]. intros e ->. exact Hd.
Qed.

Lemma flush_failure_is_logged_and_swallowed_witness :
  scraped_data (stored sample_record) <> [] /\
  fst (_save_progress (stub_env (always body_full) read_only_disk) false
         (stored sample_record)) = Ok tt /\
  scraped_data (snd (_save_progress (stub_env (always body_full) read_only_disk) false
                       (stored sample_record))) = [].
Proof.
  split; [discriminate|].
  destruct (flush_failure_is_logged_and_swallowed
              (stub_env (always body_full) read_only_disk) false
              (stored sample_record))
    as (Hok & Hclear & _); [discriminate|].
  split; assumption.
Defined.
(** ** Frame rules *)

Section Frame.

Variable R : state -> state -> Prop.
Hypothesis R_refl : forall s, R s s.
Hypothesis R_trans : forall a b c, R a b -> R b c -> R a c.
Hypothesis R_log : forall v s, R s (set_log v s).
Hypothesis R_trace : forall v s, R s (set_trace v s).
Hypothesis R_tick : forall v s, R s (set_tick v s).
Hypothesis R_proxy_index : forall v s, R s (set_proxy_index v s).

Lemma keeps_ret {A : Type} (a : A) : keeps R (ret a).
Proof. intros s. apply R_refl. Qed.

Lemma keeps_raise {A : Type} (e : exn) : keeps R (@raise A e).
Proof. intros s. apply R_refl. Qed.

Lemma keeps_bind {A B : Type} (m : M A) (k : A -> M B) :
  keeps R m -> (forall a, keeps R (k a)) -> keeps R (bind m k).
Proof.
  intros Hm Hk s. unfold bind. specialize (Hm s).
  destruct (m s) as [[a|e] s1]; cbn in *.
  - eapply R_trans; [exact Hm | apply Hk].
  - exact Hm.
Qed.

Lemma keeps_try_except {A : Type} (m : M A) (c : exn -> bool) (h : exn -> M A) :
  keeps R m -> (forall e, keeps R (h e)) -> keeps R (try_except m c h).
Proof.
  intros Hm Hh s. unfold try_except. specialize (Hm s).
  destruct (m s) as [[a|e] s1]; cbn in *.
  - exact Hm.
  - destruct (c e); [eapply R_trans; [exact Hm | apply Hh] | exact Hm].
Qed.

Lemma keeps_try_finally {A : Type} (m : M A) (f : M unit) :
  keeps R m -> keeps R f -> keeps R (try_finally m f).
Proof.
  intros Hm Hf s. unfold try_finally. specialize (Hm s).
  destruct (m s) as [r s1]. specialize (Hf s1).
  destruct (f s1) as [[u|e] s2]; cbn in *; eapply R_trans; eauto.
Qed.

Lemma keeps_get_state : keeps R get_state.
Proof. intros s. apply R_refl. Qed.

Lemma keeps_logging (l : level) (m : message) : keeps R (logging l m).
Proof. intros s. apply R_log. Qed.

Lemma keeps_emit (e : event) : keeps R (emit e).
Proof. intros s. apply R_trace. Qed.

Lemma keeps_next_tick : keeps R next_tick.
Proof. intros s. apply R_tick. Qed.

Lemma keeps_set_proxy_index (i : nat) : keeps R (modify (set_proxy_index i)).
Proof. intros s. apply R_proxy_index. Qed.

Ltac frame :=
  repeat (intros;
          first [ solve [auto 2]
                | apply keeps_ret | apply keeps_raise | apply keeps_get_state
                | apply keeps_logging | apply keeps_emit | apply keeps_next_tick
                | apply keeps_set_proxy_index
                | apply keeps_bind | apply keeps_try_except | apply keeps_try_finally
                | match goal with
                  | |- keeps _ (match ?x with _ => _ end) => destruct x
                  end ]).

Variable E : env.

Lemma keeps_time_sleep (q : Q) : keeps R (time_sleep E q).
Proof. unfold time_sleep. frame. Qed.

Lemma keeps_choose_proxies : keeps R choose_proxies.
Proof. unfold choose_proxies, _rotate_proxy. frame. Qed.

Lemma keeps_attempt_body (url : string) : keeps R (attempt_body E url).
Proof.
  unfold attempt_body, _get_user_agent. pose proof keeps_choose_proxies. frame.
Qed.

Lemma keeps_attempt_failed (attempt : nat) (e : exn) :
  keeps R (attempt_failed E attempt e).
Proof. unfold attempt_failed. pose proof keeps_time_sleep. frame. Qed.

Lemma keeps_retry_loop (url : string) (attempts : list nat) :
  keeps R (retry_loop E url attempts).
Proof.
  induction attempts as [|a rest IH]; cbn [retry_loop].
  - frame.
  - pose proof (keeps_attempt_body url). pose proof keeps_attempt_failed. frame.
Qed.

Lemma keeps_fetch_page (page : nat) : keeps R (fetch_page E page).
Proof.
  unfold fetch_page, _request_with_retry, _get_random_delay.
  pose proof keeps_time_sleep. pose proof keeps_retry_loop. frame.
Qed.

Lemma keeps_details_url_of (c : Dom.node) : keeps R (details_url_of E c).
Proof. unfold details_url_of. frame. Qed.

Lemma keeps_parse_rows (rows : list Dom.node) :
  forall acc, keeps R (parse_rows E rows acc).
Proof.
  induction rows as [|row rest IH]; intros acc; cbn [parse_rows].
  - frame.
  - pose proof keeps_details_url_of. frame.
Qed.

Lemma keeps__parse_page (html : string) : keeps R (_parse_page E html).
Proof. unfold _parse_page. pose proof keeps_parse_rows. frame. Qed.

Hypothesis R_scraped_data : forall v s, R s (set_scraped_data v s).
Hypothesis R_disk : forall v s, R s (set_disk v s).
Hypothesis R_session_open : forall v s, R s (set_session_open v s).

Lemma keeps__save_progress (force_save : bool) : keeps R (_save_progress E force_save).
Proof.
  unfold _save_progress, save_body, read_csv, to_csv.
  assert (forall v, keeps R (modify (set_scraped_data v))) by (intros v s; apply R_scraped_data).
  assert (forall v, keeps R (modify (set_disk v))) by (intros v s; apply R_disk).
  frame.
Qed.

Lemma keeps_after_page (page : nat) (body : string) : keeps R (after_page E page body).
Proof. unfold after_page. pose proof keeps__save_progress. frame. Qed.


End Frame.

(** ** The two frames used below *)

Lemma untouched_refl (s : state) : untouched s s.
Proof. repeat split. Qed.

Lemma untouched_trans (a b c : state) : untouched a b -> untouched b c -> untouched a c.
Proof.
  unfold untouched. intros H1 H2.
  decompose [and] H1. decompose [and] H2. repeat split; congruence.
Qed.

Lemma same_config_refl (s : state) : same_config s s.
Proof. repeat split. Qed.

Lemma same_config_trans (a b c : state) :
  same_config a b -> same_config b c -> same_config a c.
Proof.
  unfold same_config. intros H1 H2.
  decompose [and] H1. decompose [and] H2. repeat split; congruence.
Qed.

Lemma untouched_same_config (s s' : state) : untouched s s' -> same_config s s'.
Proof. unfold untouched, same_config. tauto. Qed.

Lemma fetch_page_untouched (E : env) (page : nat) : keeps untouched (fetch_page E page).
Proof.
  apply keeps_fetch_page;
    first [apply untouched_refl | apply untouched_trans | intros; repeat split].
Qed.

Lemma _parse_page_untouched (E : env) (html : string) :
  keeps untouched (_parse_page E html).
Proof.
  apply keeps__parse_page;
    first [apply untouched_refl | apply untouched_trans | intros; repeat split].
Qed.

Lemma after_page_same_config (E : env) (page : nat) (body : string) :
  keeps same_config (after_page E page body).
Proof.
  apply keeps_after_page;
    first [apply same_config_refl | apply same_config_trans | intros; repeat split].
Qed.

(** ** The parser: [_parse_page] *)

Lemma details_url_of_state (E : env) (c : Dom.node) (s : state) :
  snd (details_url_of E c s) = s.
Proof.
  unfold details_url_of.
  destruct (Dom.find "a" c) as [a|]; [|reflexivity].
  destruct (Dom.get_item "href" a) as [h|]; [|reflexivity].
  destruct (urljoin E BASE_URL h); reflexivity.
Qed.

Lemma parse_rows_spec (E : env) (rows : list Dom.node) :
  forall acc s recs s',
    parse_rows E rows acc s = (Ok recs, s') ->
    map address recs
      = map address acc
        ++ filter address_matches (map row_address (filter has_five_cells rows)) /\
    log s' = log s
             ++ map (fun a => (WARNING, InvalidAddress a))
                  (filter (fun a => negb (address_matches a))
                     (map row_address (filter has_five_cells rows))).
Proof.
  induction rows as [|row rest IH]; intros acc s recs s' H; cbn [parse_rows] in H.
  - inversion H; subst. cbn. now rewrite !app_nil_r.
  - cbn [filter].
    assert (Hfive : has_five_cells row
                    = negb (List.length (Dom.find_all "td" row) <? 5)) by reflexivity.
    rewrite Hfive.
    destruct (List.length (Dom.find_all "td" row) <? 5) eqn:Hshort; cbn [negb].
    + apply IH, H.
    + unfold bind at 1 in H.
      pose proof (details_url_of_state E (nth 4 (Dom.find_all "td" row) (Dom.Text "")) s) as Hs.
      destruct (details_url_of E (nth 4 (Dom.find_all "td" row) (Dom.Text "")) s)
        as [[url|e] s1]; [|discriminate H].
      cbn [snd] in Hs. subst s1.
      change (cell_text (Dom.find_all "td" row) 1) with (row_address row) in H.
      cbn [map filter].
      destruct (address_matches (row_address row)) eqn:Hm; cbn [negb] in H |- *.
      * unfold bind at 1, next_tick in H.
        apply IH in H. destruct H as [Haddr Hlog].
        rewrite map_app in Haddr. cbn [map address] in Haddr.
        rewrite <- app_assoc in Haddr. split; [exact Haddr | exact Hlog].
      * unfold bind at 1, logging, modify in H.
        apply IH in H. destruct H as [Haddr Hlog].
        split; [exact Haddr|].
        rewrite Hlog. cbn [log set_log map]. now rewrite <- app_assoc.
Qed.

Lemma _parse_page_spec (E : env) (html : string) (s : state)
    (recs : list record) (s' : state) :
  _parse_page E html s = (Ok recs, s') ->
  map address recs
    = filter address_matches (map row_address (filter has_five_cells (data_rows E html))) /\
  forall a,
    In a (map row_address (filter has_five_cells (data_rows E html))) ->
    address_matches a = false ->
    In (WARNING, InvalidAddress a) (log s').
Proof.
  unfold _parse_page, data_rows. intros H.
  destruct (Dom.find_with "table" "class" "table-striped" (BeautifulSoup E html))
    as [table|].
  - destruct (tl (Dom.find_all "tr" table)) as [|row rows] eqn:Hrows.
    + inversion H; subst. split; [reflexivity | intros a []].
    + apply parse_rows_spec in H. destruct H as [Haddr Hlog].
      split; [exact Haddr|].
      intros a Ha Hbad. rewrite Hlog. apply in_or_app. right.
      apply in_map_iff. exists a. split; [reflexivity|].
      apply filter_In. split; [exact Ha | now rewrite Hbad].
  - inversion H; subst. split; [reflexivity | intros a []].
Qed.

Lemma row_address_valid (row : Dom.node) :
  address_matches (row_address row) = true <-> address_pattern (row_address row).
Proof. unfold row_address, cell_text. apply address_matches_strip. Qed.

Lemma _parse_page_valid (E : env) (html : string) (s : state)
    (recs : list record) (s' : state) :
  _parse_page E html s = (Ok recs, s') -> Forall valid_record recs.
Proof.
  intros H. apply _parse_page_spec in H. destruct H as [Haddr _].
  apply Forall_forall. intros r Hr. unfold valid_record.
  assert (Hin : In (address r) (map address recs)) by now apply in_map.
  rewrite Haddr in Hin. apply filter_In in Hin. destruct Hin as [Hcand Hm].
  apply in_map_iff in Hcand. destruct Hcand as (row & Hrow & _).
  rewrite <- Hrow in Hm |- *.
  exact (proj1 (row_address_valid row) Hm).
Qed.
(** ** Valid addresses: from the parser to the buffer and the file *)

Lemma lookup_combine_map {V : Type} (f : string -> V) (k : string) (l : list string) :
  In k l -> Dom.lookup k (combine l (map f l)) = Some (f k).
Proof.
  induction l as [|c l IH]; intros Hin; [destruct Hin|].
  cbn. destruct (String.eqb_spec k c) as [->|Hne]; [reflexivity|].
  apply IH. destruct Hin as [->|Hin]; [congruence | exact Hin].
Qed.

Lemma cell_at_reindex (old new : list string) (name : string) (row : list cell) :
  In name new -> cell_at new name (reindex old new row) = cell_at old name row.
Proof.
  intros Hin. unfold cell_at at 1, reindex.
  rewrite (lookup_combine_map _ name new Hin). reflexivity.
Qed.

Lemma valid_row_reindex (old new : list string) (row : list cell) :
  In "address" new -> valid_row old row -> valid_row new (reindex old new row).
Proof.
  intros Hin (a & Hcell & Hpat). exists a.
  rewrite cell_at_reindex by exact Hin. auto.
Qed.

Lemma in_union_columns (a b : list string) (c : string) :
  In c a \/ In c b -> In c (union_columns a b).
Proof.
  unfold union_columns. intros [Ha | Hb]; apply in_or_app.
  - now left.
  - destruct (existsb (String.eqb c) a) eqn:Hex.
    + left. apply existsb_exists in Hex. destruct Hex as (x & Hx & Heq).
      apply String.eqb_eq in Heq. now subst.
    + right. apply filter_In. split; [exact Hb | now rewrite Hex].
Qed.

Lemma valid_record_row (r : record) :
  valid_record r -> valid_row record_columns (record_row r).
Proof. intros H. exists (address r). split; [reflexivity | exact H]. Qed.

Lemma DataFrame_of_ok (rs : list record) :
  Forall valid_record rs -> disk_ok (Some (Table (DataFrame_of rs))).
Proof.
  intros H. cbn. rewrite Forall_map.
  eapply Forall_impl; [|exact H]. intros r. apply valid_record_row.
Qed.

Lemma concat_ok (old : DataFrame) (rs : list record) :
  disk_ok (Some (Table old)) -> Forall valid_record rs ->
  disk_ok (Some (Table (concat old (DataFrame_of rs)))).
Proof.
  cbn. intros Hold Hrs.
  assert (Hin : In "address" (union_columns (columns old) record_columns)).
  { apply in_union_columns. right. cbn. tauto. }
  apply Forall_app. split; rewrite Forall_map.
  - eapply Forall_impl; [|exact Hold]. intros row. now apply valid_row_reindex.
  - rewrite Forall_map. eapply Forall_impl; [|exact Hrs].
    intros r Hr. apply valid_row_reindex; [exact Hin | now apply valid_record_row].
Qed.

Lemma truncated_ok (df : DataFrame) (kept : nat) :
  disk_ok (Some (Table df)) ->
  disk_ok (Some (Table (mkDataFrame (columns df) (firstn kept (data df))))).
Proof.
  cbn. intros H.
  rewrite <- (firstn_skipn kept (data df)) in H.
  apply Forall_app in H. apply H.
Qed.

Lemma _save_progress_never_raises (E : env) (force_save : bool) (s : state) :
  fst (_save_progress E force_save s) = Ok tt.
Proof.
  destruct (scraped_data s) as [|r rs] eqn:Hbuf.
  - unfold _save_progress, bind, get_state. now rewrite Hbuf.
  - apply _save_progress_cases. congruence.
Qed.

Lemma _save_progress_store_ok (E : env) (force_save : bool) (s : state) :
  store_ok s -> store_ok (snd (_save_progress E force_save s)).
Proof.
  intros [Hbuf Hdisk].
  destruct (scraped_data s) as [|r rs] eqn:Hdata.
  - unfold _save_progress, bind, get_state. rewrite Hdata. cbn.
    split; [now rewrite Hdata | exact Hdisk].
  - assert (Hne : scraped_data s <> []) by congruence.
    pose proof (_save_progress_cases E force_save s Hne) as (_ & Hclear & Hcases).
    rewrite <- Hdata in Hbuf.
    split; [rewrite Hclear; constructor|].
    destruct (disk s) as [[old|e]|] eqn:Hd.
    + destruct Hcases as (_ & Hcases).
      destruct (write_faults E (tick s)) as [[e|e kept]|].
      * destruct Hcases as (_ & ->). exact Hdisk.
      * destruct Hcases as (_ & ->). apply truncated_ok. now apply concat_ok.
      * destruct Hcases as (-> & _). now apply concat_ok.
    + destruct Hcases as (-> & _). exact I.
    + destruct Hcases as (_ & Hcases).
      destruct (write_faults E (tick s)) as [[e|e kept]|].
      * destruct Hcases as (_ & ->). exact I.
      * destruct Hcases as (_ & ->).
        apply (truncated_ok (DataFrame_of (scraped_data s))). now apply DataFrame_of_ok.
      * destruct Hcases as (-> & _). now apply DataFrame_of_ok.
Qed.

Lemma store_ok_untouched (s s' : state) : untouched s s' -> store_ok s -> store_ok s'.
Proof.
  unfold untouched, store_ok. intros H [Hb Hd].
  decompose [and] H. split; congruence.
Qed.

Lemma store_ok_do_log (l : level) (m : message) (s : state) :
  store_ok s -> store_ok (do_log l m s).
Proof. intros H. exact H. Qed.

Lemma after_page_store_ok (E : env) (page : nat) (body : string) (s : state) :
  store_ok s -> store_ok (snd (after_page E page body s)).
Proof.
  intros H. unfold after_page, bind.
  assert (Hsave : exists s1,
     (if page mod SAVE_INTERVAL =? 0 then _save_progress E false else ret tt) s
       = (Ok tt, s1) /\ store_ok s1).
  { destruct (page mod SAVE_INTERVAL =? 0).
    - exists (snd (_save_progress E false s)). split.
      + rewrite (surjective_pairing (_save_progress E false s)).
        now rewrite _save_progress_never_raises.
      + now apply _save_progress_store_ok.
    - exists s. split; [reflexivity | exact H]. }
  destruct Hsave as (s1 & -> & Hs1).
  destruct (Dom.find_with "a" "rel" "next" (BeautifulSoup E body)); exact Hs1.
Qed.

Lemma scrape_loop_store_ok (E : env) (fuel : nat) :
  forall page total consecutive_empty s,
    store_ok s ->
    store_ok (snd (scrape_loop E fuel page total consecutive_empty s)).
Proof.
  induction fuel as [|fuel IH]; intros page total ce s Hs; cbn [scrape_loop].
  - exact Hs.
  - destruct (limit_reached (max_pages s) page); [exact Hs|].
    destruct (test_mode s && (2 <? page)); [exact Hs|].
    pose proof (fetch_page_untouched E page s) as Hf.
    destruct (fetch_page E page s) as [[fetched|e] s1]; cbn [snd] in Hf |- *;
      [|eapply store_ok_untouched; eauto].
    assert (Hs1 : store_ok s1) by (eapply store_ok_untouched; eauto).
    destruct fetched as [response|]; [|exact Hs1].
    destruct (unavailable (Some response)); [exact Hs1|].
    pose proof (_parse_page_untouched E (text response) s1) as Hp.
    pose proof (_parse_page_valid E (text response) s1) as Hv.
    destruct (_parse_page E (text response) s1) as [[page_data|e] s2];
      cbn [snd] in Hp |- *; [|eapply store_ok_untouched; eauto].
    assert (Hs2 : store_ok s2) by (eapply store_ok_untouched; eauto).
    specialize (Hv page_data s2 eq_refl).
    assert (Hcont : forall t c s3, store_ok s3 ->
      store_ok (snd (match after_page E page (text response) s3 with
                     | (Raise e, s4) => (Propagated e, t, s4)
                     | (Ok false, s4) => (Stopped NoNextPage, t, s4)
                     | (Ok true, s4) => scrape_loop E fuel (page + 1) t c s4
                     end))).
    { intros t c s3 Hs3.
      pose proof (after_page_store_ok E page (text response) s3 Hs3) as Ha.
      destruct (after_page E page (text response) s3) as [[[|]|e] s4];
        cbn [snd] in Ha |- *; auto. }
    destruct page_data as [|r rs].
    + destruct (3 <=? ce + 1); [exact Hs2 | now apply Hcont].
    + apply Hcont. destruct Hs2 as [Hb Hd]. split; [|exact Hd].
      cbn. apply Forall_app. split; assumption.
Qed.

Lemma cleanup_store_ok (E : env) (total : nat) (s : state) :
  store_ok s -> store_ok (snd (cleanup E total s)).
Proof.
  intros H. unfold cleanup, bind.
  pose proof (_save_progress_never_raises E true s) as Hok.
  pose proof (_save_progress_store_ok E true s H) as Hs1.
  destruct (_save_progress E true s) as [r s1]. cbn [fst snd] in *. subst r.
  exact Hs1.
Qed.

Lemma scrape_database_store_ok (E : env) (fuel : nat) (s : state) :
  store_ok s -> store_ok (snd (scrape_database E fuel s)).
Proof.
  intros H. unfold scrape_database.
  pose proof (scrape_loop_store_ok E fuel 1 0 0 (do_log INFO Starting s) H) as Hl.
  destruct (scrape_loop E fuel 1 0 0 (do_log INFO Starting s)) as [[x total] s1].
  cbn [snd] in Hl.
  assert (Hh : store_ok (snd (handle_exit x s1))).
  { unfold handle_exit. destruct x as [r|e|]; try exact Hl.
    destruct (is_KeyboardInterrupt e); [exact Hl|].
    destruct (is_Exception e); exact Hl. }
  destruct x as [r|e|]; [| |exact Hl];
    destruct (handle_exit _ s1) as [pending s2]; cbn [snd] in Hh;
    pose proof (cleanup_store_ok E total s2 Hh) as Hc;
    destruct (cleanup E total s2) as [[u|e'] s3]; cbn [snd] in Hc |- *;
    try destruct pending; exact Hc.
Qed.

(** C1. Every record the parser returns has an address of the fixed pattern,
    and the addresses returned are exactly, in order, those of the rows with
    at least five cells that pass the check; a row with at least five cells
    whose address is not of the pattern is logged with a warning and is
    absent from the result.  Hence a buffer and a file whose addresses are
    all valid stay so through the loop, through a whole run and through
    every flush. *)
Theorem stored_addresses_match_the_pattern (E : env) :
  (forall html s recs s',
      _parse_page E html s = (Ok recs, s') ->
      Forall valid_record recs /\
      map address recs
        = filter address_matches
            (map row_address (filter has_five_cells (data_rows E html))) /\
      forall row,
        In row (data_rows E html) ->
        has_five_cells row = true ->
        ~ address_pattern (row_address row) ->
        In (WARNING, InvalidAddress (row_address row)) (log s') /\
        ~ In (row_address row) (map address recs)) /\
  (forall fuel page total consecutive_empty s,
      store_ok s ->
      store_ok (snd (scrape_loop E fuel page total consecutive_empty s))) /\
  (forall fuel s, store_ok s -> store_ok (snd (scrape_database E fuel s))) /\
  (forall force_save s, store_ok s -> store_ok (snd (_save_progress E force_save s))).
Proof.
  split; [|split; [|split]].
  - intros html s recs s' H.
    pose proof (_parse_page_valid E html s recs s' H) as Hvalid.
    pose proof (_parse_page_spec E html s recs s' H) as [Haddr Hwarn].
    split; [exact Hvalid|]. split; [exact Haddr|].
    intros row Hrow Hfive Hbad.
    assert (Hm : address_matches (row_address row) = false).
    { destruct (address_matches (row_address row)) eqn:Hm; [|reflexivity].
      exfalso. apply Hbad. now apply row_address_valid. }
    split.
    + apply Hwarn; [|exact Hm].
      apply in_map. apply filter_In. split; assumption.
    + intros Hin. rewrite Haddr in Hin. apply filter_In in Hin.
      destruct Hin as [_ Hin]. congruence.
  - intros fuel page total ce s. apply scrape_loop_store_ok.
  - intros fuel s. apply scrape_database_store_ok.
  - intros force_save s. apply _save_progress_store_ok.
Qed.

Lemma stored_addresses_match_the_pattern_witness :
  store_ok fresh /\
  store_ok (snd (scrape_database (stub_env (always body_last) no_faults) 5 fresh)).
Proof.
  assert (H : store_ok fresh) by (split; [constructor | exact I]).
  split; [exact H|].
  apply (stored_addresses_match_the_pattern (stub_env (always body_last) no_faults)).
  exact H.
Defined.

Example run_on_last_page :
  let '(r, s) := scrape_database (stub_env (always body_last) no_faults) 5 fresh in
  r = Returned 1 /\
  scraped_data s = [] /\
  (exists row, disk s = Some (Table (mkDataFrame record_columns [row])) /\
               cell_at record_columns "address" row = Some genesis).
Proof. vm_compute. repeat split. eexists. split; reflexivity. Qed.

Example parse_full_page :
  let '(r, s) := _parse_page (stub_env (always body_full) no_faults) body_full fresh in
  (exists rec, r = Ok [rec] /\ address rec = genesis) /\
  log s = [(WARNING, InvalidAddress "not-an-address")].
Proof. vm_compute. split; [eexists; split; reflexivity | reflexivity]. Qed.

(** C8. The claim that the parser never raises fails on a row whose fifth
    cell holds an anchor without [href]: [details_link['href']] raises
    [KeyError], nothing in [_parse_page] catches it, and the run that meets
    such a page ends on the "Critical error" path. *)
Theorem parse_raises_on_anchor_without_href :
  fst (_parse_page (stub_env (always body_bare) no_faults) body_bare fresh)
    = Raise (KeyError "href") /\
  fst (scrape_database (stub_env (always body_bare) no_faults) 5 fresh) = Returned 0 /\
  In (ERROR, CriticalError (KeyError "href"))
     (log (snd (scrape_database (stub_env (always body_bare) no_faults) 5 fresh))).
Proof.
  split; [vm_compute; reflexivity|]. split; [vm_compute; reflexivity|].
  vm_compute. tauto.
Qed.

(** *** Where the parser does return

    Without the table the parser logs the cause and returns no record; and
    it returns for every page on which each anchor of a fifth cell carries an
    [href] that [urljoin] accepts. *)

Lemma parse_without_table (E : env) (html : string) (s : state) :
  Dom.find_with "table" "class" "table-striped" (BeautifulSoup E html) = None ->
  _parse_page E html s = (Ok [], do_log ERROR TableNotFound s).
Proof. intros H. unfold _parse_page. rewrite H. reflexivity. Qed.

Lemma parse_rows_returns (E : env) (rows : list Dom.node) :
  (forall row,
      In row rows -> has_five_cells row = true ->
      exists u, forall s,
          details_url_of E (nth 4 (Dom.find_all "td" row) (Dom.Text "")) s = (Ok u, s)) ->
  forall acc s, exists recs s', parse_rows E rows acc s = (Ok recs, s').
Proof.
  induction rows as [|row rest IH]; intros Hlinks acc s; cbn [parse_rows].
  - do 2 eexists. reflexivity.
  - assert (Hrest : forall row', In row' rest -> has_five_cells row' = true ->
              exists u, forall s0,
                details_url_of E (nth 4 (Dom.find_all "td" row') (Dom.Text "")) s0
                = (Ok u, s0)).
    { intros row' Hin. apply Hlinks. now right. }
    specialize (IH Hrest).
    destruct (List.length (Dom.find_all "td" row) <? 5) eqn:Hshort; [apply IH|].
    destruct (Hlinks row) as (u & Hu); [now left | unfold has_five_cells; now rewrite Hshort |].
    unfold bind at 1. rewrite Hu.
    destruct (negb (address_matches (cell_text (Dom.find_all "td" row) 1))).
    + unfold bind at 1, logging, modify. apply IH.
    + unfold bind at 1, next_tick. apply IH.
Qed.
(** ** The fetcher: [_request_with_retry] *)

Lemma choose_proxies_run (s : state) :
  exists chosen s',
    choose_proxies s = (Ok chosen, s') /\ tick s' = tick s /\ trace s' = trace s.
Proof.
  open_state s.
  unfold choose_proxies, _rotate_proxy, bind, get_state, modify, logging, ret; cbn.
  destruct px as [p|]; [|eauto].
  destruct (String.eqb p "auto").
  - destruct pxs as [|q0 qs]; cbn; [eauto|].
    destruct (nonempty _); cbn; eauto.
  - destruct (nonempty p && negb (String.eqb p "none")); eauto.
Qed.

Lemma attempt_body_run (E : env) (url : string) (s : state) :
  exists chosen s',
    attempt_body E url s
      = (match classify (session_get E (S (tick s)) url) with
         | inl e => Raise e
         | inr r => Ok r
         end, s') /\
    tick s' = tick s + 2 /\
    trace s' = trace s ++ [Get url (user_agent E (tick s)) chosen].
Proof.
  unfold attempt_body, _get_user_agent.
  unfold bind at 1 2. unfold next_tick at 1. unfold ret at 1.
  destruct (choose_proxies_run (set_tick (S (tick s)) s)) as (chosen & s1 & Hc & Ht & Htr).
  unfold bind at 1. rewrite Hc.
  exists chosen.
  unfold bind, next_tick, emit, modify. cbn.
  rewrite Ht. cbn.
  destruct (classify (session_get E (S (tick s)) url)) as [e|r];
    eexists; (split; [reflexivity|]); cbn; rewrite ?Htr; cbn; split; (lia || reflexivity).
Qed.

Lemma attempt_failed_run (E : env) (attempt : nat) (e : exn) (s : state) :
  sleep_interrupted E (S (tick s)) = false ->
  exists s',
    attempt_failed E attempt e s = (Ok tt, s') /\
    tick s' = tick s + 2 /\
    trace s' = trace s ++ [Sleep (backoff attempt (random_random E (tick s)))] /\
    log s' = log s ++ [(WARNING, AttemptFailed (attempt + 1) RETRY_LIMIT e
                                   (backoff attempt (random_random E (tick s))))].
Proof.
  intros Hsleep.
  unfold attempt_failed, time_sleep, bind, next_tick, logging, emit, modify, ret. cbn.
  rewrite Hsleep. eexists. split; [reflexivity|]. cbn. repeat split. lia.
Qed.

Lemma sleeps_of_app (a b : list event) : sleeps_of (a ++ b) = sleeps_of a ++ sleeps_of b.
Proof. unfold sleeps_of. apply flat_map_app. Qed.

Lemma requests_in_app (a b : list event) :
  requests_in (a ++ b) = requests_in a + requests_in b.
Proof. unfold requests_in. now rewrite filter_app, length_app. Qed.

Lemma retry_step_failure (E : env) (url : string) (a : nat) (rest : list nat)
    (s : state) (e : exn) :
  classify (session_get E (S (tick s)) url) = inl e ->
  fetch_catches e = true ->
  sleep_interrupted E (tick s + 3) = false ->
  exists s',
    retry_loop E url (a :: rest) s = retry_loop E url rest s' /\
    tick s' = tick s + 4 /\
    sleeps_of (trace s')
      = sleeps_of (trace s) ++ [backoff a (random_random E (tick s + 2))] /\
    requests_in (trace s') = requests_in (trace s) + 1 /\
    In (WARNING, AttemptFailed (a + 1) RETRY_LIMIT e
                   (backoff a (random_random E (tick s + 2)))) (log s').
Proof.
  intros Hc Hcatch Hsleep. cbn [retry_loop].
  destruct (attempt_body_run E url s) as (chosen & s1 & Hrun & Ht1 & Htr1).
  rewrite Hc in Hrun.
  unfold bind at 1. unfold try_except. unfold bind at 1. rewrite Hrun, Hcatch.
  destruct (attempt_failed_run E a e s1) as (s2 & Hf & Ht2 & Htr2 & Hlog2).
  { rewrite Ht1. rewrite <- Hsleep. f_equal. lia. }
  unfold bind at 1. rewrite Hf. unfold ret at 1.
  exists s2. split; [reflexivity|].
  replace (tick s + 2) with (tick s1) by lia.
  split; [lia|]. split; [|split].
  - rewrite Htr2, Htr1, !sleeps_of_app. cbn. now rewrite app_nil_r.
  - rewrite Htr2, Htr1, !requests_in_app. cbn. lia.
  - rewrite Hlog2. apply in_or_app. right. now left.
Qed.

Lemma retry_step_success (E : env) (url : string) (a : nat) (rest : list nat)
    (s : state) (r : response) :
  classify (session_get E (S (tick s)) url) = inr r ->
  exists s',
    retry_loop E url (a :: rest) s = (Ok (Some r), s') /\
    sleeps_of (trace s') = sleeps_of (trace s) /\
    requests_in (trace s') = requests_in (trace s) + 1.
Proof.
  intros Hc. cbn [retry_loop].
  destruct (attempt_body_run E url s) as (chosen & s1 & Hrun & Ht1 & Htr1).
  rewrite Hc in Hrun.
  unfold bind at 1. unfold try_except. unfold bind at 1. rewrite Hrun.
  unfold ret. exists s1. split; [reflexivity|].
  rewrite Htr1, sleeps_of_app, requests_in_app. cbn. now rewrite app_nil_r.
Qed.

Lemma retry_loop_exhausted (E : env) (url : string) :
  (forall k, sleep_interrupted E k = false) ->
  forall n a s,
    (forall i, i < n -> attempt_fails E url (tick s) i) ->
    exists s',
      retry_loop E url (seq a n) s = (Ok None, s') /\
      sleeps_of (trace s')
        = sleeps_of (trace s)
          ++ map (fun i => backoff (a + i) (random_random E (jitter_tick (tick s) i)))
               (seq 0 n) /\
      requests_in (trace s') = requests_in (trace s) + n.
Proof.
  intros Hsleep. induction n as [|n IH]; intros a s Hfail; cbn [seq].
  - exists s. cbn. now rewrite app_nil_r, Nat.add_0_r.
  - destruct (Hfail 0) as (e & Hc & Hcatch); [lia|].
    unfold get_tick in Hc. replace (tick s + 4 * 0 + 1) with (S (tick s)) in Hc by lia.
    destruct (retry_step_failure E url a (seq (S a) n) s e Hc Hcatch (Hsleep _))
      as (s1 & Hstep & Ht & Hsl & Hreq & _).
    destruct (IH (S a) s1) as (s' & Hrun & Hsl' & Hreq').
    { intros i Hi. destruct (Hfail (S i)) as (e' & Hc' & Hcatch'); [lia|].
      exists e'. split; [|exact Hcatch'].
      unfold get_tick in *. rewrite Ht.
      replace (tick s + 4 + 4 * i + 1) with (tick s + 4 * S i + 1) by lia. exact Hc'. }
    exists s'. split; [now rewrite Hstep|]. split.
    + rewrite Hsl', Hsl, <- app_assoc. f_equal. cbn [map app].
      rewrite Nat.add_0_r. unfold jitter_tick at 2.
      replace (tick s + 4 * 0 + 2) with (tick s + 2) by lia. f_equal.
      rewrite <- seq_shift, map_map. apply map_ext. intros i.
      unfold jitter_tick. rewrite Ht. f_equal; [lia | f_equal; lia].
    + rewrite Hreq', Hreq. lia.
Qed.

Lemma retry_loop_succeeds (E : env) (url : string) (r : response) :
  (forall k, sleep_interrupted E k = false) ->
  forall k n a s,
    k < n ->
    (forall i, i < k -> attempt_fails E url (tick s) i) ->
    classify (session_get E (get_tick (tick s) k) url) = inr r ->
    exists s',
      retry_loop E url (seq a n) s = (Ok (Some r), s') /\
      sleeps_of (trace s')
        = sleeps_of (trace s)
          ++ map (fun i => backoff (a + i) (random_random E (jitter_tick (tick s) i)))
               (seq 0 k) /\
      requests_in (trace s') = requests_in (trace s) + k + 1.
Proof.
  intros Hsleep. induction k as [|k IH]; intros n a s Hk Hfail Hok.
  - destruct n as [|n]; [lia|]. cbn [seq].
    unfold get_tick in Hok. replace (tick s + 4 * 0 + 1) with (S (tick s)) in Hok by lia.
    destruct (retry_step_success E url a (seq (S a) n) s r Hok) as (s' & Hrun & Hsl & Hreq).
    exists s'. split; [exact Hrun|]. cbn. rewrite app_nil_r. split; [exact Hsl | lia].
  - destruct n as [|n]; [lia|]. cbn [seq].
    destruct (Hfail 0) as (e & Hc & Hcatch); [lia|].
    unfold get_tick in Hc. replace (tick s + 4 * 0 + 1) with (S (tick s)) in Hc by lia.
    destruct (retry_step_failure E url a (seq (S a) n) s e Hc Hcatch (Hsleep _))
      as (s1 & Hstep & Ht & Hsl & Hreq & _).
    destruct (IH n (S a) s1) as (s' & Hrun & Hsl' & Hreq').
    { lia. }
    { intros i Hi. destruct (Hfail (S i)) as (e' & Hc' & Hcatch'); [lia|].
      exists e'. split; [|exact Hcatch'].
      unfold get_tick in *. rewrite Ht.
      replace (tick s + 4 + 4 * i + 1) with (tick s + 4 * S i + 1) by lia. exact Hc'. }
    { unfold get_tick in *. rewrite Ht.
      replace (tick s + 4 + 4 * k + 1) with (tick s + 4 * S k + 1) by lia. exact Hok. }
    exists s'. split; [now rewrite Hstep|]. split.
    + rewrite Hsl', Hsl, <- app_assoc. f_equal. cbn [map app seq].
      rewrite Nat.add_0_r. unfold jitter_tick at 2.
      replace (tick s + 4 * 0 + 2) with (tick s + 2) by lia. f_equal.
      rewrite <- seq_shift, map_map. apply map_ext. intros i.
      unfold jitter_tick. rewrite Ht. f_equal; [lia | f_equal; lia].
    + rewrite Hreq', Hreq. lia.
Qed.

Lemma response_failures_are_caught (r : response) (e : exn) :
  classify (Responded r) = inl e -> fetch_catches e = true.
Proof.
  unfold classify.
  destruct (is_error_status r); [intros H; inversion H; reflexivity|].
  destruct (is_blocked r); [intros H; inversion H; reflexivity|].
  destruct (negb (Text.contains "table table-striped" (text r)));
    intros H; inversion H; reflexivity.
Qed.

(** *** Rounding stays between representable bounds *)

Lemma rint_between (A B : Z) (q : Q) :
  (inject_Z A <= q <= inject_Z B)%Q -> (A <= Float.rint q <= B)%Z.
Proof.
  intros [HA HB]. unfold Float.rint.
  assert (Hf1 : (A <= Qfloor q)%Z).
  { rewrite <- (Qfloor_Z A). now apply Qfloor_resp_le. }
  assert (Hf2 : (Qfloor q <= B)%Z).
  { rewrite <- (Qfloor_Z B). now apply Qfloor_resp_le. }
  pose proof (Qfloor_le q) as Hle.
  assert (Hup : (Qfloor q = B -> q - inject_Z (Qfloor q) == 0)%Q).
  { intros Heq. rewrite Heq in *. lra. }
  destruct (Qcompare_spec (q - inject_Z (Qfloor q)) (1 # 2)) as [He|Hl|Hg].
  - assert (Qfloor q <> B) by (intros Heq; specialize (Hup Heq); lra).
    destruct (Z.even (Qfloor q)); lia.
  - lia.
  - assert (Qfloor q <> B) by (intros Heq; specialize (Hup Heq); lra).
    lia.
Qed.

(** Integers below [2 ^ 53] are floats, and rounding is monotone: a
    rational between two of them rounds to a float between them. *)
Lemma round_between (lo hi : Z) (x : Q) :
  (0 <= lo)%Z -> (hi < 2 ^ 53)%Z ->
  (inject_Z lo <= x <= inject_Z hi)%Q ->
  (inject_Z lo <= Float.round x <= inject_Z hi)%Q.
Proof.
  intros Hlo Hhi [H1 H2]. unfold Float.round.
  assert (H0 : (0 <= x)%Q).
  { eapply Qle_trans; [|exact H1]. unfold Qle; cbn. lia. }
  destruct (Qcompare_spec x 0) as [He|Hl|Hg].
  - rewrite He in H1, H2. split; assumption.
  - lra.
  - unfold Float.round_pos.
    assert (He : (Float.exponent x <= 52)%Z).
    { unfold Float.exponent. destruct (Qle_bool 1 x) eqn:Hx.
      - apply Qle_bool_iff in Hx.
        assert (Hf : (1 <= Qfloor x)%Z).
        { change 1%Z with (Qfloor 1). now apply Qfloor_resp_le. }
        assert (Hf2 : (Qfloor x <= hi)%Z).
        { rewrite <- (Qfloor_Z hi). now apply Qfloor_resp_le. }
        assert (Z.log2 (Qfloor x) < 53)%Z by (apply Z.log2_lt_pow2; lia).
        lia.
      - pose proof (Z.log2_up_nonneg (Qceiling (/ x))). lia. }
    apply Z.leb_le in He. rewrite He.
    set (m := (2 ^ (52 - Float.exponent x))%Z).
    assert (Hm : (0 < m)%Z) by (apply Z.pow_pos_nonneg; [lia | apply Z.leb_le in He; lia]).
    rewrite Qred_correct.
    destruct (rint_between (lo * m) (hi * m) (x * inject_Z m)) as [Ha Hb].
    { rewrite !inject_Z_mult.
      assert (0 < inject_Z m)%Q by (unfold Qlt; cbn; lia).
      split; apply Qmult_le_compat_r; try assumption; apply Qlt_le_weak; assumption. }
    unfold Qle. cbn [Qnum Qden inject_Z]. rewrite Z2Pos.id by exact Hm. lia.
Qed.

Example jitter_just_below_one_rounds_up :
  backoff 0 ((2 ^ 53 - 1) # (2 ^ 53)) = 2%Q /\
  uniform MIN_DELAY MAX_DELAY ((2 ^ 53 - 1) # (2 ^ 53)) = 7%Q.
Proof. split; vm_compute; reflexivity. Qed.

Lemma backoff_bounds (attempt : nat) (jitter : Q) :
  attempt < RETRY_LIMIT ->
  (0 <= jitter < 1)%Q ->
  (inject_Z (2 ^ Z.of_nat attempt) <= backoff attempt jitter
   <= inject_Z (2 ^ Z.of_nat attempt) + 1)%Q.
Proof.
  intros Ha [H0 H1]. unfold backoff, Float.add.
  assert (Hpow : (1 <= 2 ^ Z.of_nat attempt <= 16)%Z).
  { unfold RETRY_LIMIT in Ha. split.
    - apply (Z.pow_le_mono_r 2 0); lia.
    - apply (Z.pow_le_mono_r 2 (Z.of_nat attempt) 4); lia. }
  destruct (round_between (2 ^ Z.of_nat attempt) (2 ^ Z.of_nat attempt + 1)
              (inject_Z (2 ^ Z.of_nat attempt) + jitter)) as [Hlo Hhi].
  - lia.
  - apply Z.le_lt_trans with 17%Z; [lia | reflexivity].
  - rewrite inject_Z_plus. change (inject_Z 1) with 1%Q. split; lra.
  - rewrite inject_Z_plus in Hhi. change (inject_Z 1) with 1%Q in Hhi. split; assumption.
Qed.

Lemma blocking_phrase_is_refused (code : nat) (body phrase : string) :
  code < 400 \/ 600 <= code ->
  In phrase ["cloudflare"; "access denied"; "captcha"; "403 forbidden"; "blocked";
             "security check"] ->
  Text.contains phrase (Text.lower body) = true ->
  classify (Responded (mkResponse code body)) = inl (RequestException "Blocking detected").
Proof.
  intros Hcode Hin Hc. unfold classify, is_error_status. cbn [status_code text].
  assert (Hs : (400 <=? code) && (code <? 600) = false).
  { destruct Hcode as [H|H].
    - apply andb_false_iff. left. apply Nat.leb_gt. exact H.
    - apply andb_false_iff. right. apply Nat.ltb_ge. exact H. }
  rewrite Hs.
  assert (Hb : is_blocked (mkResponse code body) = true).
  { unfold is_blocked. apply existsb_exists. exists phrase. split; [exact Hin | exact Hc]. }
  now rewrite Hb.
Qed.

(** C6. A failed attempt is caught: an exception of the request classes
    out of [session.get], a response with status 400 to 599, a response
    whose text holds one of the six blocking phrases in any letter case, a
    response without the table marker.  The fetcher then sleeps
    [2 ** attempt + jitter] seconds in float arithmetic, which for a jitter
    in [0, 1) lies between [2 ** attempt] and [2 ** attempt + 1], both
    included, and goes on to the next attempt.  A success at attempt
    [k < 5] returns that response after [k] sleeps and [k + 1] requests; five
    failures return [None] after five sleeps, and the controller then logs
    the page as not retrieved and leaves the loop. *)
Theorem fetch_retries_then_gives_up (E : env) (url : string) (s : state) :
  (forall k, sleep_interrupted E k = false) ->
  (forall k, (0 <= random_random E k < 1)%Q) ->
  (forall r e, classify (Responded r) = inl e -> fetch_catches e = true) /\
  (forall e, In e [Timeout; ProxyError; ConnectionError; RequestException "";
                   HTTPError 503] ->
             classify (GetRaised e) = inl e /\ fetch_catches e = true) /\
  (forall code body,
      400 <= code < 600 ->
      classify (Responded (mkResponse code body)) = inl (HTTPError code)) /\
  (forall code body phrase,
      code < 400 \/ 600 <= code ->
      In phrase ["cloudflare"; "access denied"; "captcha"; "403 forbidden"; "blocked";
                 "security check"] ->
      Text.contains phrase (Text.lower body) = true ->
      classify (Responded (mkResponse code body))
        = inl (RequestException "Blocking detected")) /\
  (forall code body,
      code < 400 \/ 600 <= code ->
      (forall phrase,
          In phrase ["cloudflare"; "access denied"; "captcha"; "403 forbidden";
                     "blocked"; "security check"] ->
          Text.contains phrase (Text.lower body) = false) ->
      classify (Responded (mkResponse code body))
        = if Text.contains "table table-striped" body
          then inr (mkResponse code body)
          else inl (ValueError "Table content missing")) /\
  (forall k r,
      k < RETRY_LIMIT ->
      (forall i, i < k -> attempt_fails E url (tick s) i) ->
      classify (session_get E (get_tick (tick s) k) url) = inr r ->
      exists s',
        _request_with_retry E url s = (Ok (Some r), s') /\
        sleeps_of (trace s')
          = sleeps_of (trace s)
            ++ map (fun i => backoff i (random_random E (jitter_tick (tick s) i)))
                 (seq 0 k) /\
        requests_in (trace s') = requests_in (trace s) + k + 1) /\
  ((forall i, i < RETRY_LIMIT -> attempt_fails E url (tick s) i) ->
   exists s',
     _request_with_retry E url s = (Ok None, s') /\
     sleeps_of (trace s')
       = sleeps_of (trace s)
         ++ map (fun i => backoff i (random_random E (jitter_tick (tick s) i)))
              (seq 0 RETRY_LIMIT) /\
     requests_in (trace s') = requests_in (trace s) + RETRY_LIMIT) /\
  (forall attempt k,
      attempt < RETRY_LIMIT ->
      (inject_Z (2 ^ Z.of_nat attempt) <= backoff attempt (random_random E k)
       <= inject_Z (2 ^ Z.of_nat attempt) + 1)%Q) /\
  (forall fuel page total consecutive_empty s0 s1,
      limit_reached (max_pages s0) page = false ->
      test_mode s0 && (2 <? page) = false ->
      fetch_page E page s0 = (Ok None, s1) ->
      scrape_loop E (S fuel) page total consecutive_empty s0
        = (Stopped PageUnavailable, total, do_log ERROR (FailedToRetrieve page) s1)).
Proof.
  intros Hsleep Hrand.
  split; [exact response_failures_are_caught|].
  split.
  { intros e He. cbn in He.
    repeat (destruct He as [<-|He]; [split; reflexivity|]). destruct He. }
  split.
  { intros code body [Hlo Hhi]. unfold classify, is_error_status. cbn [status_code].
    apply Nat.leb_le in Hlo. apply Nat.ltb_lt in Hhi. now rewrite Hlo, Hhi. }
  split; [exact blocking_phrase_is_refused|].
  split.
  { intros code body Hcode Hnone. unfold classify, is_error_status.
    cbn [status_code text].
    assert (Hs : (400 <=? code) && (code <? 600) = false).
    { destruct Hcode as [H|H].
      - apply andb_false_iff. left. apply Nat.leb_gt. exact H.
      - apply andb_false_iff. right. apply Nat.ltb_ge. exact H. }
    rewrite Hs.
    assert (Hb : is_blocked (mkResponse code body) = false).
    { unfold is_blocked. cbn [text blocking_indicators existsb].
      rewrite !Hnone by (cbn; tauto). reflexivity. }
    rewrite Hb. destruct (Text.contains "table table-striped" body); reflexivity. }
  split.
  { intros k r Hk Hfail Hok. unfold _request_with_retry.
    exact (retry_loop_succeeds E url r Hsleep k RETRY_LIMIT 0 s Hk Hfail Hok). }
  split.
  { intros Hfail. unfold _request_with_retry.
    exact (retry_loop_exhausted E url Hsleep RETRY_LIMIT 0 s Hfail). }
  split.
  { intros attempt k Ha. apply backoff_bounds; [exact Ha | apply Hrand]. }
  intros fuel page total ce s0 s1 Hlimit Htest Hfetch.
  cbn [scrape_loop]. rewrite Hlimit, Htest, Hfetch. reflexivity.
Qed.

Lemma fetch_retries_then_gives_up_witness :
  (exists s',
      _request_with_retry (stub_env (flaky body_last) no_faults) BASE_URL fresh
        = (Ok (Some (mkResponse 200 body_last)), s') /\
      requests_in (trace s') = 4) /\
  (exists s',
      _request_with_retry (stub_env down no_faults) BASE_URL fresh = (Ok None, s') /\
      requests_in (trace s') = 5) /\
  (exists s',
      _request_with_retry (stub_env (always body_challenge) no_faults) BASE_URL fresh
        = (Ok None, s') /\
      requests_in (trace s') = 5).
Proof.
  assert (Hrand : forall k : nat, (0 <= 1 # 2 < 1)%Q).
  { intros k. split; unfold Qle, Qlt; cbn; lia. }
  split; [|split].
  3:{ destruct (fetch_retries_then_gives_up (stub_env (always body_challenge) no_faults)
                  BASE_URL fresh (fun _ => eq_refl) Hrand)
        as (_ & _ & _ & Hblocked & _ & _ & Hfail & _).
      destruct Hfail as (s' & Hrun & _ & Hreq).
      - intros i Hi. exists (RequestException "Blocking detected"). split; [|reflexivity].
        apply (Hblocked 200 body_challenge "cloudflare");
          [left; lia | cbn; tauto | vm_compute; reflexivity].
      - exists s'. split; [exact Hrun | exact Hreq]. }
  - destruct (fetch_retries_then_gives_up (stub_env (flaky body_last) no_faults)
                BASE_URL fresh (fun _ => eq_refl) Hrand)
      as (_ & _ & _ & _ & _ & Hsucc & _).
    destruct (Hsucc 3 (mkResponse 200 body_last)) as (s' & Hrun & _ & Hreq).
    + unfold RETRY_LIMIT. lia.
    + intros i Hi. exists Timeout.
      destruct i as [|[|[|i]]]; [split; reflexivity .. | lia].
    + reflexivity.
    + exists s'. split; [exact Hrun | exact Hreq].
  - destruct (fetch_retries_then_gives_up (stub_env down no_faults)
                BASE_URL fresh (fun _ => eq_refl) Hrand)
      as (_ & _ & _ & _ & _ & _ & Hfail & _).
    destruct Hfail as (s' & Hrun & _ & Hreq).
    + intros i Hi. exists ConnectionError. split; reflexivity.
    + exists s'. split; [exact Hrun | exact Hreq].
Defined.

Example flaky_site_trace :
  sleeps_of (trace (snd (_request_with_retry (stub_env (flaky body_last) no_faults)
                           BASE_URL fresh)))
  = [3 # 2; 5 # 2; 9 # 2]%Q.
Proof. vm_compute. reflexivity. Qed.
(** ** The controller: [scrape_database] *)

Lemma classify_ok_status (r r' : response) :
  classify (Responded r) = inr r' -> r' = r /\ response_ok r = true.
Proof.
  unfold classify, response_ok.
  destruct (is_error_status r); [discriminate|].
  destruct (is_blocked r); [discriminate|].
  destruct (negb (Text.contains "table table-striped" (text r))); [discriminate|].
  intros H. inversion H. auto.
Qed.

Lemma fetch_page_first_try (E : env) (page : nat) (s : state) (r : response) :
  sleep_interrupted E (S (tick s)) = false ->
  classify (session_get E (tick s + 3) (page_url page)) = inr r ->
  exists s',
    fetch_page E page s = (Ok (Some r), s') /\
    requests_in (trace s') = requests_in (trace s) + 1.
Proof.
  intros Hsleep Hok.
  unfold fetch_page, _get_random_delay, time_sleep, _request_with_retry.
  unfold bind at 1 2. unfold next_tick at 1. unfold ret at 1.
  unfold bind at 1 2 3. unfold next_tick at 1. cbn [tick set_tick].
  unfold emit at 1, modify at 1. cbn [tick set_trace set_tick].
  rewrite Hsleep. unfold ret at 1.
  match goal with
  | |- exists s', retry_loop E ?u ?l ?s1 = _ /\ _ =>
      destruct (retry_step_success E u 0 (seq 1 4) s1 r) as (s' & Hrun & _ & Hreq)
  end.
  { cbn [tick set_trace set_tick].
    replace (S (S (S (tick s)))) with (tick s + 3) by lia. exact Hok. }
  exists s'. split; [exact Hrun|].
  rewrite Hreq. cbn [trace set_trace set_tick]. rewrite requests_in_app. cbn. lia.
Qed.

Lemma after_page_result (E : env) (page : nat) (body : string) (s : state) :
  fst (after_page E page body s) = Ok (has_next E body).
Proof.
  unfold after_page, has_next, bind.
  assert (Hsave : fst ((if page mod SAVE_INTERVAL =? 0
                        then _save_progress E false else ret tt) s) = Ok tt).
  { destruct (page mod SAVE_INTERVAL =? 0);
      [apply _save_progress_never_raises | reflexivity]. }
  destruct ((if page mod SAVE_INTERVAL =? 0 then _save_progress E false else ret tt) s)
    as [r s1]. cbn [fst] in Hsave. subst r.
  destruct (Dom.find_with "a" "rel" "next" (BeautifulSoup E body)); reflexivity.
Qed.

Lemma after_page_requests (E : env) (page : nat) (body : string) (s : state) :
  requests_in (trace (snd (after_page E page body s))) = requests_in (trace s).
Proof.
  unfold after_page, bind.
  assert (Hsave : forall f, requests_in (trace (snd (_save_progress E f s)))
                            = requests_in (trace s)).
  { intros f. destruct (scraped_data s) as [|r0 rs] eqn:Hbuf.
    - unfold _save_progress, bind, get_state. now rewrite Hbuf.
    - open_state s. subst sd. unfold_store.
      destruct d as [[df|e]|]; cbn;
        try (destruct (write_faults E tk) as [[e|e k]|]; cbn);
        rewrite ?io_errors_are_Exceptions; cbn;
        try destruct f; cbn; rewrite ?filter_app, ?length_app; cbn; lia. }
  destruct (page mod SAVE_INTERVAL =? 0).
  - pose proof (_save_progress_never_raises E false s) as Hok.
    specialize (Hsave false).
    destruct (_save_progress E false s) as [r s1]. cbn [fst snd] in *. subst r.
    destruct (Dom.find_with "a" "rel" "next" (BeautifulSoup E body)); cbn; exact Hsave.
  - unfold ret. destruct (Dom.find_with "a" "rel" "next" (BeautifulSoup E body)); reflexivity.
Qed.

Lemma _parse_page_trace (E : env) (html : string) (s : state) :
  trace (snd (_parse_page E html s)) = trace s.
Proof.
  apply (keeps__parse_page (fun a b => trace b = trace a));
    try reflexivity; intros; congruence.
Qed.

Lemma same_config_do_log (l : level) (m : message) (s : state) :
  same_config s (do_log l m s).
Proof. repeat split. Qed.

(** One iteration either leaves the loop or hands over to the next page with
    the configuration it found. *)
Lemma scrape_loop_step (E : env) (fuel page total ce : nat) (s : state) :
  (exists x total' s',
      x <> OutOfFuel /\
      scrape_loop E (S fuel) page total ce s = (x, total', s')) \/
  (exists total' ce' s',
      same_config s s' /\
      limit_reached (max_pages s) page = false /\
      scrape_loop E (S fuel) page total ce s
        = scrape_loop E fuel (page + 1) total' ce' s').
Proof.
  cbn [scrape_loop].
  destruct (limit_reached (max_pages s) page) eqn:Hlimit.
  { left. do 3 eexists. split; [|reflexivity]. discriminate. }
  destruct (test_mode s && (2 <? page)).
  { left. do 3 eexists. split; [|reflexivity]. discriminate. }
  pose proof (fetch_page_untouched E page s) as Hf.
  destruct (fetch_page E page s) as [[fetched|e] s1]; cbn [snd] in Hf.
  2:{ left. do 3 eexists. split; [|reflexivity]. discriminate. }
  destruct fetched as [response|].
  2:{ left. do 3 eexists. split; [|reflexivity]. discriminate. }
  destruct (unavailable (Some response)).
  { left. do 3 eexists. split; [|reflexivity]. discriminate. }
  pose proof (_parse_page_untouched E (text response) s1) as Hp.
  destruct (_parse_page E (text response) s1) as [[page_data|e] s2]; cbn [snd] in Hp.
  2:{ left. do 3 eexists. split; [|reflexivity]. discriminate. }
  assert (Hcfg2 : same_config s s2).
  { eapply same_config_trans; apply untouched_same_config; eassumption. }
  assert (Hcont : forall t c s3,
     same_config s s3 ->
     (exists x total' s',
         x <> OutOfFuel /\
         match after_page E page (text response) s3 with
         | (Raise e, s4) => (Propagated e, t, s4)
         | (Ok false, s4) => (Stopped NoNextPage, t, s4)
         | (Ok true, s4) => scrape_loop E fuel (page + 1) t c s4
         end = (x, total', s')) \/
     (exists total' ce' s',
         same_config s s' /\ false = false /\
         match after_page E page (text response) s3 with
         | (Raise e, s4) => (Propagated e, t, s4)
         | (Ok false, s4) => (Stopped NoNextPage, t, s4)
         | (Ok true, s4) => scrape_loop E fuel (page + 1) t c s4
         end = scrape_loop E fuel (page + 1) total' ce' s')).
  { intros t c s3 Hcfg3.
    pose proof (after_page_same_config E page (text response) s3) as Ha.
    destruct (after_page E page (text response) s3) as [[[|]|e] s4]; cbn [snd] in Ha.
    - right. exists t, c, s4. split; [|split; reflexivity].
      eapply same_config_trans; eassumption.
    - left. do 3 eexists. split; [|reflexivity]. discriminate.
    - left. do 3 eexists. split; [|reflexivity]. discriminate. }
  destruct page_data as [|r rs].
  - destruct (3 <=? ce + 1).
    + left. do 3 eexists. split; [|reflexivity]. discriminate.
    + apply Hcont. exact Hcfg2.
  - apply Hcont. eapply same_config_trans; [exact Hcfg2|]. repeat split.
Qed.

Lemma limit_reached_spec (m : Z) (page : nat) :
  m <> 0%Z -> limit_reached (Some m) page = (m <? Z.of_nat page)%Z.
Proof.
  intros Hm. unfold limit_reached.
  destruct (Z.eqb_spec m 0); [contradiction | reflexivity].
Qed.

Lemma limited_run_terminates (E : env) (m : Z) :
  m <> 0%Z ->
  forall fuel page total ce s,
    max_pages s = Some m ->
    1 <= fuel ->
    (m + 2 <= Z.of_nat page + Z.of_nat fuel)%Z ->
    fst (fst (scrape_loop E fuel page total ce s)) <> OutOfFuel.
Proof.
  intros Hm. induction fuel as [|fuel IH]; intros page total ce s Hmax Hfuel Hbound;
    [lia|].
  destruct (scrape_loop_step E fuel page total ce s)
    as [(x & t' & s' & Hx & Hrun) | (t' & ce' & s' & Hcfg & Hlimit & Hrun)].
  - rewrite Hrun. exact Hx.
  - rewrite Hrun. rewrite Hmax, limit_reached_spec in Hlimit by exact Hm.
    apply Z.ltb_ge in Hlimit.
    apply IH.
    + destruct Hcfg as (_ & Hmp & _). now rewrite Hmp.
    + lia.
    + lia.
Qed.

Lemma three_empty_pages_stop (E : env) :
  (forall k, sleep_interrupted E k = false) ->
  (forall k url, exists r,
      session_get E k url = Responded r /\ empty_page_with_next E r) ->
  forall fuel page total ce s,
    max_pages s = None ->
    test_mode s = false ->
    ce < 3 ->
    3 - ce <= fuel ->
    exists s',
      scrape_loop E fuel page total ce s = (Stopped ThreeConsecutiveEmpty, total, s') /\
      requests_in (trace s') = requests_in (trace s) + (3 - ce).
Proof.
  intros Hsleep Hsite.
  induction fuel as [|fuel IH]; intros page total ce s Hmax Htest Hce Hfuel; [lia|].
  cbn [scrape_loop]. rewrite Hmax, Htest. cbn [limit_reached andb].
  destruct (Hsite (tick s + 3) (page_url page)) as (r & Hget & Hclass & Hnext & Hparse).
  destruct (fetch_page_first_try E page s r (Hsleep _)) as (s1 & Hfetch & Hreq1).
  { now rewrite Hget. }
  pose proof (fetch_page_untouched E page s) as Hf.
  rewrite Hfetch in Hf |- *. cbn [snd] in Hf.
  destruct (classify_ok_status r r Hclass) as [_ Hok].
  unfold unavailable. rewrite Hok. cbn [negb].
  pose proof (_parse_page_untouched E (text r) s1) as Hp.
  pose proof (_parse_page_trace E (text r) s1) as Htr.
  specialize (Hparse s1).
  destruct (_parse_page E (text r) s1) as [pr s2]. cbn [fst snd] in *. subst pr.
  destruct (3 <=? ce + 1) eqn:Hthird.
  - apply Nat.leb_le in Hthird. eexists. split; [reflexivity|].
    cbn [trace do_log set_log]. rewrite Htr, Hreq1. lia.
  - apply Nat.leb_gt in Hthird.
    pose proof (after_page_result E page (text r) s2) as Hres.
    pose proof (after_page_same_config E page (text r) s2) as Hcfg.
    pose proof (after_page_requests E page (text r) s2) as Hreq2.
    rewrite Hnext in Hres.
    destruct (after_page E page (text r) s2) as [ar s4]. cbn [fst snd] in *. subst ar.
    destruct (IH (page + 1) total (ce + 1) s4) as (s' & Hrun & Hreq); try lia.
    + destruct Hcfg as (_ & -> & _). destruct Hp as (_ & -> & _).
      destruct Hf as (_ & -> & _). exact Hmax.
    + destruct Hcfg as (_ & _ & ->). destruct Hp as (_ & _ & -> & _).
      destruct Hf as (_ & _ & -> & _). exact Htest.
    + exists s'. split; [exact Hrun|]. rewrite Hreq, Hreq2, Htr, Hreq1. lia.
Qed.

(** The stop conditions as the code has them.  Each iteration tests, in
    this order: the page limit, the test-mode cap of two pages, a failed
    fetch, a third consecutive page without records, the absence of a
    next-page link.  Three consecutive empty pages stop the run although
    every page links to a next one.  A page limit other than 0 stops the run
    as soon as the page number exceeds it, whatever the site would still
    serve, so such a run ends within [limit + 1] iterations. *)
Theorem stop_conditions_in_order (E : env) :
  (forall fuel page total ce s,
      limit_reached (max_pages s) page = true ->
      scrape_loop E (S fuel) page total ce s
        = (Stopped MaxPagesReached, total,
           do_log INFO (ReachedMaxPages (match max_pages s with
                                         | Some m => m
                                         | None => 0%Z
                                         end)) s)) /\
  (forall fuel page total ce s,
      limit_reached (max_pages s) page = false ->
      test_mode s && (2 <? page) = true ->
      scrape_loop E (S fuel) page total ce s
        = (Stopped TestModeComplete_, total, do_log INFO TestModeComplete s)) /\
  (forall fuel page total ce s fetched s1,
      limit_reached (max_pages s) page = false ->
      test_mode s && (2 <? page) = false ->
      fetch_page E page s = (Ok fetched, s1) ->
      unavailable fetched = true ->
      scrape_loop E (S fuel) page total ce s
        = (Stopped PageUnavailable, total, do_log ERROR (FailedToRetrieve page) s1)) /\
  (forall fuel page total ce s r s1 s2,
      limit_reached (max_pages s) page = false ->
      test_mode s && (2 <? page) = false ->
      fetch_page E page s = (Ok (Some r), s1) ->
      unavailable (Some r) = false ->
      _parse_page E (text r) s1 = (Ok [], s2) ->
      3 <= ce + 1 ->
      scrape_loop E (S fuel) page total ce s
        = (Stopped ThreeConsecutiveEmpty, total, do_log INFO ThreeEmptyPages s2)) /\
  (forall fuel page total ce s r s1 page_data s2 s4,
      limit_reached (max_pages s) page = false ->
      test_mode s && (2 <? page) = false ->
      fetch_page E page s = (Ok (Some r), s1) ->
      unavailable (Some r) = false ->
      _parse_page E (text r) s1 = (Ok page_data, s2) ->
      page_data <> [] \/ ce + 1 < 3 ->
      after_page E page (text r)
        (match page_data with
         | [] => s2
         | _ :: _ => set_scraped_data (scraped_data s2 ++ page_data) s2
         end) = (Ok false, s4) ->
      scrape_loop E (S fuel) page total ce s
        = (Stopped NoNextPage, total + List.length page_data, s4)) /\
  ((forall k, sleep_interrupted E k = false) ->
   (forall k url, exists r,
       session_get E k url = Responded r /\ empty_page_with_next E r) ->
   forall fuel page total ce s,
     max_pages s = None ->
     test_mode s = false ->
     ce < 3 ->
     3 - ce <= fuel ->
     exists s',
       scrape_loop E fuel page total ce s
         = (Stopped ThreeConsecutiveEmpty, total, s') /\
       requests_in (trace s') = requests_in (trace s) + (3 - ce)) /\
  (forall m,
      m <> 0%Z ->
      limit_stops_the_run E m /\
      forall fuel page total ce s,
        max_pages s = Some m ->
        1 <= fuel ->
        (m + 2 <= Z.of_nat page + Z.of_nat fuel)%Z ->
        fst (fst (scrape_loop E fuel page total ce s)) <> OutOfFuel).
Proof.
  repeat apply conj.
  - intros fuel page total ce s H. cbn [scrape_loop]. now rewrite H.
  - intros fuel page total ce s H1 H2. cbn [scrape_loop]. now rewrite H1, H2.
  - intros fuel page total ce s fetched s1 H1 H2 H3 H4.
    cbn [scrape_loop]. rewrite H1, H2, H3.
    destruct fetched as [r|]; [now rewrite H4 | reflexivity].
  - intros fuel page total ce s r s1 s2 H1 H2 H3 H4 H5 H6.
    cbn [scrape_loop]. rewrite H1, H2, H3, H4, H5.
    apply Nat.leb_le in H6. now rewrite H6.
  - intros fuel page total ce s r s1 page_data s2 s4 H1 H2 H3 H4 H5 H6 H7.
    cbn [scrape_loop]. rewrite H1, H2, H3, H4, H5.
    destruct page_data as [|rec recs].
    + destruct H6 as [H6|H6]; [congruence|].
      apply Nat.leb_gt in H6. rewrite H6, H7. cbn. now rewrite Nat.add_0_r.
    + now rewrite H7.
  - apply three_empty_pages_stop.
  - intros m Hm. split.
    + intros fuel page total ce s Hmax Hlt. cbn [scrape_loop].
      rewrite Hmax, limit_reached_spec by exact Hm.
      apply Z.ltb_lt in Hlt. now rewrite Hlt.
    + apply limited_run_terminates. exact Hm.
Qed.

Lemma stop_conditions_in_order_witness :
  (exists s',
      scrape_loop (stub_env (always body_empty) no_faults) 3 1 0 0 fresh
        = (Stopped ThreeConsecutiveEmpty, 0, s') /\
      requests_in (trace s') = 3) /\
  fst (fst (scrape_loop (stub_env (always body_full) no_faults) 1 3 2 0 (limited 2)))
    = Stopped MaxPagesReached.
Proof.
  split.
  - destruct (stop_conditions_in_order (stub_env (always body_empty) no_faults))
      as (_ & _ & _ & _ & _ & Hthree & _).
    apply (Hthree (fun _ => eq_refl)); try reflexivity; try lia.
    intros k url. exists (mkResponse 200 body_empty).
    split; [reflexivity|]. split; [reflexivity|]. split; [reflexivity|].
    intros s. reflexivity.
  - destruct (stop_conditions_in_order (stub_env (always body_full) no_faults))
      as (_ & _ & _ & _ & _ & _ & Hlimit).
    destruct (Hlimit 2%Z) as [Hstop _]; [discriminate|].
    apply Hstop; reflexivity.
Defined.

(** C5. The page limit 0 is ignored.  The guard
    [self.max_pages and page > self.max_pages] takes the limit 0 for "no
    limit": with [max_pages = 0] the limit test never fires, whatever the
    page.  So the claim that a run with a page limit stops upon exceeding it
    fails for the limit 0: on a site that serves a full page with a next link
    every time, the run with limit 0 fetches page 1, which exceeds the limit,
    and is still running after five pages, five requests and five records,
    where the limits -1 and 2 stop the loop as soon as the page number
    exceeds them. *)
Theorem page_limit_zero_is_ignored :
  (forall page, limit_reached (Some 0%Z) page = false) /\
  ~ limit_stops_the_run (stub_env (always body_full) no_faults) 0 /\
  scrape_loop (stub_env (always body_full) no_faults) 5 1 0 0 (limited 0)
    = (OutOfFuel, 5,
       snd (scrape_loop (stub_env (always body_full) no_faults) 5 1 0 0 (limited 0))) /\
  requests_in (trace (snd (scrape_loop (stub_env (always body_full) no_faults)
                             5 1 0 0 (limited 0)))) = 5 /\
  fst (fst (scrape_loop (stub_env (always body_full) no_faults) 5 1 0 0 (limited (-1))))
    = Stopped MaxPagesReached /\
  fst (fst (scrape_loop (stub_env (always body_full) no_faults) 5 3 2 0 (limited 2)))
    = Stopped MaxPagesReached.
Proof.
  split; [reflexivity|]. split.
  { intros H. specialize (H 0 1 0 0 (limited 0) eq_refl eq_refl).
    vm_compute in H. discriminate H. }
  split; [vm_compute; reflexivity|]. split; [vm_compute; reflexivity|].
  split; vm_compute; reflexivity.
Qed.

Example limit_zero_keeps_fetching :
  let '(x, total, s) :=
    scrape_loop (stub_env (always body_full) no_faults) 5 1 0 0 (limited 0) in
  x = OutOfFuel /\ total = 5 /\ requests_in (trace s) = 5.
Proof. vm_compute. repeat split. Qed.

Example limit_two_stops_after_two_pages :
  let '(x, total, s) :=
    scrape_loop (stub_env (always body_full) no_faults) 5 1 0 0 (limited 2) in
  x = Stopped MaxPagesReached /\ total = 2 /\ requests_in (trace s) = 2.
Proof. vm_compute. repeat split. Qed.

(** ** Every exit path of [scrape_database] *)

Lemma _save_progress_clears (E : env) (force_save : bool) (s : state) :
  scraped_data (snd (_save_progress E force_save s)) = [].
Proof.
  destruct (scraped_data s) as [|r rs] eqn:Hbuf.
  - unfold _save_progress, bind, get_state. rewrite Hbuf. exact Hbuf.
  - apply _save_progress_cases. congruence.
Qed.

Lemma _save_progress_accounted (E : env) (force_save : bool) (n : nat) (s : state) :
  (forall k, write_faults E k = None) ->
  accounted n s -> accounted n (snd (_save_progress E force_save s)).
Proof.
  intros Hfaults [Hread Hsum].
  destruct (scraped_data s) as [|r rs] eqn:Hdata.
  - unfold _save_progress, bind, get_state. rewrite Hdata. cbn.
    split; [exact Hread | now rewrite Hdata].
  - assert (Hne : scraped_data s <> []) by congruence.
    pose proof (_save_progress_cases E force_save s Hne) as (_ & Hclear & Hcases).
    unfold accounted. rewrite Hclear. rewrite <- Hdata in Hsum.
    destruct (disk s) as [[old|e]|] eqn:Hd; [| destruct Hread |];
      rewrite Hfaults in Hcases; destruct Hcases as (_ & -> & _); cbn.
    + split; [exact I|]. cbn in Hsum. unfold len in *. cbn.
      rewrite length_app, !length_map. lia.
    + split; [exact I|]. cbn in Hsum. unfold len. cbn. rewrite length_map. lia.
Qed.

Lemma accounted_untouched (n : nat) (s s' : state) :
  untouched s s' -> accounted n s -> accounted n s'.
Proof.
  unfold untouched, accounted. intros H [Hr Hs].
  decompose [and] H. split; congruence.
Qed.

Lemma after_page_accounted (E : env) (page : nat) (body : string) (n : nat) (s : state) :
  (forall k, write_faults E k = None) ->
  accounted n s -> accounted n (snd (after_page E page body s)).
Proof.
  intros Hfaults H. unfold after_page, bind.
  assert (Hsave : exists s1,
     (if page mod SAVE_INTERVAL =? 0 then _save_progress E false else ret tt) s
       = (Ok tt, s1) /\ accounted n s1).
  { destruct (page mod SAVE_INTERVAL =? 0).
    - exists (snd (_save_progress E false s)). split.
      + rewrite (surjective_pairing (_save_progress E false s)).
        now rewrite _save_progress_never_raises.
      + now apply _save_progress_accounted.
    - exists s. split; [reflexivity | exact H]. }
  destruct Hsave as (s1 & -> & Hs1).
  destruct (Dom.find_with "a" "rel" "next" (BeautifulSoup E body)); exact Hs1.
Qed.

Lemma scrape_loop_accounted (E : env) (base : nat) :
  (forall k, write_faults E k = None) ->
  forall fuel page total ce s,
    accounted (base + total) s ->
    accounted (base + snd (fst (scrape_loop E fuel page total ce s)))
      (snd (scrape_loop E fuel page total ce s)).
Proof.
  intros Hfaults.
  induction fuel as [|fuel IH]; intros page total ce s Hs; cbn [scrape_loop].
  - exact Hs.
  - destruct (limit_reached (max_pages s) page); [exact Hs|].
    destruct (test_mode s && (2 <? page)); [exact Hs|].
    pose proof (fetch_page_untouched E page s) as Hf.
    destruct (fetch_page E page s) as [[fetched|e] s1]; cbn [fst snd] in Hf |- *;
      [|eapply accounted_untouched; eauto].
    assert (Hs1 : accounted (base + total) s1) by (eapply accounted_untouched; eauto).
    destruct fetched as [response|]; [|exact Hs1].
    destruct (unavailable (Some response)); [exact Hs1|].
    pose proof (_parse_page_untouched E (text response) s1) as Hp.
    destruct (_parse_page E (text response) s1) as [[page_data|e] s2];
      cbn [fst snd] in Hp |- *; [|eapply accounted_untouched; eauto].
    assert (Hs2 : accounted (base + total) s2) by (eapply accounted_untouched; eauto).
    assert (Hcont : forall t c s3, accounted (base + t) s3 ->
      let r := match after_page E page (text response) s3 with
               | (Raise e, s4) => (Propagated e, t, s4)
               | (Ok false, s4) => (Stopped NoNextPage, t, s4)
               | (Ok true, s4) => scrape_loop E fuel (page + 1) t c s4
               end in
      accounted (base + snd (fst r)) (snd r)).
    { intros t c s3 Hs3.
      pose proof (after_page_accounted E page (text response) _ s3 Hfaults Hs3) as Ha.
      destruct (after_page E page (text response) s3) as [[[|]|e] s4];
        cbn [fst snd] in Ha |- *; auto. }
    destruct page_data as [|r rs].
    + destruct (3 <=? ce + 1); [exact Hs2 | now apply Hcont].
    + apply Hcont. destruct Hs2 as [Hr Hsum]. split; [exact Hr|].
      cbn [scraped_data set_scraped_data disk]. rewrite length_app. lia.
Qed.

Lemma cleanup_run (E : env) (total : nat) (s : state) :
  cleanup E total s
  = (Ok tt,
     set_session_open false
       (set_trace (trace (snd (_save_progress E true s)) ++ [SessionClose])
          (do_log INFO (ScrapingComplete total) (snd (_save_progress E true s))))).
Proof.
  unfold cleanup, session_close, bind.
  pose proof (_save_progress_never_raises E true s) as Hok.
  destruct (_save_progress E true s) as [r s1]. cbn [fst snd] in *. subst r.
  reflexivity.
Qed.

Lemma handle_exit_accounted (n : nat) (x : loop_exit) (s : state) :
  accounted n s -> accounted n (snd (handle_exit x s)).
Proof.
  intros H. unfold handle_exit. destruct x as [r|e|]; try exact H.
  destruct (is_KeyboardInterrupt e); [exact H|].
  destruct (is_Exception e); exact H.
Qed.

(** C9. Whenever the loop is left, by a stop condition, by an exception or
    by an interrupt, the run flushes the buffer with [force_save], logs the
    total and closes the session, in this order; the buffer is then empty and
    the session closed.  After a stop, an [Exception] or a
    [KeyboardInterrupt] the run returns the loop's [total_records], and on a
    disk without write faults that total is the number of rows the run has
    added to what the file and the buffer held. *)
Theorem every_exit_flushes_and_closes
    (E : env) (fuel : nat) (s : state) (x : loop_exit) (total : nat) (s1 : state) :
  scrape_loop E fuel 1 0 0 (do_log INFO Starting s) = (x, total, s1) ->
  x <> OutOfFuel ->
  let s2 := snd (handle_exit x s1) in
  let flushed := snd (_save_progress E true s2) in
  let final := snd (scrape_database E fuel s) in
  fst (_save_progress E true s2) = Ok tt /\
  final = set_session_open false
            (set_trace (trace flushed ++ [SessionClose])
               (do_log INFO (ScrapingComplete total) flushed)) /\
  scraped_data final = [] /\
  session_open final = false /\
  (match x with
   | Propagated e => is_KeyboardInterrupt e = true \/ is_Exception e = true
   | _ => True
   end -> fst (scrape_database E fuel s) = Returned total) /\
  ((forall k, write_faults E k = None) ->
   forall n, accounted n s -> rows_on_disk (disk final) = n + total).
Proof.
  intros Hloop Hx s2 flushed final.
  assert (Hfinal : final = set_session_open false
            (set_trace (trace flushed ++ [SessionClose])
               (do_log INFO (ScrapingComplete total) flushed))).
  { unfold final, flushed, s2, scrape_database. rewrite Hloop.
    destruct x as [r|e|]; [| |congruence];
      destruct (handle_exit _ s1) as [pending s2'] eqn:Hh; cbn [snd];
      rewrite cleanup_run; destruct pending; reflexivity. }
  split; [apply _save_progress_never_raises|].
  split; [exact Hfinal|].
  split; [rewrite Hfinal; cbn; apply _save_progress_clears|].
  split; [rewrite Hfinal; reflexivity|].
  split.
  - intros Hkind. unfold scrape_database. rewrite Hloop.
    destruct x as [r|e|]; [| |congruence].
    + cbn [handle_exit]. rewrite cleanup_run. reflexivity.
    + unfold handle_exit.
      destruct (is_KeyboardInterrupt e) eqn:Hk; [rewrite cleanup_run; reflexivity|].
      destruct (is_Exception e) eqn:He; [rewrite cleanup_run; reflexivity|].
      destruct Hkind; discriminate.
  - intros Hfaults n Hacc.
    pose proof (scrape_loop_accounted E n Hfaults fuel 1 0 0 (do_log INFO Starting s)) as Hl.
    rewrite Hloop in Hl. cbn [fst snd] in Hl.
    assert (H0 : accounted (n + 0) (do_log INFO Starting s)).
    { rewrite Nat.add_0_r. exact Hacc. }
    specialize (Hl H0).
    pose proof (handle_exit_accounted _ x s1 Hl) as Hh. fold s2 in Hh.
    pose proof (_save_progress_accounted E true _ s2 Hfaults Hh) as [_ Hsum].
    fold flushed in Hsum.
    rewrite Hfinal. cbn [disk set_session_open set_trace do_log set_log].
    unfold flushed in Hsum |- *. rewrite _save_progress_clears in Hsum.
    cbn [List.length] in Hsum. lia.
Qed.

Lemma every_exit_flushes_and_closes_witness :
  fst (scrape_database (stub_env interrupted no_faults) 5 fresh) = Returned 1 /\
  session_open (snd (scrape_database (stub_env interrupted no_faults) 5 fresh)) = false /\
  rows_on_disk (disk (snd (scrape_database (stub_env interrupted no_faults) 5 fresh))) = 1.
Proof.
  pose (r := scrape_loop (stub_env interrupted no_faults) 5 1 0 0 (do_log INFO Starting fresh)).
  destruct (every_exit_flushes_and_closes (stub_env interrupted no_faults) 5 fresh
              (fst (fst r)) (snd (fst r)) (snd r))
    as (_ & _ & _ & Hclosed & Hret & Hrows).
  - vm_compute. reflexivity.
  - vm_compute. discriminate.
  - split; [|split].
    + apply Hret. vm_compute. left. reflexivity.
    + exact Hclosed.
    + apply (Hrows (fun _ => eq_refl) 0). split; [exact I | reflexivity].
Defined.

Example interrupted_run_log :
  log (snd (scrape_database (stub_env interrupted no_faults) 5 fresh))
  = [(INFO, Starting);
     (WARNING, InvalidAddress "not-an-address");
     (INFO, InterruptedByUser);
     (INFO, SavedRecords 1 "bitcoin_keys.csv");
     (INFO, ScrapingComplete 1)].
Proof. vm_compute. reflexivity. Qed.

(** ** Search: [search_database] *)

#[local] Arguments select_columns : simpl never.


Ltac scbn := cbn -[String.eqb String.append].

(** Decide the comparisons of two string literals. *)
Ltac ground_eqb :=
  repeat match goal with
         | |- context [String.eqb ?a ?b] =>
             let v := eval vm_compute in (String.eqb a b) in
             match v with
             | true => change (String.eqb a b) with true
             | false => change (String.eqb a b) with false
             end
         end.

Ltac unfold_search :=
  unfold search_with, search_body, read_csv, write_export, store_export,
    try_except, bind, get_state, path_exists, emit, logging, modify, next_tick,
    ret, raise;
  scbn.

Lemma empty_no_rows (cols : list string) : empty (mkDataFrame cols []) = true.
Proof. reflexivity. Qed.



(** The search is total, and every keyword has its pattern. *)
Lemma search_database_run (E : env) (keyword output_format : string) (s : state) :
  search_database E keyword output_format s
  = Some (search_with E (pattern_of E keyword) keyword output_format s).
Proof. reflexivity. Qed.




Example search_export_is_named_after_keyword :
  exports (snd (search_with (stub_env down no_faults) (Re.re_compile "5hp")
                  "5hp" "json" with_ledger))
  = [("search_results_5hp.json", JsonExport (to_dict (mkDataFrame record_columns
                                                     (firstn 1 (data ledger)))))].
Proof. vm_compute. reflexivity. Qed.

(** An export to [output_file] itself replaces the dataset. *)
Example export_onto_the_dataset :
  disk (snd (search_with (stub_env down no_faults) (Re.re_compile "5hp") "5hp" "csv"
               (__init__ "search_results_5hp.csv" None false None (Some (Table ledger)))))
  = Some (Table (mkDataFrame record_columns (firstn 1 (data ledger)))).
Proof. vm_compute. reflexivity. Qed.

(** *** Keywords as regular expressions *)








(** C7. The keyword reaches [str.contains] with [regex=True], so it is
    matched as a regular expression.  On the ledger, the keyword [0.5]
    returns both rows although only the first holds the substring [0.5], and
    the keyword [?page] returns nothing, the search failing on [re.error],
    although the first row holds the substring [?page]. *)
Theorem search_treats_keyword_as_regex :
  (expected_rows "0.5" ledger = firstn 1 (data ledger) /\
   fst (search_with (stub_env down no_faults) (Re.re_compile "0.5") "0.5" "console"
          with_ledger)
   = Ok (to_dict ledger)) /\
  (expected_rows "?page" ledger = firstn 1 (data ledger) /\
   search_database (stub_env down no_faults) "?page" "console" with_ledger
   = Some (Ok [],
           set_log [(INFO, Searching "?page"); (ERROR, SearchFailed re_error)]
             (set_trace [ReadCsv "bitcoin_keys.csv"] with_ledger))).
Proof.
  split; split; vm_compute; reflexivity.
Qed.

Example search_is_case_insensitive :
  fst (search_with (stub_env down no_faults) (Re.re_compile "KWDIBF") "KWDIBF" "console"
         with_ledger)
  = Ok (to_dict (mkDataFrame record_columns (skipn 1 (data ledger)))).
Proof. vm_compute. reflexivity. Qed.

(* ===================================================================== *)
(** * Part III: further properties of the code                            *)
(* ===================================================================== *)

(** ** Proxy rotation and the politeness delay *)

Lemma set_proxy_index_same (s : state) : set_proxy_index (proxy_index s) s = s.
Proof. destruct s. reflexivity. Qed.

Lemma _rotate_proxy_state (s : state) :
  proxies s <> [] ->
  _rotate_proxy s
  = (Ok (Some (nth ((proxy_index s + 1) mod List.length (proxies s)) (proxies s) "")),
     set_proxy_index ((proxy_index s + 1) mod List.length (proxies s)) s).
Proof.
  intros H. unfold _rotate_proxy, bind, get_state.
  destruct (proxies s) as [|q qs] eqn:Hp; [congruence|]. reflexivity.
Qed.

Lemma rotate_times_state (k : nat) :
  forall s,
    proxy_index s < List.length (proxies s) ->
    rotate_times k s
    = set_proxy_index ((proxy_index s + k) mod List.length (proxies s)) s.
Proof.
  induction k as [|k IH]; intros s Hlt; cbn [rotate_times].
  - rewrite Nat.add_0_r, Nat.mod_small by exact Hlt.
    symmetry. apply set_proxy_index_same.
  - assert (Hne : proxies s <> []) by (destruct (proxies s); cbn in Hlt; [lia | discriminate]).
    rewrite (_rotate_proxy_state s Hne). cbn [snd].
    rewrite IH.
    + destruct s; unfold set_proxy_index; cbn. f_equal.
      rewrite Nat.Div0.add_mod_idemp_l. f_equal. lia.
    + destruct s; cbn in *. apply Nat.mod_upper_bound. lia.
Qed.

(** X1. [_rotate_proxy] is a round robin over the pool.  With an empty pool
    it returns [None] and changes nothing.  With a cursor inside the pool,
    each call returns the pool entry after the cursor, cyclically, and moves
    only the cursor; after [k] calls the cursor has advanced by [k] modulo the
    pool size and is still inside the pool, so a full turn restores the
    state. *)
Theorem proxy_rotation_is_round_robin (s : state) :
  (proxies s = [] -> _rotate_proxy s = (Ok None, s)) /\
  (proxy_index s < List.length (proxies s) ->
   (exists q,
       fst (_rotate_proxy s) = Ok (Some q) /\
       nth_error (proxies s) ((proxy_index s + 1) mod List.length (proxies s)) = Some q) /\
   (forall k,
       rotate_times k s
       = set_proxy_index ((proxy_index s + k) mod List.length (proxies s)) s /\
       proxy_index (rotate_times k s) < List.length (proxies s)) /\
   rotate_times (List.length (proxies s)) s = s).
Proof.
  split.
  - intros H. unfold _rotate_proxy, bind, get_state. now rewrite H.
  - intros Hlt.
    assert (Hne : proxies s <> []) by (destruct (proxies s); cbn in Hlt; [lia | discriminate]).
    assert (Hpos : List.length (proxies s) <> 0) by lia.
    split; [|split].
    + rewrite (_rotate_proxy_state s Hne). cbn [fst]. eexists. split; [reflexivity|].
      apply nth_error_nth'. now apply Nat.mod_upper_bound.
    + intros k. rewrite (rotate_times_state k s Hlt). split; [reflexivity|].
      destruct s; cbn in *. now apply Nat.mod_upper_bound.
    + rewrite (rotate_times_state _ s Hlt).
      replace (proxy_index s + List.length (proxies s))
        with (proxy_index s + 1 * List.length (proxies s)) by lia.
      rewrite Nat.Div0.mod_add, Nat.mod_small by exact Hlt.
      apply set_proxy_index_same.
Qed.

Lemma proxy_rotation_is_round_robin_witness :
  proxy_index pooled < List.length (proxies pooled) /\
  fst (_rotate_proxy pooled) = Ok (Some "http://p0") /\
  proxy_index (rotate_times 5 pooled) = 1 /\
  rotate_times 3 pooled = pooled.
Proof.
  assert (Hlt : proxy_index pooled < List.length (proxies pooled)) by (cbn; lia).
  destruct (proxy_rotation_is_round_robin pooled) as [_ H].
  destruct (H Hlt) as ((q & Hq & Hnth) & Hk & Hturn).
  split; [exact Hlt|]. split; [|split].
  - rewrite Hq. cbn in Hnth. inversion Hnth. reflexivity.
  - destruct (Hk 5) as [-> _]. reflexivity.
  - exact Hturn.
Defined.

Lemma uniform_delay_bounds (x : Q) :
  (0 <= x < 1)%Q ->
  (MIN_DELAY <= uniform MIN_DELAY MAX_DELAY x <= MAX_DELAY)%Q.
Proof.
  intros [H0 H1]. unfold uniform.
  assert (Hspan : Float.sub MAX_DELAY MIN_DELAY = 4%Q) by (vm_compute; reflexivity).
  rewrite Hspan. unfold Float.add, Float.mul, MIN_DELAY, MAX_DELAY.
  destruct (round_between 0 4 (4 * x)) as [Hlo Hhi];
    [lia | reflexivity | change (inject_Z 0) with 0%Q; change (inject_Z 4) with 4%Q;
                         split; lra |].
  change (inject_Z 0) with 0%Q in Hlo. change (inject_Z 4) with 4%Q in Hhi.
  apply (round_between 3 7); [lia | reflexivity |].
  change (inject_Z 3) with 3%Q. change (inject_Z 7) with 7%Q. split; lra.
Qed.


(** ** How the trace grows *)

Section Growth.

Variable P : event -> Prop.

Lemma grows_refl (s : state) : grows P s s.
Proof. exists []. split; [now rewrite app_nil_r | constructor]. Qed.

Lemma grows_trans (a b c : state) : grows P a b -> grows P b c -> grows P a c.
Proof.
  intros (m1 & H1 & F1) (m2 & H2 & F2). exists (m1 ++ m2). split.
  - now rewrite H2, H1, app_assoc.
  - apply Forall_app. now split.
Qed.

Lemma grows_same_trace (s s' : state) : trace s' = trace s -> grows P s s'.
Proof. intros H. exists []. split; [now rewrite app_nil_r | constructor]. Qed.

Lemma grows_log (v : list (level * message)) (s : state) : grows P s (set_log v s).
Proof. now apply grows_same_trace. Qed.

Lemma grows_tick (v : nat) (s : state) : grows P s (set_tick v s).
Proof. now apply grows_same_trace. Qed.

Lemma grows_proxy_index (v : nat) (s : state) : grows P s (set_proxy_index v s).
Proof. now apply grows_same_trace. Qed.

Lemma grows_emit (e : event) : P e -> keeps (grows P) (emit e).
Proof. intros He s. exists [e]. split; [reflexivity | now constructor]. Qed.

Ltac grow :=
  repeat (intros;
          first [ solve [auto 2]
                | apply (keeps_ret (grows P) grows_refl)
                | apply (keeps_raise (grows P) grows_refl)
                | apply (keeps_get_state (grows P) grows_refl)
                | apply (keeps_logging (grows P) grows_log)
                | apply (keeps_next_tick (grows P) grows_tick)
                | apply (keeps_set_proxy_index (grows P) grows_proxy_index)
                | apply grows_emit; solve [auto 2]
                | apply (keeps_bind (grows P) grows_trans)
                | apply (keeps_try_except (grows P) grows_trans)
                | apply (keeps_try_finally (grows P) grows_trans)
                | match goal with
                  | |- keeps _ (match ?x with _ => _ end) => destruct x
                  end ]).

Variable E : env.
Hypothesis P_sleep : forall q, P (Sleep q).

Lemma grows_time_sleep (q : Q) : keeps (grows P) (time_sleep E q).
Proof. unfold time_sleep. grow. Qed.

Lemma grows_choose_proxies : keeps (grows P) choose_proxies.
Proof. unfold choose_proxies, _rotate_proxy. grow. Qed.

Lemma grows_attempt_body (url : string) :
  (forall ua chosen, P (Get url ua chosen)) -> keeps (grows P) (attempt_body E url).
Proof.
  intros Hget. unfold attempt_body, _get_user_agent.
  pose proof grows_choose_proxies. grow.
Qed.

Lemma grows_attempt_failed (attempt : nat) (e : exn) :
  keeps (grows P) (attempt_failed E attempt e).
Proof. unfold attempt_failed. pose proof grows_time_sleep. grow. Qed.

Lemma grows_retry_loop (url : string) (attempts : list nat) :
  (forall ua chosen, P (Get url ua chosen)) ->
  keeps (grows P) (retry_loop E url attempts).
Proof.
  intros Hget. induction attempts as [|a rest IH]; cbn [retry_loop].
  - grow.
  - pose proof (grows_attempt_body url Hget). pose proof grows_attempt_failed. grow.
Qed.

Lemma grows_fetch_page (page : nat) :
  (forall ua chosen, P (Get (page_url page) ua chosen)) ->
  keeps (grows P) (fetch_page E page).
Proof.
  intros Hget. unfold fetch_page, _request_with_retry, _get_random_delay.
  pose proof grows_time_sleep. pose proof (grows_retry_loop (page_url page)).
  grow.
Qed.

Lemma grows__parse_page (html : string) : keeps (grows P) (_parse_page E html).
Proof. intros s. apply grows_same_trace, _parse_page_trace. Qed.

Lemma grows__save_progress (force_save : bool) (s : state) :
  P (ReadCsv (output_file s)) ->
  P (WriteCsv (output_file s)) ->
  grows P s (snd (_save_progress E force_save s)).
Proof.
  intros Hread Hwrite.
  destruct (scraped_data s) as [|r0 rs] eqn:Hbuf.
  - unfold _save_progress, bind, get_state. rewrite Hbuf. apply grows_refl.
  - open_state s. subst sd. unfold_store. unfold grows. cbn.
    destruct d as [[df|e]|]; cbn;
      try (destruct (write_faults E tk) as [[e|e k]|]; cbn);
      rewrite ?io_errors_are_Exceptions; cbn;
      try destruct force_save; cbn;
      rewrite <- ?app_assoc; eexists; (split; [reflexivity|]);
      repeat constructor; assumption.
Qed.

Lemma grows_after_page (page : nat) (body : string) (s : state) :
  P (ReadCsv (output_file s)) ->
  P (WriteCsv (output_file s)) ->
  grows P s (snd (after_page E page body s)).
Proof.
  intros Hread Hwrite. unfold after_page, bind.
  destruct (page mod SAVE_INTERVAL =? 0).
  - pose proof (_save_progress_never_raises E false s) as Hok.
    pose proof (grows__save_progress false s Hread Hwrite) as Hg.
    destruct (_save_progress E false s) as [r s1]. cbn [fst snd] in *. subst r.
    destruct (Dom.find_with "a" "rel" "next" (BeautifulSoup E body)); cbn;
      [exact Hg | eapply grows_trans; [exact Hg | apply grows_log]].
  - unfold ret.
    destruct (Dom.find_with "a" "rel" "next" (BeautifulSoup E body)); cbn;
      [apply grows_refl | apply grows_log].
Qed.

End Growth.

Lemma fetch_page_unfold (E : env) (page : nat) (s : state) :
  let delay := uniform MIN_DELAY MAX_DELAY (random_random E (tick s)) in
  let s1 := set_trace (trace s ++ [Sleep delay]) (set_tick (S (S (tick s))) s) in
  fetch_page E page s
  = if sleep_interrupted E (S (tick s))
    then (Raise KeyboardInterrupt, s1)
    else _request_with_retry E (page_url page) s1.
Proof.
  destruct s. unfold fetch_page, _get_random_delay, time_sleep, bind, next_tick,
    emit, modify, ret, raise. cbn.
  destruct (sleep_interrupted E (S tick0)); reflexivity.
Qed.

(** X2. Every page fetch begins with the politeness sleep, before any
    request: its length is [random.uniform(3.0, 7.0)], that is
    [3.0 + 4.0 * random()] in float arithmetic, hence between 3 and 7
    seconds, both included, when the sample is in [[0, 1)].  If that sleep is
    interrupted the fetch raises [KeyboardInterrupt] and no request has been
    made. *)
Theorem politeness_delay_comes_first (E : env) (page : nat) (s : state) :
  (0 <= random_random E (tick s) < 1)%Q ->
  exists delay more,
    (3 <= delay <= 7)%Q /\
    trace (snd (fetch_page E page s)) = trace s ++ Sleep delay :: more /\
    (sleep_interrupted E (S (tick s)) = true ->
     fst (fetch_page E page s) = Raise KeyboardInterrupt /\ more = []).
Proof.
  intros Hrand.
  exists (uniform MIN_DELAY MAX_DELAY (random_random E (tick s))).
  pose proof (uniform_delay_bounds _ Hrand) as Hbounds.
  rewrite fetch_page_unfold. cbv zeta.
  destruct (sleep_interrupted E (S (tick s))) eqn:Hint.
  - exists []. cbn [fst snd trace set_trace set_tick].
    split; [exact Hbounds|]. split; [reflexivity|]. intros _. split; reflexivity.
  - match goal with
    | |- context [_request_with_retry E ?u ?s1] =>
        destruct (grows_retry_loop (fun _ => True) E (fun _ => I) u (seq 0 RETRY_LIMIT)
                    (fun _ _ => I) s1) as (more & Hmore & _)
    end.
    exists more. unfold _request_with_retry. rewrite Hmore. cbn [trace set_trace set_tick].
    rewrite <- app_assoc.
    split; [exact Hbounds|]. split; [reflexivity | discriminate].
Qed.

Lemma politeness_delay_comes_first_witness :
  exists delay more,
    (3 <= delay <= 7)%Q /\
    trace (snd (fetch_page (stub_env (always body_last) no_faults) 1 fresh))
    = Sleep delay :: more.
Proof.
  destruct (politeness_delay_comes_first (stub_env (always body_last) no_faults) 1 fresh)
    as (delay & more & Hrange & Htrace & _).
  - split; unfold Qle, Qlt; cbn; lia.
  - exists delay, more. split; [exact Hrange | exact Htrace].
Defined.

(** ** More on the fetcher *)

Lemma nth_all_empty (l : list string) (i : nat) :
  Forall (fun q => q = "") l -> nth i l "" = "".
Proof.
  intros H. revert i. induction H as [|q l Hq _ IH]; intros [|i]; cbn; auto.
Qed.

(** X3. Which proxy an attempt uses.  Without [--proxy], or with the values
    [""] and ["none"], the request goes out directly and nothing changes.  A
    fixed proxy is used as it is, again without any change of state.  In
    rotation mode ([auto]) a pool that holds only empty strings, as the
    shipped [PROXY_LIST] does, yields no proxy and no "Using proxy" line. *)
Theorem proxy_choice (s : state) :
  (proxy s = None \/ proxy s = Some "" \/ proxy s = Some "none" ->
   choose_proxies s = (Ok None, s)) /\
  (forall p,
      proxy s = Some p -> p <> "" -> p <> "none" -> p <> "auto" ->
      choose_proxies s = (Ok (Some p), s)) /\
  (proxy s = Some "auto" ->
   Forall (fun q => q = "") (proxies s) ->
   fst (choose_proxies s) = Ok None /\
   log (snd (choose_proxies s)) = log s /\
   trace (snd (choose_proxies s)) = trace s).
Proof.
  split; [|split].
  - intros [H | [H | H]]; unfold choose_proxies, bind, get_state; rewrite H; reflexivity.
  - intros p Hp Hne Hnone Hauto. unfold choose_proxies, bind, get_state. rewrite Hp.
    apply String.eqb_neq in Hne, Hnone, Hauto.
    unfold nonempty. rewrite Hne, Hnone, Hauto. reflexivity.
  - intros Hauto Hpool. destruct s. cbn [proxy proxies log trace] in *. subst proxy0.
    unfold choose_proxies, _rotate_proxy, bind, get_state, modify, logging, ret.
    cbn -[nth Nat.modulo].
    destruct proxies0 as [|q qs]; [repeat split|].
    cbn -[nth Nat.modulo].
    rewrite (nth_all_empty _ _ Hpool). cbn. repeat split.
Qed.

Lemma proxy_choice_witness :
  choose_proxies (via_proxy "http://10.0.0.1:8080")
    = (Ok (Some "http://10.0.0.1:8080"), via_proxy "http://10.0.0.1:8080") /\
  fst (choose_proxies (via_proxy "auto")) = Ok None.
Proof.
  destruct (proxy_choice (via_proxy "http://10.0.0.1:8080")) as (_ & Hfixed & _).
  destruct (proxy_choice (via_proxy "auto")) as (_ & _ & Hauto).
  split.
  - apply Hfixed; [reflexivity | discriminate ..].
  - apply Hauto; [reflexivity | repeat constructor].
Defined.

Lemma attempt_failed_cases (E : env) (attempt : nat) (e : exn) (s : state) :
  let wait := backoff attempt (random_random E (tick s)) in
  (fst (attempt_failed E attempt e s) = Ok tt \/
   fst (attempt_failed E attempt e s) = Raise KeyboardInterrupt) /\
  trace (snd (attempt_failed E attempt e s)) = trace s ++ [Sleep wait].
Proof.
  unfold attempt_failed, time_sleep, bind, next_tick, logging, emit, modify, ret, raise.
  cbn. destruct (sleep_interrupted E (S (tick s))); cbn; auto.
Qed.

Lemma classify_inr (o : get_outcome) (r : response) :
  classify o = inr r -> classify (Responded r) = inr r.
Proof.
  destruct o as [r0|e]; [|discriminate].
  intros H. destruct (classify_ok_status r0 r H) as [-> _]. exact H.
Qed.

Lemma retry_loop_cons (E : env) (url : string) (a : nat) (rest : list nat) (s : state) :
  exists chosen s1,
    tick s1 = tick s + 2 /\
    trace s1 = trace s ++ [Get url (user_agent E (tick s)) chosen] /\
    retry_loop E url (a :: rest) s
    = match classify (session_get E (S (tick s)) url) with
      | inr r => (Ok (Some r), s1)
      | inl e =>
          if fetch_catches e then
            match attempt_failed E a e s1 with
            | (Ok _, s2) => retry_loop E url rest s2
            | (Raise e', s2) => (Raise e', s2)
            end
          else (Raise e, s1)
      end.
Proof.
  destruct (attempt_body_run E url s) as (chosen & s1 & Hrun & Ht1 & Htr1).
  exists chosen, s1. split; [exact Ht1|]. split; [exact Htr1|].
  cbn [retry_loop]. unfold bind at 1. unfold try_except. unfold bind at 1. rewrite Hrun.
  destruct (classify (session_get E (S (tick s)) url)) as [e|r0]; [|reflexivity].
  destruct (fetch_catches e); [|reflexivity].
  unfold bind at 1. destruct (attempt_failed E a e s1) as [[u|e'] s2]; reflexivity.
Qed.

Lemma retry_loop_facts (E : env) (url : string) (attempts : list nat) :
  forall s,
    (forall resp, fst (retry_loop E url attempts s) = Ok (Some resp) ->
                  classify (Responded resp) = inr resp) /\
    requests_in (trace (snd (retry_loop E url attempts s)))
      <= requests_in (trace s) + List.length attempts /\
    List.length (sleeps_of (trace (snd (retry_loop E url attempts s))))
      + requests_in (trace s)
      <= List.length (sleeps_of (trace s))
         + requests_in (trace (snd (retry_loop E url attempts s))) /\
    requests_in (trace s) <= requests_in (trace (snd (retry_loop E url attempts s))) /\
    (attempts <> [] ->
     requests_in (trace s) < requests_in (trace (snd (retry_loop E url attempts s)))).
Proof.
  induction attempts as [|a rest IH]; intros s.
  - cbn. repeat split; try lia; try discriminate. congruence.
  - destruct (retry_loop_cons E url a rest s) as (chosen & s1 & Ht1 & Htr1 & ->).
    assert (Hreq1 : requests_in (trace s1) = requests_in (trace s) + 1).
    { rewrite Htr1, requests_in_app. reflexivity. }
    assert (Hsl1 : sleeps_of (trace s1) = sleeps_of (trace s)).
    { rewrite Htr1, sleeps_of_app. cbn. now rewrite app_nil_r. }
    destruct (classify (session_get E (S (tick s)) url)) as [e|r0] eqn:Hc.
    + destruct (fetch_catches e).
      * destruct (attempt_failed_cases E a e s1) as [Hres Htr2].
        destruct (attempt_failed E a e s1) as [res s2]. cbn [fst snd] in Hres, Htr2.
        assert (Hreq2 : requests_in (trace s2) = requests_in (trace s) + 1).
        { rewrite Htr2, requests_in_app, Hreq1. cbn. lia. }
        assert (Hsl2 : List.length (sleeps_of (trace s2))
                       = List.length (sleeps_of (trace s)) + 1).
        { rewrite Htr2, sleeps_of_app, length_app, Hsl1. reflexivity. }
        destruct Hres as [-> | ->].
        -- destruct (IH s2) as (Hclean & Hreq & Hsl & Hmono & _).
           cbn [List.length].
           repeat split; try lia; try (intros _; lia). exact Hclean.
        -- cbn [fst snd List.length].
           repeat split; try lia; try (intros _; lia). discriminate.
      * cbn [fst snd List.length]. rewrite Hsl1.
        repeat split; try lia; try (intros _; lia). discriminate.
    + cbn [fst snd List.length]. rewrite Hsl1.
      repeat split; try lia; try (intros _; lia).
      intros resp Hresp. inversion Hresp. subst. exact (classify_inr _ _ Hc).
Qed.

(** X4. Whatever the site and the network do, one call of
    [_request_with_retry] makes at least one and at most five requests and
    sleeps at most once per request made; and a response it returns has
    passed every test: no error status, no blocking phrase, the table marker
    present, so the controller's [not response] can only fire on [None]. *)
Theorem fetch_is_bounded_and_clean (E : env) (url : string) (s : state) :
  requests_in (trace s) < requests_in (trace (snd (_request_with_retry E url s))) /\
  requests_in (trace (snd (_request_with_retry E url s))) <= requests_in (trace s) + 5 /\
  List.length (sleeps_of (trace (snd (_request_with_retry E url s))))
    + requests_in (trace s)
    <= List.length (sleeps_of (trace s))
       + requests_in (trace (snd (_request_with_retry E url s))) /\
  (forall resp,
      fst (_request_with_retry E url s) = Ok (Some resp) ->
      is_error_status resp = false /\
      is_blocked resp = false /\
      Text.contains "table table-striped" (text resp) = true /\
      unavailable (Some resp) = false).
Proof.
  unfold _request_with_retry.
  destruct (retry_loop_facts E url (seq 0 RETRY_LIMIT) s)
    as (Hclean & Hreq & Hsl & _ & Hpos).
  split; [apply Hpos; discriminate|]. split; [exact Hreq|]. split; [exact Hsl|].
  intros resp Hresp. specialize (Hclean resp Hresp).
  unfold classify in Hclean. unfold unavailable, response_ok.
  destruct (is_error_status resp); [discriminate|].
  destruct (is_blocked resp); [discriminate|].
  destruct (Text.contains "table table-striped" (text resp)); [|discriminate].
  repeat split.
Qed.

Lemma fetch_is_bounded_and_clean_witness :
  fst (_request_with_retry (stub_env (flaky body_last) no_faults) BASE_URL fresh)
    = Ok (Some (mkResponse 200 body_last)) /\
  unavailable (Some (mkResponse 200 body_last)) = false.
Proof.
  assert (Hrun : fst (_request_with_retry (stub_env (flaky body_last) no_faults)
                        BASE_URL fresh) = Ok (Some (mkResponse 200 body_last))).
  { vm_compute. reflexivity. }
  split; [exact Hrun|].
  destruct (fetch_is_bounded_and_clean (stub_env (flaky body_last) no_faults)
              BASE_URL fresh) as (_ & _ & _ & Hclean).
  apply (Hclean _ Hrun).
Defined.

(** X5. An exception outside the caught classes is not retried: when the
    first [session.get] raises, say, a [KeyError] or a [KeyboardInterrupt],
    the fetch raises it at once, after one request and without any backoff
    sleep. *)
Theorem uncaught_exception_is_not_retried
    (E : env) (url : string) (s : state) (e : exn) :
  classify (session_get E (S (tick s)) url) = inl e ->
  fetch_catches e = false ->
  exists s',
    _request_with_retry E url s = (Raise e, s') /\
    requests_in (trace s') = requests_in (trace s) + 1 /\
    sleeps_of (trace s') = sleeps_of (trace s).
Proof.
  intros Hc Hcatch. unfold _request_with_retry.
  change (seq 0 RETRY_LIMIT) with (0 :: seq 1 4).
  destruct (retry_loop_cons E url 0 (seq 1 4) s) as (chosen & s1 & _ & Htr & ->).
  rewrite Hc, Hcatch. exists s1. split; [reflexivity|].
  rewrite Htr, requests_in_app, sleeps_of_app. cbn. rewrite app_nil_r. split; reflexivity.
Qed.

Lemma uncaught_exception_is_not_retried_witness :
  exists s',
    _request_with_retry (stub_env crashing no_faults) BASE_URL fresh
      = (Raise (KeyError "Location"), s') /\
    requests_in (trace s') = 1 /\
    sleeps_of (trace s') = [].
Proof.
  destruct (uncaught_exception_is_not_retried (stub_env crashing no_faults) BASE_URL fresh
              (KeyError "Location") eq_refl eq_refl)
    as (s' & Hrun & Hreq & Hsl).
  exists s'. split; [exact Hrun|]. split; [exact Hreq | exact Hsl].
Defined.

(** X6. When all five attempts fail, the five backoff sleeps, each
    [2 ** attempt + jitter] in float arithmetic, add up to at least 31 and at
    most 36 seconds. *)
Theorem giving_up_takes_half_a_minute (E : env) (url : string) (s : state) :
  (forall k, sleep_interrupted E k = false) ->
  (forall k, (0 <= random_random E k < 1)%Q) ->
  (forall i, i < RETRY_LIMIT -> attempt_fails E url (tick s) i) ->
  exists s' waits,
    _request_with_retry E url s = (Ok None, s') /\
    sleeps_of (trace s') = sleeps_of (trace s) ++ waits /\
    List.length waits = 5 /\
    (31 <= total_seconds waits <= 36)%Q.
Proof.
  intros Hsleep Hrand Hfail.
  destruct (retry_loop_exhausted E url Hsleep RETRY_LIMIT 0 s Hfail) as (s' & Hrun & Hsl & _).
  exists s'. eexists. split; [exact Hrun|]. split; [exact Hsl|].
  split; [reflexivity|].
  assert (Hlt : forall i, i < 5 -> i < RETRY_LIMIT) by (intros i Hi; exact Hi).
  pose proof (backoff_bounds 0 _ (Hlt 0 ltac:(lia)) (Hrand (jitter_tick (tick s) 0))) as H0.
  pose proof (backoff_bounds 1 _ (Hlt 1 ltac:(lia)) (Hrand (jitter_tick (tick s) 1))) as H1.
  pose proof (backoff_bounds 2 _ (Hlt 2 ltac:(lia)) (Hrand (jitter_tick (tick s) 2))) as H2.
  pose proof (backoff_bounds 3 _ (Hlt 3 ltac:(lia)) (Hrand (jitter_tick (tick s) 3))) as H3.
  pose proof (backoff_bounds 4 _ (Hlt 4 ltac:(lia)) (Hrand (jitter_tick (tick s) 4))) as H4.
  cbn [RETRY_LIMIT seq map total_seconds fold_right Nat.add].
  change (inject_Z (2 ^ Z.of_nat 0)) with 1%Q in H0.
  change (inject_Z (2 ^ Z.of_nat 1)) with 2%Q in H1.
  change (inject_Z (2 ^ Z.of_nat 2)) with 4%Q in H2.
  change (inject_Z (2 ^ Z.of_nat 3)) with 8%Q in H3.
  change (inject_Z (2 ^ Z.of_nat 4)) with 16%Q in H4.
  split; lra.
Qed.

Lemma giving_up_takes_half_a_minute_witness :
  exists s' waits,
    _request_with_retry (stub_env down no_faults) BASE_URL fresh = (Ok None, s') /\
    sleeps_of (trace s') = waits /\
    (31 <= total_seconds waits <= 36)%Q.
Proof.
  destruct (giving_up_takes_half_a_minute (stub_env down no_faults) BASE_URL fresh)
    as (s' & waits & Hrun & Hsl & _ & Hsum).
  - intros k. reflexivity.
  - intros k. split; unfold Qle, Qlt; cbn; lia.
  - intros i Hi. exists ConnectionError. split; reflexivity.
  - exists s', waits. split; [exact Hrun|]. split; [exact Hsl | exact Hsum].
Defined.

(** ** More on the store *)



(** X8. [force_save] changes nothing but the log: the return value is the
    same, and so is every part of the state other than the log, for every
    buffer, file and disk fault; and the forced flush logs at most the one
    summary line more. *)
Theorem force_save_only_changes_the_log (E : env) (s : state) :
  fst (_save_progress E true s) = fst (_save_progress E false s) /\
  set_log [] (snd (_save_progress E true s)) = set_log [] (snd (_save_progress E false s)) /\
  (log (snd (_save_progress E true s)) = log (snd (_save_progress E false s)) \/
   log (snd (_save_progress E true s))
   = log (snd (_save_progress E false s))
     ++ [(INFO, SavedRecords (List.length (scraped_data s)) (output_file s))]).
Proof.
  open_state s. destruct sd as [|r0 rs].
  - unfold _save_progress, bind, get_state. cbn. auto.
  - unfold_store.
    destruct d as [[df|e]|]; cbn;
      try (destruct (write_faults E tk) as [[e|e k]|]; cbn);
      rewrite ?io_errors_are_Exceptions; cbn;
      rewrite ?length_map; auto.
Qed.

(** X9. A flush leaves nothing to flush: whatever the first flush did, a
    second one right after it returns at once and changes nothing, so
    flushing twice is flushing once. *)
Theorem flush_is_idempotent (E : env) (f1 f2 : bool) (s : state) :
  _save_progress E f2 (snd (_save_progress E f1 s))
  = (Ok tt, snd (_save_progress E f1 s)).
Proof.
  unfold _save_progress at 1. unfold bind, get_state.
  rewrite _save_progress_clears. reflexivity.
Qed.

(** ** More on the parser *)

Lemma address_pattern_length (a : string) :
  address_pattern a -> 26 <= String.length a <= 93.
Proof.
  intros (prefix & body & -> & Hp & Hlen & _).
  rewrite <- chars_length, chars_append, length_app, !chars_length.
  destruct Hp as [-> | [-> | ->]]; cbn; lia.
Qed.

(** X10. What the address check accepts, as [re.match] with a final [$]
    decides it: exactly the strings of the pattern, and those strings
    followed by one newline.  The parser strips the cell first, so a stored
    address is always of the pattern itself and has 26 to 93 characters. *)
Theorem address_check_accepts (a : string) :
  (address_matches a = true <->
   address_pattern a \/
   exists a', a = (a' ++ String Text.LF "")%string /\ address_pattern a') /\
  (forall cell, address_matches (Text.strip cell) = true ->
                address_pattern (Text.strip cell) /\
                26 <= String.length (Text.strip cell) <= 93).
Proof.
  split; [apply address_matches_spec|].
  intros cell H. apply address_matches_strip in H.
  split; [exact H | now apply address_pattern_length].
Qed.

Lemma address_check_accepts_witness :
  address_pattern (Text.strip (String.append " " genesis)) /\
  26 <= String.length (Text.strip (String.append " " genesis)) <= 93.
Proof.
  destruct (address_check_accepts "") as [_ H].
  apply H. vm_compute. reflexivity.
Defined.

Example address_with_newline_is_accepted :
  address_matches (String.append genesis (String Text.LF "")) = true.
Proof. vm_compute. reflexivity. Qed.

Lemma length_filter_le {A : Type} (f : A -> bool) (l : list A) :
  List.length (filter f l) <= List.length l.
Proof.
  induction l as [|x l IH]; cbn; [lia|]. destruct (f x); cbn; lia.
Qed.

(** X11. The parser's edge cases and its bound.  Without the table it logs
    one error and returns no record; with a table that has at most its header
    row it logs one info line and returns no record; and whenever it returns,
    it gives at most one record per data row.  Parsing never touches the
    buffer, the file, the session or the configuration. *)
Theorem parser_edges_and_bound (E : env) (html : string) (s : state) :
  (Dom.find_with "table" "class" "table-striped" (BeautifulSoup E html) = None ->
   _parse_page E html s = (Ok [], do_log ERROR TableNotFound s)) /\
  (forall table,
      Dom.find_with "table" "class" "table-striped" (BeautifulSoup E html) = Some table ->
      List.length (Dom.find_all "tr" table) <= 1 ->
      _parse_page E html s = (Ok [], do_log INFO NoRowsFound s)) /\
  (forall recs s',
      _parse_page E html s = (Ok recs, s') ->
      List.length recs <= List.length (data_rows E html)) /\
  untouched s (snd (_parse_page E html s)).
Proof.
  split; [apply parse_without_table|]. split; [|split].
  - intros table Htable Hlen. unfold _parse_page. rewrite Htable.
    destruct (Dom.find_all "tr" table) as [|h [|r rs]];
      [reflexivity | reflexivity | cbn [List.length] in Hlen; lia].
  - intros recs s' H. apply _parse_page_spec in H. destruct H as [Haddr _].
    rewrite <- (length_map address), Haddr.
    eapply Nat.le_trans; [apply length_filter_le|].
    rewrite length_map. apply length_filter_le.
  - apply _parse_page_untouched.
Qed.

Lemma parser_edges_and_bound_witness :
  _parse_page (stub_env (always body_empty) no_faults) body_empty fresh
    = (Ok [], do_log INFO NoRowsFound fresh) /\
  _parse_page (stub_env (always body_empty) no_faults) "<html></html>" fresh
    = (Ok [], do_log ERROR TableNotFound fresh).
Proof.
  split.
  - destruct (parser_edges_and_bound (stub_env (always body_empty) no_faults)
                body_empty fresh) as (_ & Hheader & _).
    apply (Hheader (key_table [])); [reflexivity | cbn; lia].
  - destruct (parser_edges_and_bound (stub_env (always body_empty) no_faults)
                "<html></html>" fresh) as (Hnone & _).
    apply Hnone. reflexivity.
Defined.

(** ** The whole run *)

Lemma scrape_loop_grows (E : env) (P : event -> Prop) (c : state) :
  (forall q, P (Sleep q)) ->
  P (ReadCsv (output_file c)) ->
  P (WriteCsv (output_file c)) ->
  forall fuel page total ce s,
    same_config c s ->
    (forall p ua ch,
        page <= p ->
        limit_reached (max_pages c) p = false ->
        (test_mode c && (2 <? p)) = false ->
        P (Get (page_url p) ua ch)) ->
    grows P s (snd (scrape_loop E fuel page total ce s)) /\
    same_config s (snd (scrape_loop E fuel page total ce s)).
Proof.
  intros Psleep Pread Pwrite.
  set (R := fun a b : state => grows P a b /\ same_config a b).
  assert (Rt : forall a b d, R a b -> R b d -> R a d).
  { intros a b d [G1 C1] [G2 C2].
    split; [eapply grows_trans | eapply same_config_trans]; eassumption. }
  assert (Rlog : forall a l m, R a (do_log l m a)).
  { intros a l m. split; [apply grows_log | repeat split]. }
  assert (Run : forall a b, grows P a b -> untouched a b -> R a b).
  { intros a b G U. split; [exact G | now apply untouched_same_config]. }
  induction fuel as [|fuel IH]; intros page total ce s Hcfg Hget;
    change (R s (snd (scrape_loop E (S fuel) page total ce s))) ||
    change (R s (snd (scrape_loop E 0 page total ce s)));
    cbn [scrape_loop].
  - split; [apply grows_refl | apply same_config_refl].
  - destruct Hcfg as (Hof & Hmp & Htm). rewrite Hmp, Htm.
    destruct (limit_reached (max_pages c) page) eqn:Hlim; [apply Rlog|].
    destruct (test_mode c && (2 <? page)) eqn:Hcap; [apply Rlog|].
    pose proof (fetch_page_untouched E page s) as Hf.
    pose proof (grows_fetch_page P E Psleep page
                  (fun ua ch => Hget page ua ch (le_n _) Hlim Hcap) s) as Gf.
    destruct (fetch_page E page s) as [[fetched|e] s1]; cbn [snd] in Hf, Gf |- *;
      [|now apply Run].
    assert (R1 : R s s1) by now apply Run.
    destruct fetched as [response|]; [|eapply Rt; [exact R1 | apply Rlog]].
    destruct (unavailable (Some response)); [eapply Rt; [exact R1 | apply Rlog]|].
    pose proof (_parse_page_untouched E (text response) s1) as Hp.
    pose proof (grows__parse_page P E (text response) s1) as Gp.
    destruct (_parse_page E (text response) s1) as [[page_data|e] s2];
      cbn [snd] in Hp, Gp |- *; [|eapply Rt; [exact R1 | now apply Run]].
    assert (R2 : R s s2) by (eapply Rt; [exact R1 | now apply Run]).
    assert (Hcont : forall t c0 s3,
      R s s3 ->
      R s (snd (match after_page E page (text response) s3 with
                | (Raise e, s4) => (Propagated e, t, s4)
                | (Ok false, s4) => (Stopped NoNextPage, t, s4)
                | (Ok true, s4) => scrape_loop E fuel (page + 1) t c0 s4
                end))).
    { intros t c0 s3 R3.
      assert (Hcfg3 : same_config c s3).
      { eapply same_config_trans; [|exact (proj2 R3)]. repeat split; assumption. }
      pose proof (after_page_same_config E page (text response) s3) as Ha.
      assert (Ga : grows P s3 (snd (after_page E page (text response) s3))).
      { apply grows_after_page; destruct Hcfg3 as (-> & _); assumption. }
      assert (Ra : R s (snd (after_page E page (text response) s3))).
      { eapply Rt; [exact R3 | split; assumption]. }
      destruct (after_page E page (text response) s3) as [[[|]|e] s4];
        cbn [snd] in Ha, Ga, Ra |- *; try exact Ra.
      eapply Rt; [exact Ra|].
      apply IH.
      - eapply same_config_trans; eassumption.
      - intros p ua ch Hle. apply Hget. lia. }
    destruct page_data as [|r rs].
    + destruct (3 <=? ce + 1); [eapply Rt; [exact R2 | apply Rlog]|].
      now apply Hcont.
    + apply Hcont. eapply Rt; [exact R2|].
      split; [now apply grows_same_trace | repeat split].
Qed.

Lemma handle_exit_trace (x : loop_exit) (s : state) :
  trace (snd (handle_exit x s)) = trace s /\ same_config s (snd (handle_exit x s)).
Proof.
  unfold handle_exit. destruct x as [r|e|]; try (split; [reflexivity | repeat split]).
  destruct (is_KeyboardInterrupt e); [split; [reflexivity | repeat split]|].
  destruct (is_Exception e); split; try reflexivity; repeat split.
Qed.

Lemma cleanup_grows (E : env) (P : event -> Prop) (total : nat) (s : state) :
  P (ReadCsv (output_file s)) ->
  P (WriteCsv (output_file s)) ->
  P SessionClose ->
  grows P s (snd (cleanup E total s)).
Proof.
  intros Pread Pwrite Pclose. rewrite cleanup_run. cbn [snd].
  destruct (grows__save_progress P E true s Pread Pwrite) as (more & Hmore & Hall).
  exists (more ++ [SessionClose]). split.
  - cbn [trace set_session_open set_trace]. now rewrite Hmore, app_assoc.
  - apply Forall_app. split; [exact Hall | now constructor].
Qed.

Lemma scrape_database_grows (E : env) (P : event -> Prop) (fuel : nat) (s : state) :
  (forall q, P (Sleep q)) ->
  P (ReadCsv (output_file s)) ->
  P (WriteCsv (output_file s)) ->
  P SessionClose ->
  (forall p ua ch,
      1 <= p ->
      limit_reached (max_pages s) p = false ->
      (test_mode s && (2 <? p)) = false ->
      P (Get (page_url p) ua ch)) ->
  grows P s (snd (scrape_database E fuel s)).
Proof.
  intros Psleep Pread Pwrite Pclose Pget. unfold scrape_database.
  pose proof (scrape_loop_grows E P s Psleep Pread Pwrite fuel 1 0 0
                (do_log INFO Starting s) (same_config_do_log _ _ s) Pget) as [Gl Hcfg].
  destruct (scrape_loop E fuel 1 0 0 (do_log INFO Starting s)) as [[x total] s1].
  cbn [snd] in Gl, Hcfg.
  assert (G1 : grows P s s1).
  { eapply grows_trans; [apply (grows_log P (log s ++ [(INFO, Starting)]) s) | exact Gl]. }
  destruct (handle_exit_trace x s1) as [Htr Hcfgx].
  assert (Gc : forall s2,
     trace s2 = trace s1 -> same_config s1 s2 ->
     grows P s (snd (cleanup E total s2))).
  { intros s2 Htr2 Hcfg2. eapply grows_trans; [exact G1|].
    eapply grows_trans; [apply grows_same_trace; exact Htr2|].
    destruct Hcfg2 as (Hof2 & _). destruct Hcfg as (Hof1 & _). cbn in Hof1.
    apply cleanup_grows; [rewrite Hof2, Hof1 .. |]; assumption. }
  destruct x as [r|e|]; [| |exact G1];
    destruct (handle_exit _ s1) as [pending s2]; cbn [snd] in Htr, Hcfgx;
    specialize (Gc s2 Htr Hcfgx);
    destruct (cleanup E total s2) as [[u|e'] s3]; cbn [snd] in Gc |- *;
    try destruct pending; exact Gc.
Qed.

(** X12. A run only does what it is there for.  Every event a run adds to
    the trace is a sleep, a request for a listing page, a read or a write of
    [output_file], or the closing of the session: it prints nothing, exports
    nothing and asks for no other URL.  The pages asked for are numbered
    from 1 and pass both caps: under a page limit [m] other than 0 they are
    among pages 1 to [m], and in test mode among pages 1 and 2. *)
Theorem run_only_requests_listing_pages (E : env) (fuel : nat) (s : state) :
  exists more,
    trace (snd (scrape_database E fuel s)) = trace s ++ more /\
    Forall (run_event s) more /\
    (forall m url ua ch,
        max_pages s = Some m -> m <> 0%Z -> In (Get url ua ch) more ->
        exists page, 1 <= page /\ (Z.of_nat page <= m)%Z /\ url = page_url page) /\
    (forall url ua ch,
        test_mode s = true -> In (Get url ua ch) more ->
        url = page_url 1 \/ url = page_url 2).
Proof.
  destruct (scrape_database_grows E (run_event s) fuel s) as (more & Hmore & Hall);
    try (cbn; auto; fail).
  { intros p ua ch Hp Hlim Hcap. exists p. auto. }
  exists more. split; [exact Hmore|]. split; [exact Hall|].
  rewrite Forall_forall in Hall. split.
  - intros m url ua ch Hmax Hm Hin.
    destruct (Hall _ Hin) as (page & Hpage & Hurl & Hlim & _).
    exists page. split; [exact Hpage|]. split; [|exact Hurl].
    rewrite Hmax, limit_reached_spec in Hlim by exact Hm.
    now apply Z.ltb_ge in Hlim.
  - intros url ua ch Htest Hin.
    destruct (Hall _ Hin) as (page & Hpage & Hurl & _ & Hcap).
    rewrite Htest in Hcap. cbn [andb] in Hcap. apply Nat.ltb_ge in Hcap.
    assert (Hp : page = 1 \/ page = 2) by lia.
    destruct Hp as [-> | ->]; auto.
Qed.

Lemma run_only_requests_listing_pages_witness :
  exists more,
    trace (snd (scrape_database (stub_env (always body_full) no_faults) 9 testing)) = more /\
    forall url ua ch, In (Get url ua ch) more -> url = page_url 1 \/ url = page_url 2.
Proof.
  destruct (run_only_requests_listing_pages (stub_env (always body_full) no_faults) 9 testing)
    as (more & Hmore & _ & _ & Htest).
  exists more. split; [exact Hmore|].
  intros url ua ch. apply Htest. reflexivity.
Defined.

Lemma fetch_page_requests (E : env) (page : nat) (s : state) :
  requests_in (trace (snd (fetch_page E page s))) <= requests_in (trace s) + 5.
Proof.
  rewrite fetch_page_unfold. cbv zeta.
  destruct (sleep_interrupted E (S (tick s))).
  - cbn [snd trace set_trace set_tick]. rewrite requests_in_app. cbn. lia.
  - unfold _request_with_retry.
    match goal with
    | |- context [retry_loop E ?u ?l ?s1] =>
        destruct (retry_loop_facts E u l s1) as (_ & Hreq & _)
    end.
    cbn [trace set_trace set_tick] in Hreq. rewrite requests_in_app in Hreq.
    cbn in Hreq |- *. lia.
Qed.

Lemma grows_without_requests (s s' : state) :
  grows (fun e => match e with Get _ _ _ => False | _ => True end) s s' ->
  requests_in (trace s') = requests_in (trace s).
Proof.
  intros (more & -> & Hall). rewrite requests_in_app.
  assert (H0 : requests_in more = 0).
  { induction Hall as [|e more He _ IH]; [reflexivity|].
    destruct e; try contradiction; exact IH. }
  lia.
Qed.

Lemma cleanup_requests (E : env) (total : nat) (s : state) :
  requests_in (trace (snd (cleanup E total s))) = requests_in (trace s).
Proof. apply grows_without_requests. apply cleanup_grows; exact I. Qed.

(** Past page [B] one of the two caps stops the loop: what this bounds. *)
Lemma capped_loop (E : env) (c : state) (B : nat) :
  (forall p, B < p ->
             limit_reached (max_pages c) p || (test_mode c && (2 <? p)) = true) ->
  forall fuel page total ce s,
    same_config c s ->
    requests_in (trace (snd (scrape_loop E fuel page total ce s)))
      <= requests_in (trace s) + 5 * (B + 1 - page) /\
    (1 <= fuel -> B + 2 <= page + fuel ->
     fst (fst (scrape_loop E fuel page total ce s)) <> OutOfFuel).
Proof.
  intros Hcaps.
  induction fuel as [|fuel IH]; intros page total ce s Hcfg; cbn [scrape_loop].
  - cbn [fst snd]. split; lia.
  - destruct Hcfg as (Hof & Hmp & Htm). rewrite Hmp, Htm.
    destruct (limit_reached (max_pages c) page) eqn:Hlim.
    { cbn [fst snd trace do_log set_log]. split; [lia | discriminate]. }
    destruct (test_mode c && (2 <? page)) eqn:Hcap.
    { cbn [fst snd trace do_log set_log]. split; [lia | discriminate]. }
    assert (Hpage : page <= B).
    { destruct (Nat.le_gt_cases page B) as [Hle|Hgt]; [exact Hle|].
      specialize (Hcaps page Hgt). rewrite Hlim, Hcap in Hcaps. discriminate. }
    pose proof (fetch_page_untouched E page s) as Hf.
    pose proof (fetch_page_requests E page s) as Qf.
    destruct (fetch_page E page s) as [[fetched|e] s1]; cbn [fst snd] in Hf, Qf |- *;
      [|split; [lia | discriminate]].
    destruct fetched as [response|];
      [|cbn [fst snd trace do_log set_log]; split; [lia | discriminate]].
    destruct (unavailable (Some response));
      [cbn [fst snd trace do_log set_log]; split; [lia | discriminate]|].
    pose proof (_parse_page_untouched E (text response) s1) as Hp.
    pose proof (_parse_page_trace E (text response) s1) as Qp.
    destruct (_parse_page E (text response) s1) as [[page_data|e] s2];
      cbn [fst snd] in Hp, Qp |- *; [|rewrite Qp; split; [lia | discriminate]].
    assert (Hcfg2 : same_config c s2).
    { eapply same_config_trans; [|apply untouched_same_config; exact Hp].
      eapply same_config_trans; [|apply untouched_same_config; exact Hf].
      repeat split; assumption. }
    assert (Hcont : forall t c0 s3,
      same_config c s3 -> trace s3 = trace s2 ->
      requests_in (trace (snd (match after_page E page (text response) s3 with
                               | (Raise e, s4) => (Propagated e, t, s4)
                               | (Ok false, s4) => (Stopped NoNextPage, t, s4)
                               | (Ok true, s4) => scrape_loop E fuel (page + 1) t c0 s4
                               end)))
        <= requests_in (trace s) + 5 * (B + 1 - page) /\
      (1 <= S fuel -> B + 2 <= page + S fuel ->
       fst (fst (match after_page E page (text response) s3 with
                 | (Raise e, s4) => (Propagated e, t, s4)
                 | (Ok false, s4) => (Stopped NoNextPage, t, s4)
                 | (Ok true, s4) => scrape_loop E fuel (page + 1) t c0 s4
                 end)) <> OutOfFuel)).
    { intros t c0 s3 Hcfg3 Htr3.
      pose proof (after_page_same_config E page (text response) s3) as Ha.
      pose proof (after_page_requests E page (text response) s3) as Qa.
      rewrite Htr3, Qp in Qa.
      destruct (after_page E page (text response) s3) as [[[|]|e] s4];
        cbn [fst snd] in Ha, Qa |- *; try (split; [lia | discriminate]).
      destruct (IH (page + 1) t c0 s4) as [Hreq Hend].
      { eapply same_config_trans; eassumption. }
      split; [lia|]. intros _ Hfuel. apply Hend; lia. }
    destruct page_data as [|r rs].
    + destruct (3 <=? ce + 1).
      * cbn [fst snd trace do_log set_log]. rewrite Qp. split; [lia | discriminate].
      * now apply Hcont.
    + apply Hcont; [|reflexivity].
      eapply same_config_trans; [exact Hcfg2 | repeat split].
Qed.

Lemma capped_run (E : env) (B fuel : nat) (s : state) :
  (forall p, B < p ->
             limit_reached (max_pages s) p || (test_mode s && (2 <? p)) = true) ->
  requests_in (trace (snd (scrape_database E fuel s))) <= requests_in (trace s) + 5 * B /\
  (B + 1 <= fuel -> fst (scrape_database E fuel s) <> StillRunning).
Proof.
  intros Hcaps. unfold scrape_database.
  destruct (capped_loop E s B Hcaps fuel 1 0 0 (do_log INFO Starting s)
              (same_config_do_log _ _ s)) as [Hreq Hend].
  cbn [trace do_log set_log] in Hreq.
  destruct (scrape_loop E fuel 1 0 0 (do_log INFO Starting s)) as [[x total] s1].
  cbn [fst snd] in Hreq, Hend.
  destruct (handle_exit_trace x s1) as [Htr _].
  destruct x as [r|e|].
  - destruct (handle_exit _ s1) as [pending s2]. cbn [snd] in Htr.
    pose proof (cleanup_requests E total s2) as Qc. rewrite cleanup_run in Qc |- *.
    cbn [fst snd] in Qc |- *. rewrite Htr in Qc.
    destruct pending; cbn [fst snd]; (split; [lia | discriminate]).
  - destruct (handle_exit _ s1) as [pending s2]. cbn [snd] in Htr.
    pose proof (cleanup_requests E total s2) as Qc. rewrite cleanup_run in Qc |- *.
    cbn [fst snd] in Qc |- *. rewrite Htr in Qc.
    destruct pending; cbn [fst snd]; (split; [lia | discriminate]).
  - cbn [fst snd]. split; [lia|]. intros Hfuel. exfalso. apply Hend; [lia | lia | reflexivity].
Qed.

(** X13. A capped run is short, whatever the site serves.  In test mode the
    run makes at most ten requests, five tries for each of two pages, and
    ends within three iterations.  Under a page limit [m] other than 0 it
    makes at most [5 m] requests and ends within [m + 1] iterations; under a
    negative limit it makes no request at all. *)
Theorem capped_run_is_short (E : env) (fuel : nat) (s : state) :
  (test_mode s = true ->
   requests_in (trace (snd (scrape_database E fuel s))) <= requests_in (trace s) + 10 /\
   (3 <= fuel -> fst (scrape_database E fuel s) <> StillRunning)) /\
  (forall m,
      max_pages s = Some m -> m <> 0%Z ->
      requests_in (trace (snd (scrape_database E fuel s)))
        <= requests_in (trace s) + 5 * Z.to_nat m /\
      (Z.to_nat m + 1 <= fuel -> fst (scrape_database E fuel s) <> StillRunning)).
Proof.
  split.
  - intros Htest. apply (capped_run E 2 fuel s).
    intros p Hp. rewrite Htest. cbn [andb].
    apply Nat.ltb_lt in Hp. rewrite Hp. apply orb_true_r.
  - intros m Hmax Hm. apply (capped_run E (Z.to_nat m) fuel s).
    intros p Hp. rewrite Hmax, limit_reached_spec by exact Hm.
    apply orb_true_iff. left. apply Z.ltb_lt. lia.
Qed.

Lemma capped_run_is_short_witness :
  requests_in (trace (snd (scrape_database (stub_env down no_faults) 3 testing))) <= 10 /\
  fst (scrape_database (stub_env (always body_full) no_faults) 3 testing) <> StillRunning.
Proof.
  split.
  - destruct (capped_run_is_short (stub_env down no_faults) 3 testing) as [Htest _].
    destruct (Htest eq_refl) as [Hreq _]. exact Hreq.
  - destruct (capped_run_is_short (stub_env (always body_full) no_faults) 3 testing)
      as [Htest _].
    destruct (Htest eq_refl) as [_ Hend]. apply Hend. lia.
Defined.

(** ** The periodic save *)






(** ** A run that finds nothing *)

Lemma after_page_empty_buffer (E : env) (page : nat) (body : string) (s : state) :
  scraped_data s = [] ->
  snd (after_page E page body s) = s \/
  snd (after_page E page body s) = do_log INFO NoMorePages s.
Proof.
  intros Hbuf. unfold after_page, bind.
  assert (Hsave : (if page mod SAVE_INTERVAL =? 0 then _save_progress E false else ret tt) s
                  = (Ok tt, s)).
  { destruct (page mod SAVE_INTERVAL =? 0); [|reflexivity].
    unfold _save_progress, bind, get_state. now rewrite Hbuf. }
  rewrite Hsave.
  destruct (Dom.find_with "a" "rel" "next" (BeautifulSoup E body)); cbn; auto.
Qed.

Lemma scrape_loop_without_records (E : env) :
  forall fuel page total ce s,
    total <= snd (fst (scrape_loop E fuel page total ce s)) /\
    (scraped_data s = [] ->
     snd (fst (scrape_loop E fuel page total ce s)) = total ->
     scraped_data (snd (scrape_loop E fuel page total ce s)) = [] /\
     disk (snd (scrape_loop E fuel page total ce s)) = disk s /\
     grows (fun e => touches_file e = false) s (snd (scrape_loop E fuel page total ce s))).
Proof.
  set (P := fun e => touches_file e = false).
  set (R := fun a b : state =>
              scraped_data a = [] ->
              scraped_data b = [] /\ disk b = disk a /\ grows P a b).
  assert (Rt : forall a b d, R a b -> R b d -> R a d).
  { intros a b d Hab Hbd Ha. destruct (Hab Ha) as (Hb1 & Hb2 & Hb3).
    destruct (Hbd Hb1) as (Hd1 & Hd2 & Hd3).
    split; [exact Hd1|]. split; [congruence | eapply grows_trans; eassumption]. }
  assert (Rlog : forall a l m, R a (do_log l m a)).
  { intros a l m Ha. split; [exact Ha|]. split; [reflexivity | apply grows_log]. }
  assert (Run : forall a b, grows P a b -> untouched a b -> R a b).
  { intros a b G U Ha. destruct U as (_ & _ & _ & _ & _ & Hsd & _ & Hd & _).
    split; [congruence|]. split; [exact Hd | exact G]. }
  induction fuel as [|fuel IH]; intros page total ce s; cbn [scrape_loop].
  - cbn [fst snd]. split; [lia|]. intros Hbuf _.
    split; [exact Hbuf|]. split; [reflexivity | apply grows_refl].
  - destruct (limit_reached (max_pages s) page).
    { cbn [fst snd]. split; [lia|]. intros Hbuf _. now apply Rlog. }
    destruct (test_mode s && (2 <? page)).
    { cbn [fst snd]. split; [lia|]. intros Hbuf _. now apply Rlog. }
    pose proof (fetch_page_untouched E page s) as Hf.
    pose proof (grows_fetch_page P E (fun _ => eq_refl) page (fun _ _ => eq_refl) s) as Gf.
    destruct (fetch_page E page s) as [[fetched|e] s1]; cbn [fst snd] in Hf, Gf |- *.
    2:{ split; [lia|]. intros Hbuf _. now apply Run. }
    assert (R1 : R s s1) by now apply Run.
    destruct fetched as [response|].
    2:{ cbn [fst snd]. split; [lia|]. intros Hbuf _.
        revert Hbuf. eapply Rt; [exact R1 | apply Rlog]. }
    destruct (unavailable (Some response)).
    { cbn [fst snd]. split; [lia|]. intros Hbuf _.
      revert Hbuf. eapply Rt; [exact R1 | apply Rlog]. }
    pose proof (_parse_page_untouched E (text response) s1) as Hp.
    pose proof (grows__parse_page P E (text response) s1) as Gp.
    destruct (_parse_page E (text response) s1) as [[page_data|e] s2];
      cbn [fst snd] in Hp, Gp |- *.
    2:{ split; [lia|]. intros Hbuf _.
        revert Hbuf. eapply Rt; [exact R1 | now apply Run]. }
    assert (R2 : R s s2) by (eapply Rt; [exact R1 | now apply Run]).
    assert (Hcont : forall t c0 s3,
      total <= t ->
      (t = total -> R s s3) ->
      total <= snd (fst (match after_page E page (text response) s3 with
                         | (Raise e, s4) => (Propagated e, t, s4)
                         | (Ok false, s4) => (Stopped NoNextPage, t, s4)
                         | (Ok true, s4) => scrape_loop E fuel (page + 1) t c0 s4
                         end)) /\
      (scraped_data s = [] ->
       snd (fst (match after_page E page (text response) s3 with
                 | (Raise e, s4) => (Propagated e, t, s4)
                 | (Ok false, s4) => (Stopped NoNextPage, t, s4)
                 | (Ok true, s4) => scrape_loop E fuel (page + 1) t c0 s4
                 end)) = total ->
       R s (snd (match after_page E page (text response) s3 with
                 | (Raise e, s4) => (Propagated e, t, s4)
                 | (Ok false, s4) => (Stopped NoNextPage, t, s4)
                 | (Ok true, s4) => scrape_loop E fuel (page + 1) t c0 s4
                 end)) (* under the same premise *) )).
    { intros t c0 s3 Hle R3.
      pose proof (after_page_empty_buffer E page (text response) s3) as Ha.
      destruct (IH (page + 1) t c0 (snd (after_page E page (text response) s3)))
        as [Hmono Hkeep].
      destruct (after_page E page (text response) s3) as [[[|]|e] s4];
        cbn [fst snd] in Ha, Hmono, Hkeep |- *.
      - split; [lia|]. intros Hbuf Htot.
        assert (Ht : t = total) by lia. specialize (R3 Ht).
        destruct (R3 Hbuf) as (Hb3 & _).
        assert (R4 : R s3 s4).
        { destruct (Ha Hb3) as [-> | ->]; [|apply Rlog].
          intros Hb. split; [exact Hb|]. split; [reflexivity | apply grows_refl]. }
        eapply Rt; [exact R3|]. eapply Rt; [exact R4|].
        intros Hb4. apply Hkeep; [exact Hb4 | lia].
      - split; [exact Hle|]. intros Hbuf Htot. specialize (R3 Htot).
        destruct (R3 Hbuf) as (Hb3 & _).
        eapply Rt; [exact R3|].
        destruct (Ha Hb3) as [-> | ->]; [|apply Rlog].
        intros Hb. split; [exact Hb|]. split; [reflexivity | apply grows_refl].
      - split; [exact Hle|]. intros Hbuf Htot. specialize (R3 Htot).
        destruct (R3 Hbuf) as (Hb3 & _).
        eapply Rt; [exact R3|].
        destruct (Ha Hb3) as [-> | ->]; [|apply Rlog].
        intros Hb. split; [exact Hb|]. split; [reflexivity | apply grows_refl]. }
    destruct page_data as [|r rs].
    + destruct (3 <=? ce + 1).
      * cbn [fst snd]. split; [lia|]. intros Hbuf _.
        revert Hbuf. eapply Rt; [exact R2 | apply Rlog].
      * destruct (Hcont total (ce + 1) s2 (le_n _) (fun _ => R2)) as [Hmono Hkeep].
        split; [exact Hmono|]. intros Hbuf Htot. now apply Hkeep.
    + destruct (Hcont (total + List.length (r :: rs)) 0
                  (set_scraped_data (scraped_data s2 ++ r :: rs) s2)) as [Hmono Hkeep].
      * lia.
      * cbn [List.length]. intros Hbad. lia.
      * split; [lia|]. intros Hbuf Htot. now apply Hkeep.
Qed.

(** X15. A run that finds nothing leaves the file alone.  When a run started
    with an empty buffer returns a total of 0, the file is as it was,
    whatever it held, and the run has neither read nor written any file:
    the final flush has nothing to do. *)
Theorem run_without_records_leaves_the_file
    (E : env) (fuel : nat) (s s' : state) :
  scraped_data s = [] ->
  scrape_database E fuel s = (Returned 0, s') ->
  disk s' = disk s /\
  exists more,
    trace s' = trace s ++ more /\
    Forall (fun e => touches_file e = false) more.
Proof.
  intros Hbuf Hrun. unfold scrape_database in Hrun.
  destruct (scrape_loop_without_records E fuel 1 0 0 (do_log INFO Starting s))
    as [_ Hkeep].
  destruct (scrape_loop E fuel 1 0 0 (do_log INFO Starting s)) as [[x total] s1].
  cbn [fst snd] in Hkeep.
  assert (Hfinal : x <> OutOfFuel ->
     forall s2, trace s2 = trace s1 -> scraped_data s2 = scraped_data s1 ->
                disk s2 = disk s1 ->
     cleanup E total s2 = (Ok tt, s') -> total = 0 ->
     disk s' = disk s /\
     exists more, trace s' = trace s ++ more /\
                  Forall (fun e => touches_file e = false) more).
  { intros _ s2 Htr Hsd Hd Hclean Htot. subst total.
    destruct (Hkeep Hbuf eq_refl) as (Hb1 & Hd1 & (more & Hmore & Hall)).
    rewrite cleanup_run in Hclean.
    assert (Hflush : snd (_save_progress E true s2) = s2).
    { unfold _save_progress, bind, get_state. now rewrite Hsd, Hb1. }
    rewrite Hflush in Hclean. inversion Hclean; subst s'.
    cbn [disk trace set_session_open set_trace do_log set_log].
    split; [now rewrite Hd, Hd1|].
    exists (more ++ [SessionClose]). split.
    - rewrite Htr, Hmore. cbn [trace do_log set_log]. now rewrite app_assoc.
    - apply Forall_app. split; [exact Hall | now constructor]. }
  destruct x as [r|e|]; [| |discriminate Hrun].
  - cbn [handle_exit] in Hrun.
    destruct (cleanup E total s1) as [[[]|e'] s3] eqn:Hc; [|discriminate Hrun].
    inversion Hrun; subst. eapply Hfinal; try exact Hc; try reflexivity. discriminate.
  - unfold handle_exit in Hrun.
    destruct (is_KeyboardInterrupt e).
    + destruct (cleanup E total _) as [[[]|e'] s3] eqn:Hc; [|discriminate Hrun].
      inversion Hrun; subst. eapply Hfinal; try exact Hc; try reflexivity. discriminate.
    + destruct (is_Exception e).
      * destruct (cleanup E total _) as [[[]|e'] s3] eqn:Hc; [|discriminate Hrun].
        inversion Hrun; subst. eapply Hfinal; try exact Hc; try reflexivity. discriminate.
      * destruct (cleanup E total _) as [[[]|e'] s3] eqn:Hc; discriminate Hrun.
Qed.

Lemma run_without_records_leaves_the_file_witness :
  disk (snd (scrape_database (stub_env (always body_empty) no_faults) 9
               (__init__ "bitcoin_keys.csv" None false None (Some (Table old_table)))))
  = Some (Table old_table).
Proof.
  refine (proj1 (run_without_records_leaves_the_file
                   (stub_env (always body_empty) no_faults) 9
                   (__init__ "bitcoin_keys.csv" None false None (Some (Table old_table)))
                   _ eq_refl _)).
  vm_compute. reflexivity.
Defined.

(** ** Page addresses *)

Lemma append_injective (a x y : string) :
  String.append a x = String.append a y -> x = y.
Proof.
  induction a as [|c a IH]; cbn; intros H; [exact H|].
  inversion H. now apply IH.
Qed.

Lemma str_of_nat_injective (p q : nat) :
  Text.str_of_nat p = Text.str_of_nat q -> p = q.
Proof.
  unfold Text.str_of_nat. intros H.
  assert (Hu : Nat.to_uint p = Nat.to_uint q).
  { pose proof (NilEmpty.usu (Nat.to_uint p)) as Hp.
    pose proof (NilEmpty.usu (Nat.to_uint q)) as Hq.
    rewrite H in Hp. congruence. }
  rewrite <- (DecimalNat.Unsigned.of_to p),
          <- (DecimalNat.Unsigned.of_to q).
  now rewrite Hu.
Qed.

(** X16. Every page has its own address: page 1 is the bare listing URL,
    every later page is that URL with [?page=<number>] in decimal, and two
    different page numbers never give the same URL. *)
Theorem pages_have_distinct_urls (p q : nat) :
  1 <= p -> 1 <= q -> p <> q -> page_url p <> page_url q.
Proof.
  unfold page_url. intros Hp Hq Hne.
  destruct (Nat.ltb_spec 1 p) as [Hp1|Hp1]; destruct (Nat.ltb_spec 1 q) as [Hq1|Hq1];
    intros H.
  - apply append_injective in H. apply append_injective in H.
    apply Hne. now apply str_of_nat_injective.
  - apply (f_equal String.length) in H.
    rewrite <- !chars_length, !chars_append, !length_app in H. cbn in H. lia.
  - apply (f_equal String.length) in H.
    rewrite <- !chars_length, !chars_append, !length_app in H. cbn in H. lia.
  - lia.
Qed.

Lemma pages_have_distinct_urls_witness : page_url 1 <> page_url 2.
Proof. apply pages_have_distinct_urls; lia. Defined.

(** ** More on the search *)


Lemma select_columns_missing (cols : list string) (df : DataFrame) (s : state) :
  (exists c, In c cols /\ ~ In c (columns df)) ->
  exists missing,
    In missing cols /\ ~ In missing (columns df) /\
    select_columns cols df s = (Raise (KeyError missing), s).
Proof.
  intros (c & Hin & Hnot). unfold select_columns.
  assert (Hc : In c (filter (fun c => negb (existsb (String.eqb c) (columns df))) cols)).
  { apply filter_In. split; [exact Hin|].
    destruct (existsb (String.eqb c) (columns df)) eqn:Hex; [|reflexivity].
    apply existsb_exists in Hex. destruct Hex as (x & Hx & Heq).
    apply String.eqb_eq in Heq. subst x. contradiction. }
  destruct (filter _ cols) as [|m ms] eqn:Hf; [destruct Hc|].
  assert (Hm : In m (filter (fun c => negb (existsb (String.eqb c) (columns df))) cols))
    by (rewrite Hf; now left).
  apply filter_In in Hm. destruct Hm as [Hm1 Hm2].
  exists m. split; [exact Hm1|]. split; [|reflexivity].
  intros Hmin. apply negb_true_iff in Hm2.
  assert (Hex : existsb (String.eqb m) (columns df) = true).
  { apply existsb_exists. exists m. split; [exact Hmin | apply String.eqb_refl]. }
  congruence.
Qed.

Lemma empty_rows (cols : list string) (kept : list (list cell)) :
  cols <> [] -> empty (mkDataFrame cols kept) = match kept with [] => true | _ => false end.
Proof.
  intros Hcols. unfold empty, len. cbn [columns data].
  destruct cols as [|c cols]; [congruence|]. destruct kept; reflexivity.
Qed.




(** Where a missing cell is given the text [nan], the keyword [nan] finds
    the rows with a missing cell, here the second row of the ledger. *)
Example missing_cell_matches_nan :
  fst (search_with (stub_env down no_faults) (Re.re_compile "nan") "nan" "csv" with_ledger)
  = Ok (to_dict (mkDataFrame record_columns (skipn 1 (data ledger)))).
Proof. vm_compute. reflexivity. Qed.

(** X18. The console needs all five columns.  When rows match but the
    dataset lacks one of [index], [address], [balance], [private_key],
    [details_url], a console search prints the heading and then fails on the
    column selection: no row is printed, nothing is written, the [KeyError]
    is caught and logged as a failed search, and the result is the empty
    list. *)
Theorem console_search_needs_all_five_columns
    (E : env) (keyword : string) (s : state) (df : DataFrame)
    (kept : list (list cell)) :
  disk s = Some (Table df) ->
  select E (pattern_of E keyword) (data df) = Ok kept ->
  kept <> [] ->
  columns df <> [] ->
  (exists c, In c console_columns /\ ~ In c (columns df)) ->
  exists missing s',
    search_database E keyword "console" s = Some (Ok [], s') /\
    In missing console_columns /\ ~ In missing (columns df) /\
    log s' = log s ++ [(INFO, Searching keyword);
                       (ERROR, SearchFailed (KeyError missing))] /\
    trace s' = trace s ++ [ReadCsv (output_file s);
                           Print (String Text.LF "Search Results:")] /\
    disk s' = disk s /\
    exports s' = exports s.
Proof.
  intros Hdisk Hsel Hkept Hcols Hmiss.
  rewrite search_database_run.
  open_state s. subst d. unfold_search. rewrite Hsel. scbn.
  rewrite (empty_rows _ kept Hcols).
  destruct kept as [|row kept]; [congruence|]. ground_eqb. scbn.
  match goal with
  | |- context [select_columns ?c ?d ?st] =>
      destruct (select_columns_missing c d st Hmiss) as (missing & Hin & Hnot & Hrun)
  end.
  exists missing. rewrite Hrun. scbn.
  eexists. split; [reflexivity|]. scbn.
  split; [exact Hin|]. split; [exact Hnot|]. rewrite <- !app_assoc. repeat split.
Qed.

Lemma console_search_needs_all_five_columns_witness :
  exists missing s',
    search_database (stub_env down no_faults) "1a1z" "console"
      (__init__ "bitcoin_keys.csv" None false None
         (Some (Table (mkDataFrame ["address"] [[Some genesis]]))))
    = Some (Ok [], s') /\
    log s' = [(INFO, Searching "1a1z"); (ERROR, SearchFailed (KeyError missing))].
Proof.
  destruct (console_search_needs_all_five_columns (stub_env down no_faults) "1a1z"
              (__init__ "bitcoin_keys.csv" None false None
                 (Some (Table (mkDataFrame ["address"] [[Some genesis]]))))
              (mkDataFrame ["address"] [[Some genesis]]) [[Some genesis]])
    as (missing & s' & Hrun & _ & _ & Hlog & _).
  - reflexivity.
  - vm_compute. reflexivity.
  - discriminate.
  - discriminate.
  - exists "index". split; [now left|]. intros [H|[]]. discriminate H.
  - exists missing, s'. split; [exact Hrun | exact Hlog].
Defined.



(** X20. Searching without a dataset.  With no file at [output_file] the
    search logs that the database is missing and returns the empty list
    without reading anything, for every keyword, even one that is not a
    valid pattern: the keyword is not looked at.  With a file that cannot be
    read or parsed it reads once, logs the failure and returns the empty
    list, again for every keyword. *)
Theorem search_without_a_dataset
    (E : env) (keyword output_format : string) (s : state) :
  (disk s = None ->
   search_database E keyword output_format s
   = Some (Ok [], do_log ERROR DatabaseNotFound (do_log INFO (Searching keyword) s))) /\
  (forall e,
      disk s = Some (Unreadable e) ->
      search_database E keyword output_format s
      = Some (Ok [],
              set_trace (trace s ++ [ReadCsv (output_file s)])
                (do_log ERROR (SearchFailed (exn_of_io e))
                   (do_log INFO (Searching keyword) s)))).
Proof.
  rewrite search_database_run. split.
  - intros Hdisk. open_state s. subst d. reflexivity.
  - intros e Hdisk. open_state s. subst d. unfold_search.
    rewrite io_errors_are_Exceptions. reflexivity.
Qed.

Lemma search_without_a_dataset_witness :
  search_database (stub_env down no_faults) "(" "console" fresh
  = Some (Ok [], do_log ERROR DatabaseNotFound (do_log INFO (Searching "(") fresh)).
Proof.
  destruct (search_without_a_dataset (stub_env down no_faults) "(" "console" fresh)
    as [Hnone _].
  apply Hnone. reflexivity.
Defined.

(** ** The command line *)




(** With [--output] naming the export file, a search replaces the dataset by
    the rows it found. *)
Example search_can_replace_the_dataset :
  match main (stub_env down no_faults) 9
          (Args.mk false None false (Some "kwdibf") "search_results_kwdibf.csv" "csv" "auto")
          (Some (Table ledger)) with
  | Some (_, s) => disk s = Some (Table (mkDataFrame record_columns (skipn 1 (data ledger))))
  | None => False
  end.
Proof. vm_compute. reflexivity. Qed.

(** ** A relation kept by every step is kept by the run *)



(** ** Which proxy the requests of a run carry *)

Lemma same_proxy_refl (s : state) : same_proxy s s.
Proof. split; reflexivity. Qed.

Lemma same_proxy_trans (a b d : state) :
  same_proxy a b -> same_proxy b d -> same_proxy a d.
Proof. intros [H1 H2] [H3 H4]. split; congruence. Qed.



Section ProxyRun.

Variable E : env.
Variable c : state.
Hypothesis pool : Forall (fun q => q = "") (proxies c).











Lemma same_proxy__save_progress (force_save : bool) :
  keeps same_proxy (_save_progress E force_save).
Proof.
  apply keeps__save_progress; intros;
    first [apply same_proxy_refl | eapply same_proxy_trans; eassumption | split; reflexivity].
Qed.




End ProxyRun.



(** ** What a record holds *)




